(** * Booker: booklet generation around external PDF tools

    A shallow embedding of [booker.py]: the pure helpers (page ranges,
    selections, margins, path rewriting with [re.sub], the parser of
    [pdfinfo]'s output) as total functions, and the code that creates
    temporary files and runs external processes as a state-and-exception
    monad over a small model of the file system. *)

From Stdlib Require Import ZArith Ascii String List Sorted Lia.
From stdpp Require Import gmap strings list pretty.

Local Open Scope Z_scope.

(** ** Text

    A [bytes] value is the [string] of its bytes. A [str] value is held
    as the [string] of its UTF-8 encoding, so that a [str] of 7-bit text
    is the text itself and [bytes.decode()] keeps the bytes it accepts;
    where a pattern on a [str] looks at a character by its class ([\d],
    [\s]), the character is the UTF-8 sequence at that place. *)

Definition newline : ascii := "010"%char.

Fixpoint all_chars (p : ascii → bool) (s : string) : bool :=
  match s with
  | EmptyString => true
  | String c s' => p c && all_chars p s'
  end.

Fixpoint has_char (c : ascii) (s : string) : bool :=
  match s with
  | EmptyString => false
  | String d s' => Ascii.eqb c d || has_char c s'
  end.

(** [s[:n]] and [s[n:]] *)
Fixpoint stake (n : nat) (s : string) : string :=
  match n, s with
  | S n', String c s' => String c (stake n' s')
  | _, _ => EmptyString
  end.

Fixpoint sdrop (n : nat) (s : string) : string :=
  match n, s with
  | S n', String _ s' => sdrop n' s'
  | _, _ => s
  end.

(** [s[a:b]] *)
Definition slice (a b : nat) (s : string) : string :=
  stake (b - a) (sdrop a s).

(** *** UTF-8

    The sequences the decoder of CPython accepts: the well-formed ones of
    the Unicode standard, without overlong forms, surrogates or values
    above U+10FFFF. *)

Definition byte_in (lo hi : nat) (c : ascii) : bool :=
  let n := nat_of_ascii c in ((lo <=? n) && (n <=? hi))%nat.

(** what a first byte announces: how many bytes follow it, and the range
    of the byte after it *)
Definition lead (c : ascii) : option (nat * nat * nat) :=
  let n := nat_of_ascii c in
  if (n <? 128)%nat then Some (0, 0, 0)%nat
  else if ((194 <=? n) && (n <=? 223))%nat then Some (1, 128, 191)%nat
  else if (n =? 224)%nat then Some (2, 160, 191)%nat
  else if (n =? 237)%nat then Some (2, 128, 159)%nat
  else if ((225 <=? n) && (n <=? 239))%nat then Some (2, 128, 191)%nat
  else if (n =? 240)%nat then Some (3, 144, 191)%nat
  else if (n =? 244)%nat then Some (3, 128, 143)%nat
  else if ((241 <=? n) && (n <=? 243))%nat then Some (3, 128, 191)%nat
  else None.

(** [c] is a whole sequence of a first byte and [k] more: the second
    byte in its range, the bytes after it in 128..191 *)
Definition sequence (k lo hi : nat) (c : string) : bool :=
  (String.length c =? S k)%nat
  && match c with
     | String _ (String b _) => byte_in lo hi b
     | _ => true
     end
  && all_chars (byte_in 128 191) (sdrop 2 c).

(** the first character of a text: its UTF-8 sequence and the text after
    it; [None] at the end of the text and where the bytes are not UTF-8 *)
Definition uhead (s : string) : option (string * string) :=
  match s with
  | EmptyString => None
  | String a _ =>
      match lead a with
      | None => None
      | Some (k, lo, hi) =>
          if sequence k lo hi (stake (S k) s)
          then Some (stake (S k) s, sdrop (S k) s)
          else None
      end
  end.

(** the characters of a text, each as its UTF-8 sequence; [None] when
    the bytes are not UTF-8 *)
Fixpoint uchars_from (fuel : nat) (s : string) : option (list string) :=
  match s, fuel with
  | EmptyString, _ => Some []
  | _, O => None
  | _, S fuel' =>
      match uhead s with
      | Some (c, rest) =>
          match uchars_from fuel' rest with
          | Some cs => Some (c :: cs)
          | None => None
          end
      | None => None
      end
  end.

Definition uchars (s : string) : option (list string) :=
  uchars_from (String.length s) s.

(** the code point of a character given as its UTF-8 sequence *)
Definition codepoint (c : string) : N :=
  match c with
  | String a EmptyString => N_of_ascii a
  | String a (String b EmptyString) =>
      (N_of_ascii a - 192) * 64 + (N_of_ascii b - 128)
  | String a (String b (String d EmptyString)) =>
      (N_of_ascii a - 224) * 4096 + (N_of_ascii b - 128) * 64 + (N_of_ascii d - 128)
  | String a (String b (String d (String e EmptyString))) =>
      (N_of_ascii a - 240) * 262144 + (N_of_ascii b - 128) * 4096
      + (N_of_ascii d - 128) * 64 + (N_of_ascii e - 128)
  | _ => 0
  end%N.

(** [sep.join(l)] *)
Fixpoint join (sep : string) (l : list string) : string :=
  match l with
  | [] => ""
  | [x] => x
  | x :: l' => x +:+ sep +:+ join sep l'
  end.

(** [str.lower], [str.upper] on ASCII letters *)
Definition lower_char (c : ascii) : ascii :=
  let n := nat_of_ascii c in
  if ((65 <=? n) && (n <=? 90))%nat then ascii_of_nat (n + 32) else c.

Definition upper_char (c : ascii) : ascii :=
  let n := nat_of_ascii c in
  if ((97 <=? n) && (n <=? 122))%nat then ascii_of_nat (n - 32) else c.

Fixpoint smap (f : ascii → ascii) (s : string) : string :=
  match s with
  | EmptyString => EmptyString
  | String c s' => String (f c) (smap f s')
  end.

Definition lower : string → string := smap lower_char.
Definition upper : string → string := smap upper_char.

(** [str(k)] for an [int] *)
Definition str (k : Z) : string := pretty k.

Definition is_digit (c : ascii) : bool :=
  let n := nat_of_ascii c in ((48 <=? n) && (n <=? 57))%nat.

Definition digit_val (c : ascii) : Z := Z.of_nat (nat_of_ascii c) - 48.

(** the number a string of ASCII decimal digits writes *)
Fixpoint int_acc (acc : Z) (s : string) : Z :=
  match s with
  | EmptyString => acc
  | String c s' => int_acc (10 * acc + digit_val c) s'
  end.

Definition digits_value (s : string) : Z := int_acc 0 s.

(** ** Regular expressions

    The fragment of Python's [re] syntax the program uses: character
    classes, greedy repetition of a class, concatenation, ordered
    alternation, capture groups and the anchors [^] and [$]. A class of
    [Chr] and [Star] looks at one byte: it serves the patterns on
    [bytes], and those patterns on [str] whose classes do not tell one
    character outside ASCII from another. A class of [UChr] and [UStar]
    looks at one character of a [str], given as its UTF-8 sequence. *)

Inductive regex : Type :=
| Eps
| Chr (p : ascii → bool)
| Star (p : ascii → bool)
| UChr (p : string → bool)
| UStar (p : string → bool)
| Cat (r1 r2 : regex)
| Alt (r1 r2 : regex)
| Grp (n : nat) (r : regex)
| Bol
| Eol.

(** the groups matched so far, the most recent binding first *)
Definition caps := list (nat * string).

Fixpoint group (n : nat) (g : caps) : option string :=
  match g with
  | [] => None
  | (m, s) :: g' => if (m =? n)%nat then Some s else group n g'
  end.

(** Greedy [p*] from offset [i]: take as many characters as the class
    allows, and give them back one at a time while the rest of the
    pattern (the continuation [k]) fails. *)
Fixpoint star {R} (p : ascii → bool) (i : nat) (s : string)
    (k : nat → string → option R) : option R :=
  match s with
  | String c s' =>
      if p c then
        match star p (S i) s' k with
        | Some x => Some x
        | None => k i s
        end
      else k i s
  | EmptyString => k i s
  end.

(** Greedy [p*] on the characters of a [str]; [fuel] bounds the number
    of characters taken. *)
Fixpoint ustar {R} (p : string → bool) (fuel : nat) (i : nat) (s : string)
    (k : nat → string → option R) : option R :=
  match fuel with
  | O => k i s
  | S fuel' =>
      match uhead s with
      | Some (c, rest) =>
          if p c then
            match ustar p fuel' (i + String.length c) rest k with
            | Some x => Some x
            | None => k i s
            end
          else k i s
      | None => k i s
      end
  end.

(** [$] without [re.MULTILINE]: at the end of the string, or just before
    a newline that ends the string. *)
Definition at_eol (s : string) : bool :=
  match s with
  | EmptyString => true
  | String c EmptyString => Ascii.eqb c newline
  | _ => false
  end.

(** The backtracking matcher: [s] is the text that remains at offset [i]. *)
Fixpoint rmatch {R} (r : regex) (i : nat) (s : string) (g : caps)
    (k : nat → string → caps → option R) : option R :=
  match r with
  | Eps => k i s g
  | Chr p =>
      match s with
      | String c s' => if p c then k (S i) s' g else None
      | EmptyString => None
      end
  | Star p => star p i s (λ j t, k j t g)
  | UChr p =>
      match uhead s with
      | Some (c, rest) => if p c then k (i + String.length c)%nat rest g else None
      | None => None
      end
  | UStar p => ustar p (String.length s) i s (λ j t, k j t g)
  | Cat r1 r2 => rmatch r1 i s g (λ j t g', rmatch r2 j t g' k)
  | Alt r1 r2 =>
      match rmatch r1 i s g k with
      | Some x => Some x
      | None => rmatch r2 i s g k
      end
  | Grp n r1 => rmatch r1 i s g (λ j t g', k j t ((n, stake (j - i) s) :: g'))
  | Bol => if (i =? 0)%nat then k i s g else None
  | Eol => if at_eol s then k i s g else None
  end.

(** [re.match(r, s)]: the end of the match and its groups *)
Definition re_match (r : regex) (s : string) : option (nat * caps) :=
  rmatch r 0 s [] (λ j _ g, Some (j, g)).

(** The leftmost match at or after offset [i], [s] being the text from
    [i] on; [adv] (Python 3.7's [must_advance]) refuses an empty match at
    the first offset tried. *)
Fixpoint search (r : regex) (adv : bool) (i : nat) (s : string)
    : option (nat * nat * caps) :=
  match rmatch r i s []
          (λ j _ g, if adv && (j =? i)%nat then None else Some (j, g)) with
  | Some (j, g) => Some (i, j, g)
  | None =>
      match s with
      | String _ s' => search r false (S i) s'
      | EmptyString => None
      end
  end.

(** A replacement template: literal text and group references. A group
    that took no part in the match expands to the empty string
    (Python 3.5 and later). *)
Inductive titem := TLit (s : string) | TGrp (n : nat).

Fixpoint expand (t : list titem) (g : caps) : string :=
  match t with
  | [] => ""
  | TLit s :: t' => s +:+ expand t' g
  | TGrp n :: t' => default "" (group n g) +:+ expand t' g
  end.

(** [re.sub] changed in Python 3.7. Up to 3.6 an empty match next to the
    previous match is not replaced, and the search resumes one character
    further after an empty match; from 3.7 on it is replaced, and the
    search resumes at the end of the match, an empty match there being
    refused once. The program is of 2017 and uses [collections.Iterable]
    (gone in 3.10): [Py36] is the interpreter it was written for, [Py37]
    stands for 3.7 to 3.9. *)
Inductive python := Py36 | Py37.

(** The loop of [re.sub]: [start] is where the next search begins,
    [copied] how much of [whole] is already in the result, [n] the
    number of replacements made. *)
Fixpoint subx (py : python) (r : regex) (t : list titem) (fuel : nat)
    (whole : string) (start copied n : nat) (adv : bool) : string :=
  match fuel with
  | O => sdrop copied whole
  | S fuel' =>
      if (String.length whole <? start)%nat then sdrop copied whole else
      match search r adv start (sdrop start whole) with
      | None => sdrop copied whole
      | Some (b, e, g) =>
          let skip :=
            match py with
            | Py36 => (copied =? b)%nat && (copied =? e)%nat && (0 <? n)%nat
            | Py37 => false
            end in
          let start' :=
            match py with
            | Py36 => if (e =? b)%nat then S e else e
            | Py37 => e
            end in
          let adv' :=
            match py with
            | Py36 => false
            | Py37 => (e =? b)%nat
            end in
          if skip then subx py r t fuel' whole start' copied n adv'
          else slice copied b whole +:+ expand t g
               +:+ subx py r t fuel' whole start' e (S n) adv'
      end
  end.

Definition re_sub (py : python) (r : regex) (t : list titem) (s : string) : string :=
  subx py r t (2 * String.length s + 3) s 0 0 0 false.

(** Character classes *)
Definition only (c : ascii) : ascii → bool := Ascii.eqb c.
Definition but (c : ascii) : ascii → bool := λ d, negb (Ascii.eqb c d).
(** the pattern [.]: anything but a newline *)
Definition dot : ascii → bool := but newline.
(** the class [\s] of a bytes pattern: [ \t\n\r\f\v] *)
Definition is_space (c : ascii) : bool :=
  let n := nat_of_ascii c in ((9 <=? n) && (n <=? 13) || (n =? 32))%nat.
(** the class [\s] of a str pattern, by code point: in ASCII the six of
    [is_space] and the separators U+001C to U+001F, and the white space
    of Unicode outside it (the same set from Python 3.4 on) *)
Definition unicode_space (n : N) : bool :=
  ((9 <=? n) && (n <=? 13) || (28 <=? n) && (n <=? 32)
   || (n =? 133) || (n =? 160) || (n =? 5760)
   || (8192 <=? n) && (n <=? 8202)
   || (n =? 8232) || (n =? 8233) || (n =? 8239) || (n =? 8287)
   || (n =? 12288))%N.
Definition uspace (c : string) : bool := unicode_space (codepoint c).
(** a literal character under [re.IGNORECASE] *)
Definition ichr (c : ascii) : ascii → bool :=
  λ d, Ascii.eqb (lower_char c) (lower_char d).

(** a literal string, its characters compared by [f] *)
Fixpoint Lit (f : ascii → ascii → bool) (s : string) : regex :=
  match s with
  | EmptyString => Eps
  | String c s' => Cat (Chr (f c)) (Lit f s')
  end.

(** ** The patterns of the program *)

(** [SinglePageBook.generate]: group 1 is a run of [.], group 2 a dot
    followed by a run of non-dots. *)
Definition re_stem_ext : regex :=
  Cat (Grp 1 (Star dot)) (Grp 2 (Cat (Chr (only ".")) (Star (but ".")))).

(** [main]: either group 1, a run of [.], then a dot and a run of
    non-dots; or group 2, a run of non-dots; then [$]. *)
Definition re_book : regex :=
  Cat (Alt (Cat (Grp 1 (Star dot)) (Cat (Chr (only ".")) (Star (but "."))))
           (Grp 2 (Star (but "."))))
      Eol.

(** [pdfinfo]: [^], group 1 (key) a run of non-colons, a colon, a run
    of [\s], group 2 (value) a run of [.], [$]. *)
Definition re_key_value : regex :=
  Cat Bol (Cat (Grp 1 (Star (but ":"))) (Cat (Chr (only ":"))
    (Cat (Star is_space) (Cat (Grp 2 (Star dot)) Eol)))).

(** [pdfinfo]: [(yes|no)], not anchored at its end *)
Definition re_yes_no : regex := Grp 1 (Alt (Lit only "yes") (Lit only "no")).

(** [get_file]: a run of [.], a dot, pdf, [$]; case ignored *)
Definition re_pdf : regex :=
  Cat (Star dot) (Cat (Chr (only ".")) (Cat (Lit ichr "pdf") Eol)).

(** [get_file]: a run of [.], a dot, group 1 [(cpp|cxx)], [$]; case ignored *)
Definition re_cpp : regex :=
  Cat (Star dot) (Cat (Chr (only "."))
    (Cat (Grp 1 (Alt (Lit ichr "cpp") (Lit ichr "cxx"))) Eol)).

(** ** Python values and exceptions *)

Record datetime := DateTime { year : Z; month : Z; day : Z; hour : Z; minute : Z; second : Z }.

Inductive pyval :=
| VStr (s : string)
| VInt (n : Z)
| VBool (b : bool)
| VDate (d : datetime).

Inductive exn :=
| RuntimeError (args : list string) (returncode : Z) (stdout stderr : string)
| ValueError (args : list string)
| AssertionError
| TypeError
| KeyError (key : string)
| UnicodeDecodeError
| NotImplementedError
| FileNotFoundError (path : string)
| FileExistsError
| EOFError.

Inductive res (A : Type) :=
| Ok (a : A)
| Raise (e : exn).
Arguments Ok {A} a.
Arguments Raise {A} e.

#[global] Instance res_ret : MRet res := λ A a, Ok a.
#[global] Instance res_bind : MBind res := λ A B f m,
  match m with
  | Ok a => f a
  | Raise e => Raise e
  end.

(** [assert b] *)
Definition assert (b : bool) : res unit :=
  if b then Ok tt else Raise AssertionError.

(** ** Pure helpers of the program *)

(** [class Paper] *)
Record Paper := { size : string }.
Definition Paper_init (size : string) : Paper := {| size := lower size |}.
Definition Paper_upper (self : Paper) : string := upper (size self).
Definition Paper_lower (self : Paper) : string := size self.
Definition Paper_latex (self : Paper) : string := size self +:+ "paper".

Definition gen_raw_selection (selection : option (list Z)) : option string :=
  match selection with
  | None => None
  | Some l => Some (join "," (map str l))
  end.

(** [a or b] on optional strings: [None] and the empty string are false *)
Definition or_else (a b : option string) : option string :=
  match a with
  | Some (String c s) => Some (String c s)
  | _ => b
  end.

(** [range(start, stop, step)] as a list; CPython computes the length
    first and the items as [start + i * step]. The program calls it with
    the steps 1, 2 and -2 (a zero step, a [ValueError] in Python, is the
    empty list here). *)
Definition py_range (start stop step : Z) : list Z :=
  let len :=
    if 0 <? step then (stop - start + step - 1) / step
    else if step <? 0 then (start - stop - step - 1) / (- step)
    else 0 in
  map (λ i, start + Z.of_nat i * step) (seq 0 (Z.to_nat len)).

(** [template % k] for a template with one [%d]; the name of the
    temporary directory is taken free of [%]. *)
Fixpoint percent_d (t : string) (k : Z) : string :=
  match t with
  | EmptyString => EmptyString
  | String c t' =>
      match t' with
      | String d t'' =>
          if Ascii.eqb c "%" && Ascii.eqb d "d" then str k +:+ t''
          else String c (percent_d t' k)
      | EmptyString => String c EmptyString
      end
  end.

(** [bytes.splitlines()]: lines end at [\n], [\r] or [\r\n]; no empty
    last line. *)
Fixpoint splitlines (s : string) : list string :=
  match s with
  | EmptyString => []
  | String c s' =>
      if Ascii.eqb c newline then "" :: splitlines s'
      else if Ascii.eqb c "013" then
        match s' with
        | String d s'' =>
            if Ascii.eqb d newline then "" :: splitlines s''
            else "" :: splitlines s'
        | EmptyString => [""]
        end
      else
        match splitlines s' with
        | [] => [String c ""]
        | l :: ls => String c l :: ls
        end
  end.

Definition is_ascii (c : ascii) : bool := (nat_of_ascii c <? 128)%nat.

(** [bytes.decode()]: the text of bytes that are UTF-8, held as these
    bytes; [UnicodeDecodeError] for bytes that are not. *)
Definition decode (b : string) : res string :=
  match uchars b with
  | Some _ => Ok b
  | None => Raise UnicodeDecodeError
  end.

Definition in_list (k : string) (l : list string) : bool := bool_decide (k ∈ l).

Definition matches (r : regex) (s : string) : bool :=
  match re_match r s with Some _ => true | None => false end.

(** ** Definitions for the statements

    What the theorems below speak of, next to the program itself. *)

(** the path without its last dot and what follows it *)
Fixpoint strip_ext (s : string) : string :=
  match s with
  | EmptyString => EmptyString
  | String c s' =>
      if has_char "." s' then String c (strip_ext s')
      else if Ascii.eqb c "." then EmptyString
      else String c (strip_ext s')
  end.

(** the bytes are UTF-8 *)
Definition is_utf8 (b : string) : bool :=
  match uchars b with Some _ => true | None => false end.


(** [c] is one character: a single UTF-8 sequence *)
Definition one_char (c : string) : bool :=
  bool_decide (uhead c = Some (c, "")).

(** the text that a list of characters makes *)
Definition flat (cs : list string) : string := fold_right String.append "" cs.

(** the characters of 7-bit text, each as a string *)
Fixpoint singles (s : string) : list string :=
  match s with
  | EmptyString => []
  | String c s' => String c "" :: singles s'
  end.

(** the first alternative, unfolded *)
Definition book_alt1 : regex :=
  Cat (Grp 1 (Star dot)) (Cat (Chr (only ".")) (Star (but "."))).

Definition book_template : list titem := [TGrp 1; TGrp 2; TLit "-book.pdf"].

Definition starts_with_space (s : string) : bool :=
  match s with
  | String c _ => is_space c
  | EmptyString => false
  end.

Definition flag_keys : list string :=
  ["Tagged"; "UserProperties"; "Suspects"; "JavaScript"; "Encrypted"; "Optimized"].

Section Booker.

(** [datetime.datetime.strptime(value, "%c %Z")], which depends on the
    locale of the process; [None] is its [ValueError]. *)
Variable strptime : string → option datetime.

(** [unicodedata.decimal] outside ASCII: the value of a character of
    the category Nd, [None] for every other character. It is of the
    Unicode database of the interpreter, which grows from version to
    version. *)
Variable decimal : N → option Z.

(** the interpreter, for [re.sub] *)
Variable py : python.

(** *** [pdfinfo]: the parser *)

(** the value of a character as a decimal digit, if it is one *)
Definition digit_of (c : string) : option Z :=
  let n := codepoint c in
  if (n <? 128)%N
  then if ((48 <=? n) && (n <=? 57))%N then Some (Z.of_N n - 48) else None
  else decimal n.

(** the class [\d] of a str pattern: the decimal digits of Unicode *)
Definition udigit (c : string) : bool :=
  match digit_of c with Some _ => true | None => false end.

(** [int(s)] for a [str] of decimal digits, alone or before the line
    feed that [$] lets follow them: CPython reads each digit by its
    decimal value and drops white space at the ends. *)
Definition int (s : string) : Z :=
  fold_left (λ acc c, match digit_of c with
                      | Some d => 10 * acc + d
                      | None => acc
                      end)
    (default [] (uchars s)) 0.

(** [^\d+$] *)
Definition re_digits : regex :=
  Cat Bol (Cat (UChr udigit) (Cat (UStar udigit) Eol)).

(** [^], group 1 [\d+], [\s], the word bytes, [$] *)
Definition re_size : regex :=
  Cat Bol (Cat (Grp 1 (Cat (UChr udigit) (UStar udigit)))
    (Cat (UChr uspace) (Cat (Lit only "bytes") Eol))).

(** the four [if key in ...] blocks of the loop of [pdfinfo], one after
    the other: the value as the dictionary will hold it *)
Definition convert (key value : string) : res pyval :=
  let value := VStr value in
  value ← (if in_list key ["Pages"; "Page rot"] then
             match value with
             | VStr s => assert (matches re_digits s);; Ok (VInt (int s))
             | _ => Raise TypeError
             end
           else Ok value);
  value ← (if in_list key ["File size"] then
             match value with
             | VStr s =>
                 match re_match re_size s with
                 | Some (_, g2) => Ok (VInt (int (default "" (group 1 g2))))
                 | None => Raise AssertionError
                 end
             | _ => Raise TypeError
             end
           else Ok value);
  value ← (if in_list key ["Tagged"; "UserProperties"; "Suspects";
                           "JavaScript"; "Encrypted"; "Optimized"] then
             match value with
             | VStr s => assert (matches re_yes_no s);;
                         Ok (VBool (bool_decide (s = "yes")))
             | _ => Raise TypeError
             end
           else Ok value);
  value ← (if in_list key ["CreationDate"; "ModDate"] then
             match value with
             | VStr s =>
                 match strptime s with
                 | Some d => Ok (VDate d)
                 | None => Raise (ValueError ["time data does not match format"])
                 end
             | _ => Raise TypeError
             end
           else Ok value);
  Ok value.

(** the body of the loop of [pdfinfo] for one line: the entry to store,
    or [None] for a line that is not recognized (logged and skipped) *)
Definition parse_line (line : string) : res (option (string * pyval)) :=
  match re_match re_key_value line with
  | None => Ok None
  | Some (_, g) =>
      key ← decode (default "" (group 1 g));
      value ← decode (default "" (group 2 g));
      value ← convert key value;
      Ok (Some (key, value))
  end.

Fixpoint parse_lines (lines : list string) (result : gmap string pyval)
    : res (gmap string pyval) :=
  match lines with
  | [] => Ok result
  | line :: lines' =>
      e ← parse_line line;
      match e with
      | Some (key, value) => parse_lines lines' (<[key := value]> result)
      | None => parse_lines lines' result
      end
  end.

(** [pdfinfo] after the command has run: from its standard output to
    the dictionary *)
Definition pdfinfo_parse (stdout : string) : res (gmap string pyval) :=
  result ← parse_lines (splitlines stdout) ∅;
  assert (bool_decide (is_Some (result !! "Pages")));;
  Ok result.

(** [info["Pages"]], used as an [int] *)
Definition getitem_int (d : gmap string pyval) (key : string) : res Z :=
  match d !! key with
  | Some (VInt n) => Ok n
  | Some _ => Raise TypeError
  | None => Raise (KeyError key)
  end.

(** ** The world: files, temporary names, external processes

    The program's environment is a set of existing paths, the answers
    the external processes will give, and a record of what the program
    did. Nothing is assumed of the answers: every theorem below holds
    for all of them. *)

(** What a process answered: its exit status and output, and how much
    of its result it wrote before it stopped ([produced]: for
    [pdfseparate] the number of page files, for the tools with one
    output file whether that file was written, not used for [pdfinfo]
    and [lpr], which write no file). *)
Record reply := Reply {
  returncode : Z;
  stdout : string;
  stderr : string;
  produced : nat;
}.

Inductive event :=
| EvMkTemp (path : string)
| EvExec (args : list string) (r : reply)
| EvRemove (path : string)
| EvPrint (line : string)
| EvInput (prompt : string) (answer : option string).

Record world := World {
  fs : gset string;        (* the paths that exist *)
  tmpdir : string;         (* tempfile.gettempdir() *)
  names : list string;     (* the random names mkstemp will try, in order *)
  replies : list reply;    (* the answers of the processes, in order *)
  stdin : list string;     (* the lines input() will read *)
  trace : list event;      (* what was done, the most recent first *)
}.

Definition M (A : Type) : Type := world → res A * world.

#[global] Instance M_ret : MRet M := λ A a w, (Ok a, w).
#[global] Instance M_bind : MBind M := λ A B f m w,
  match m w with
  | (Ok a, w') => f a w'
  | (Raise e, w') => (Raise e, w')
  end.

Definition raise {A} (e : exn) : M A := λ w, (Raise e, w).

Definition lift {A} (r : res A) : M A := λ w, (r, w).

(** [try: body finally: fin]; an exception of [fin] replaces the outcome
    of [body]. *)
Definition try_finally {A} (body : M A) (fin : M unit) : M A := λ w,
  let '(r, w1) := body w in
  match fin w1 with
  | (Ok _, w2) => (r, w2)
  | (Raise e, w2) => (Raise e, w2)
  end.

Fixpoint for_each {A} (l : list A) (body : A → M unit) : M unit :=
  match l with
  | [] => mret tt
  | x :: l' => body x;; for_each l' body
  end.

Definition record (e : event) (w : world) : world :=
  {| fs := fs w; tmpdir := tmpdir w; names := names w; replies := replies w;
     stdin := stdin w; trace := e :: trace w |}.

Definition set_fs (f : gset string) (w : world) : world :=
  {| fs := f; tmpdir := tmpdir w; names := names w; replies := replies w;
     stdin := stdin w; trace := trace w |}.

Definition set_names (l : list string) (w : world) : world :=
  {| fs := fs w; tmpdir := tmpdir w; names := l; replies := replies w;
     stdin := stdin w; trace := trace w |}.

Definition set_replies (l : list reply) (w : world) : world :=
  {| fs := fs w; tmpdir := tmpdir w; names := names w; replies := l;
     stdin := stdin w; trace := trace w |}.

Definition set_stdin (l : list string) (w : world) : world :=
  {| fs := fs w; tmpdir := tmpdir w; names := names w; replies := replies w;
     stdin := l; trace := trace w |}.

(** [tempfile.mkstemp]: the first candidate name that does not exist
    yet is created; [FileExistsError] when every candidate exists. *)
Fixpoint mkstemp (dir prefix suffix : string) (existing : gset string)
    (candidates : list string) : option (string * list string) :=
  match candidates with
  | [] => None
  | c :: cs =>
      let path := dir +:+ "/" +:+ prefix +:+ c +:+ suffix in
      if bool_decide (path ∈ existing) then mkstemp dir prefix suffix existing cs
      else Some (path, cs)
  end.

Definition mktemp (prefix suffix : string) : M string := λ w,
  match mkstemp (tmpdir w) prefix suffix (fs w) (names w) with
  | Some (path, cs) =>
      (Ok path, record (EvMkTemp path) (set_fs ({[path]} ∪ fs w) (set_names cs w)))
  | None => (Raise FileExistsError, set_names [] w)
  end.

(** [os.remove] *)
Definition os_remove (path : string) : M unit := λ w,
  if bool_decide (path ∈ fs w)
  then (Ok tt, record (EvRemove path) (set_fs (fs w ∖ {[path]}) w))
  else (Raise (FileNotFoundError path), w).

(** [os.path.exists] *)
Definition os_path_exists (path : string) : M bool := λ w,
  (Ok (bool_decide (path ∈ fs w)), w).

(** [print] *)
Definition print (line : string) : M unit := λ w, (Ok tt, record (EvPrint line) w).

(** [input]: the prompt is written on the standard output, then a line
    is read; at the end of the input, [EOFError]. The event holds the
    prompt written and the line read, if there was one. *)
Definition input (prompt : string) : M string := λ w,
  match stdin w with
  | [] => (Raise EOFError, record (EvInput prompt None) w)
  | l :: ls => (Ok l, record (EvInput prompt (Some l)) (set_stdin ls w))
  end.

(** The files a process writes, by its command line: [pdfinfo] and
    [lpr] write none; [pdfseparate] writes the first [n] pages under its
    naming template, its last argument; every other tool of the program
    ([enscript], [ps2pdf], [pdfbook], [pdfjam], [pdfunite]) writes the
    output file its command line ends with, or nothing. *)
Definition tool_writes (args : list string) (n : nat) : list string :=
  match args with
  | [] => []
  | tool :: _ =>
      if in_list tool ["pdfinfo"; "lpr"] then []
      else if bool_decide (tool = "pdfseparate") then
        match last args with
        | Some template => map (λ k, percent_d template (Z.of_nat k)) (seq 1 n)
        | None => []
        end
      else
        match n, last args with
        | S _, Some out => [out]
        | _, _ => []
        end
  end.

(** [execute]: the process is started (when none can be, [Popen] raises),
    runs to its end, and a non-zero status raises unless it is ignored. *)
Definition execute (args : list string) (ignore_error_code : bool) : M reply := λ w,
  match replies w with
  | [] => (Raise (FileNotFoundError (default "" (head args))), w)
  | r :: rs =>
      let w' := record (EvExec args r)
                  (set_fs (list_to_set (tool_writes args (produced r)) ∪ fs w)
                     (set_replies rs w)) in
      if negb ignore_error_code && negb (returncode r =? 0)
      then (Raise (RuntimeError args (returncode r) (stdout r) (stderr r)), w')
      else (Ok r, w')
  end.

(** *** The wrappers of the external tools *)

Definition opt_args {A} (o : option A) (f : A → list string) : list string :=
  match o with
  | Some a => f a
  | None => []
  end.

Definition enscript (in_path out_path : string) (language : option string)
    (paper : option Paper) (font : option string) (margins : option (list Z)) : M unit :=
  ps_path ← mktemp "booker-" ".ps";
  try_finally
    (let args := ["enscript"]
       ++ opt_args language (λ l, ["-E"; l])
       ++ opt_args paper (λ p, ["-M"; Paper_upper p])
       ++ opt_args font (λ f, ["-f"; f])
       ++ opt_args margins (λ m, ["--margins"; join ":" (map str m)])
       ++ [in_path]
       ++ ["-o"; ps_path] in
     execute args false;;
     let args := ["ps2pdf"] ++ [ps_path] ++ [out_path] in
     execute args false;;
     mret tt)
    (os_remove ps_path).

Definition pdfbook (in_path out_path : string) (short_edge frame : bool)
    (paper : Paper) : M unit :=
  let args := ["pdfbook"]
    ++ (if short_edge then ["--short-edge"] else [])
    ++ (if frame then ["--frame"; "true"] else [])
    ++ ["--paper"; Paper_latex paper]
    ++ [in_path]
    ++ ["-o"; out_path] in
  execute args false;; mret tt.

Definition pdfjam (in_path out_path : string) (selection : option (list Z))
    (raw_selection : option string) (landscape : bool)
    (margins : option (list Z)) (paper : Paper) : M unit :=
  let raw_selection := or_else raw_selection (gen_raw_selection selection) in
  let args := ["pdfjam"]
    ++ [in_path]
    ++ opt_args raw_selection (λ s, [s])
    ++ (if landscape then ["--landscape"] else [])
    ++ opt_args margins (λ m, ["--trim"; join " " (map (λ k, str (- k) +:+ "mm") m)])
    ++ ["--paper"; Paper_latex paper]
    ++ ["-o"; out_path] in
  execute args false;; mret tt.

Definition pdfseparate (in_path out_path_template : string) : M unit :=
  let args := ["pdfseparate"] ++ [in_path] ++ [out_path_template] in
  execute args false;; mret tt.

Definition pdfunite (in_paths : list string) (out_path : string) : M unit :=
  let args := ["pdfunite"] ++ in_paths ++ [out_path] in
  execute args false;; mret tt.

Definition pdfinfo (path : string) : M (gmap string pyval) :=
  command ← execute ["pdfinfo"; path] false;
  lift (pdfinfo_parse (stdout command)).

Definition pdfselect (in_path out_path : string) (selection : list Z) : M unit :=
  info ← pdfinfo in_path;
  page_path_base ← mktemp "booker-" "-page";
  let page_path_template := page_path_base +:+ "-%d.pdf" in
  try_finally
    (pdfseparate in_path page_path_template;;
     let selected_pages := map (percent_d page_path_template) selection in
     pdfunite selected_pages out_path)
    (os_remove page_path_base;;
     pages ← lift (getitem_int info "Pages");
     for_each (py_range 0 pages 1) (λ i,
       let path := percent_d page_path_template (i + 1) in
       e ← os_path_exists path;
       if e : bool then os_remove path else mret tt)).

Definition lpr (path printer : string) (double_paged : bool) : M unit :=
  let args := ["lpr"]
    ++ ["-P"; printer]
    ++ ["-o"; "sides=" +:+ (if double_paged then "two-sided-long-edge" else "one-sided")]
    ++ ["-o"; "media=a4"]
    ++ [path] in
  execute args false;; mret tt.

(** *** Files *)

Inductive file_class := BaseFile | PDFFile | CPPFile.

Record File := {
  File_class : file_class;
  File_path : string;
  File_selection : option (list Z);
  File_raw_selection : option string;
  File_margins : option (list Z);
}.

(** the [margins] argument: a number, or a sequence *)
Inductive margins_arg :=
| MNum (m : Z)
| MSeq (l : list Z).

(** [File.__init__] *)
Definition File_init (cls : file_class) (path : string)
    (selection : option (list Z)) (raw_selection : option string)
    (margins : option margins_arg) : res File :=
  let raw_selection := or_else raw_selection (gen_raw_selection selection) in
  margins ← match margins with
            | None => Ok None
            | Some m =>
                let t := match m with
                         | MNum k => [k; k; k; k]
                         | MSeq l => l
                         end in
                if bool_decide (length t ≠ 4%nat)
                then Raise (ValueError ["Wrong length of margins vector: "
                                        +:+ str (Z.of_nat (length t))])
                else Ok (Some t)
            end;
  Ok {| File_class := cls; File_path := path; File_selection := selection;
        File_raw_selection := raw_selection; File_margins := margins |}.

Definition PDFFile_init := File_init PDFFile.

Definition CPPFile_init (path : string) (selection : option (list Z))
    (raw_selection : option string) (margins : option margins_arg) : res File :=
  self ← File_init CPPFile path selection raw_selection margins;
  if bool_decide (File_raw_selection self ≠ None)
  then Raise (ValueError ["Selection is not supported"])
  else Ok self.

(** [generate] of the three classes *)
Definition File_generate (self : File) (path : string) : M (list string) :=
  match File_class self with
  | BaseFile => raise NotImplementedError
  | PDFFile =>
      pdfjam (File_path self) path None (File_raw_selection self) false
             (File_margins self) (Paper_init "a5");;
      mret [path]
  | CPPFile =>
      enscript (File_path self) path (Some "cpp") (Some (Paper_init "a5"))
               (Some "Courier8") (File_margins self);;
      mret [path]
  end.

Definition get_file (path : string) (selection : option (list Z))
    (raw_selection : option string) (margins : option margins_arg) : res File :=
  result ← (if matches re_pdf path
            then f ← PDFFile_init path selection raw_selection margins; Ok (Some f)
            else Ok None);
  result ← (if matches re_cpp path
            then f ← CPPFile_init path selection raw_selection margins; Ok (Some f)
            else Ok result);
  match result with
  | None => Raise (ValueError ["Unknown extension"; path])
  | Some f => Ok f
  end.

(** *** Books *)

Definition paths_eqb (a b : list string) : bool := bool_decide (a = b).

(** [Book.generate] *)
Definition Book_generate (content : File) (path : string) : M (list string) :=
  content_path ← mktemp "booker-" ".pdf";
  try_finally
    (res ← File_generate content content_path;
     lift (assert (paths_eqb res [content_path]));;
     pdfbook content_path path true true (Paper_init "a4"))
    (os_remove content_path);;
  mret [path].

(** [SinglePageBook.generate]; [self.book] is [Book(self.content)] *)
Definition SinglePageBook_generate (content : File) (path : string)
    (odd_path even_path : option string) : M (list string) :=
  let odd_path := re_sub py re_stem_ext [TGrp 1; TLit "-odd"; TGrp 2] path in
  let even_path := re_sub py re_stem_ext [TGrp 1; TLit "-even"; TGrp 2] path in
  book_path ← mktemp "booker-" ".pdf";
  try_finally
    (res ← Book_generate content book_path;
     lift (assert (paths_eqb res [book_path]));;
     info ← pdfinfo book_path;
     pages_count ← lift (getitem_int info "Pages");
     lift (assert (pages_count `mod` 2 =? 0));;
     pdfselect book_path odd_path (py_range 1 pages_count 2);;
     pdfselect book_path even_path (py_range pages_count 1 (-2)))
    (os_remove book_path);;
  mret [odd_path; even_path].

Inductive book_class := Book | SinglePageBook.

Definition generate (cls : book_class) (content : File) (path : string) : M (list string) :=
  match cls with
  | Book => Book_generate content path
  | SinglePageBook => SinglePageBook_generate content path None None
  end.

(** *** The command line *)

(** the result of [parser.parse_args] *)
Record options := {
  o_files : list string;
  o_print : option string;
  o_double_paged : bool;
  o_verbose : bool;
  o_select : option string;
  o_margins : option Z;
}.

(** the name [main] writes to when it does not print *)
Definition book_name (path : string) : string :=
  re_sub py re_book [TGrp 1; TGrp 2; TLit "-book.pdf"] path.

(** the [finally] of the printing branch *)
Definition print_cleanup (path : string) (res : list string) : M unit :=
  (if bool_decide (path ∉ res) then os_remove path else mret tt);;
  for_each res os_remove.

(** the printing branch of [main] for one input file: [try] and
    [finally] share the variables [path] and [res], which the body sets
    as it goes *)
Definition main_print (cls : book_class) (file : File) (printer : string)
    (path : string) : M unit := λ w,
  match mktemp "booker-" ".pdf" w with
  | (Raise e, w1) =>
      (* [path] is still the input file and [res] is empty *)
      try_finally (raise e) (print_cleanup path []) w1
  | (Ok path, w1) =>
      match generate cls file path w1 with
      | (Raise e, w2) => try_finally (raise e) (print_cleanup path []) w2
      | (Ok res, w2) =>
          try_finally
            (for_each res (λ r,
               response ← input ("print " +:+ r +:+ "? [Y/n] ");
               if in_list response ["n"; "N"] then mret tt
               else lpr r printer false))
            (print_cleanup path res) w2
      end
  end.

(** the body of the loop of [main] for one input file *)
Definition main_file (opts : options) (cls : book_class) (path : string) : M unit :=
  file ← lift (get_file path None (o_select opts) (MNum <$> o_margins opts));
  match o_print opts with
  | None =>
      let path := book_name path in
      res ← generate cls file path;
      for_each res print
  | Some printer => main_print cls file printer path
  end.

Definition main (opts : options) : M unit :=
  if bool_decide (o_select opts ≠ None) && (1 <? length (o_files opts))%nat
  then raise (ValueError ["--select flag is possible for single file"])
  else
    let book_class := if o_double_paged opts then Book else SinglePageBook in
    for_each (o_files opts) (main_file opts book_class).

(** ** Invariants of a run *)

Definition is_separate (args : list string) : bool :=
  bool_decide (head args = Some "pdfseparate").

(** the temporary files a trace leaves behind: those made by [mktemp]
    or written by [pdfseparate] and not removed since *)
Fixpoint live (t : list event) : gset string :=
  match t with
  | [] => ∅
  | EvMkTemp p :: t' => {[p]} ∪ live t'
  | EvExec args r :: t' =>
      (if is_separate args then list_to_set (tool_writes args (produced r)) else ∅)
      ∪ live t'
  | EvRemove p :: t' => live t' ∖ {[p]}
  | _ :: t' => live t'
  end.

(** the page count a reply reports when read as the output of [pdfinfo] *)
Definition reported_pages (r : reply) : option Z :=
  match pdfinfo_parse (stdout r) with
  | Ok d =>
      match getitem_int d "Pages" with
      | Ok n => Some n
      | Raise _ => None
      end
  | Raise _ => None
  end.

(** the tools agree on page counts: after an answer that reports [n]
    pages, the next process writes at most [n] files *)
Fixpoint consistent (rs : list reply) : bool :=
  match rs with
  | [] => true
  | r1 :: rs' =>
      match rs' with
      | r2 :: _ =>
          match reported_pages r1 with
          | Some n => Z.of_nat (produced r2) <=? n
          | None => true
          end
      | [] => true
      end && consistent rs'
  end.

Definition good (w : world) : Prop :=
  consistent (replies w) = true ∧ live (trace w) ⊆ fs w.

(** from [w] to [w']: the temporary files still there are those of [w]
    or in [X]; the files are those of [w] or in [X] or [O] *)
Definition frame (X O : gset string) (w w' : world) : Prop :=
  good w' ∧ live (trace w') ⊆ live (trace w) ∪ X ∧ fs w' ⊆ fs w ∪ X ∪ O.

(** [m] leaves the existing files in place and adds at most [O] *)
Definition adds {A} (O : gset string) (m : M A) : Prop :=
  ∀ w, fs w ⊆ fs (m w).2 ∧ fs (m w).2 ⊆ fs w ∪ O.

(** [m] keeps a good world good, leaves no temporary file but those of
    [X], and no new file but those of [X] and [O] *)
Definition framed {A} (X O : gset string) (m : M A) : Prop :=
  ∀ w, good w → frame X O w (m w).2.

(** [m] leaves the temporary directory where it is, and the names
    [mkstemp] will try are afterwards a rest of those it would have
    tried before *)
Definition steady {A} (m : M A) : Prop :=
  ∀ w, tmpdir (m w).2 = tmpdir w ∧ names (m w).2 `suffix_of` names w.

(** ** The vocabulary of the statements *)

(** the page files of a template, up to page [n] *)
Definition page_files (template : string) (n : Z) : gset string :=
  list_to_set ((λ i, percent_d template (i + 1)) <$> py_range 0 n 1).

(** the indices 1, 3, ..., of the first [n / 2] odd pages, and the
    indices [n], [n - 2], ..., of the last [n / 2] pages counted from [n]
    in steps of two *)
Definition odd_pages (n : Z) : list Z :=
  map (λ k, 2 * Z.of_nat k + 1) (seq 0 (Z.to_nat (n / 2))).

Definition even_pages (n : Z) : list Z :=
  map (λ k, n - 2 * Z.of_nat k) (seq 0 (Z.to_nat (n / 2))).

(** the names [SinglePageBook.generate] computes for its two outputs *)
Definition odd_name (path : string) : string :=
  re_sub py re_stem_ext [TGrp 1; TLit "-odd"; TGrp 2] path.

Definition even_name (path : string) : string :=
  re_sub py re_stem_ext [TGrp 1; TLit "-even"; TGrp 2] path.

(** the command lines a trace records, in the order they were run *)
Fixpoint commands (t : list event) : list (list string) :=
  match t with
  | [] => []
  | EvExec args _ :: t' => commands t' ++ [args]
  | _ :: t' => commands t'
  end.

(** the last dot of the path and what follows it; empty without a dot *)
Fixpoint extension (s : string) : string :=
  match s with
  | EmptyString => EmptyString
  | String c s' =>
      if has_char "." s' then extension s'
      else if Ascii.eqb c "." then s
      else EmptyString
  end.

(** to insert a marker before the final extension of a path, in the
    words of the specification *)
Definition insert_before_ext (marker path : string) : string :=
  strip_ext path +:+ marker +:+ extension path.

(** the lines printed, in the order they were printed *)
Fixpoint printed (t : list event) : list string :=
  match t with
  | [] => []
  | EvPrint line :: t' => printed t' ++ [line]
  | _ :: t' => printed t'
  end.

(** [m] prints nothing *)
Definition quiet {A} (m : M A) : Prop :=
  ∀ w, printed (trace (m w).2) = printed (trace w).

(** the names [generate] returns for the path it is given *)
Definition generated_names (cls : book_class) (path : string) : list string :=
  match cls with
  | Book => [path]
  | SinglePageBook => [odd_name path; even_name path]
  end.

(** ** Example runs

    The worlds, files and options on which the theorems are tried at the
    end of the file. *)

(** an interpreter whose [strptime] accepts no date *)
Definition no_dates (s : string) : option datetime := None.

(** a Unicode database without decimal digits outside ASCII, and one
    with the Arabic-Indic digits U+0660 to U+0669 *)
Definition no_decimals (n : N) : option Z := None.

Definition report_pdf : File :=
  {| File_class := PDFFile; File_path := "report.pdf"; File_selection := None;
     File_raw_selection := None; File_margins := None |}.

(** a process that succeeds and writes its output *)
Definition done_reply : reply :=
  {| returncode := 0; stdout := ""; stderr := ""; produced := 1 |}.

(** what [pdfinfo] prints for a document of [n] pages *)
Definition info_reply (n : Z) : reply :=
  {| returncode := 0;
     stdout := "Title:          report" +:+ String newline ("Pages:          " +:+ str n
               +:+ String newline ("Encrypted:      no" +:+ String newline ""));
     stderr := ""; produced := 0 |}.

(** [pdfseparate] writing [k] page files *)
Definition separate_reply (status : Z) (k : nat) : reply :=
  {| returncode := status; stdout := ""; stderr := ""; produced := k |}.

Definition world_of (rs : list reply) : world :=
  {| fs := {["report.pdf"; "main.cpp"]}; tmpdir := "/tmp";
     names := ["a"; "b"; "c"; "d"; "e"];
     replies := rs; stdin := []; trace := [] |}.

(** the tools' answers in a run of [SinglePageBook.generate] on a
    document whose booklet has [n] pages *)
Definition booklet_replies (n : Z) : list reply :=
  [ done_reply; done_reply; info_reply n;
    info_reply n; separate_reply 0 (Z.to_nat n); done_reply;
    info_reply n; separate_reply 0 (Z.to_nat n); done_reply ].


Definition options_of (files : list string) (double_paged : bool)
    (select : option string) : options :=
  {| o_files := files; o_print := None; o_double_paged := double_paged;
     o_verbose := false; o_select := select; o_margins := None |}.

Definition print_options (files : list string) (printer : string) : options :=
  {| o_files := files; o_print := Some printer; o_double_paged := false;
     o_verbose := false; o_select := None; o_margins := None |}.

(** the second [pdfseparate] of [SinglePageBook.generate] fails *)
Definition half_replies : list reply :=
  [ done_reply; done_reply; info_reply 4;
    info_reply 4; separate_reply 0 4; done_reply;
    info_reply 4; separate_reply 1 0 ].

(** a world in which [mkstemp] finds no free name *)
Definition full_world : world :=
  {| fs := {["report.pdf"]}; tmpdir := "/tmp"; names := [];
     replies := booklet_replies 4; stdin := []; trace := [] |}.

(** what [pdfinfo] prints, with a line that has no colon *)
Definition sample_info : string :=
  "Title:          report" +:+ String newline ("Encrypted no" +:+ String newline
  ("Pages:          12" +:+ String newline "")).

Definition broken_info : string :=
  "Title:          report" +:+ String newline ("Pages: abc" +:+ String newline "").

Definition pageless_info : string :=
  "Title:          report" +:+ String newline "".

(** ** The vocabulary of further statements *)

(** [path] has the final extension [word] (given in lower case), the
    case of its letters ignored and one newline allowed after it, and no
    newline before its last dot *)
Definition has_extension (word path : string) : bool :=
  all_chars dot (strip_ext path)
  && (String.eqb (lower (extension path)) ("." +:+ word)
      || String.eqb (lower (extension path)) ("." +:+ word +:+ String newline "")).


(** the lines [ls], each ended by [eol] *)
Fixpoint unlines (eol : string) (ls : list string) : string :=
  match ls with
  | [] => ""
  | l :: ls' => l +:+ eol +:+ unlines eol ls'
  end.

(** a character of a line: neither a line feed nor a carriage return *)
Definition in_line (c : ascii) : bool :=
  negb (Ascii.eqb c newline) && negb (Ascii.eqb c "013").

Definition LF : string := String newline "".
Definition CR : string := String "013" "".
Definition CRLF : string := String "013" (String newline "").

(** the programs [main] runs to make the outputs *)
Definition seven_tools : list string :=
  ["enscript"; "ps2pdf"; "pdfjam"; "pdfbook"; "pdfinfo"; "pdfseparate"; "pdfunite"].

(** the command line of [lpr] as [main] calls it *)
Definition lpr_line (printer path : string) : list string :=
  ["lpr"; "-P"; printer; "-o"; "sides=one-sided"; "-o"; "media=a4"; path].

(** the command line starts one of [tools] *)
Definition run_of (tools : list string) (args : list string) : bool :=
  match args with
  | tool :: _ => in_list tool tools
  | [] => false
  end.

(** an event of a run without printer: no question is asked, and the
    processes are of the seven tools *)
Definition batch_event (e : event) : bool :=
  match e with
  | EvExec args _ => run_of seven_tools args
  | EvInput _ _ => false
  | _ => true
  end.


(** every event [m] adds to the record satisfies [P] *)
Definition emits {A} (P : event → bool) (m : M A) : Prop :=
  ∀ w, ∃ t, trace (m w).2 = t ++ trace w ∧ forallb P t = true.

(** the files of [res] that are sent to the printer, given the answers
    to the questions: those whose answer is neither n nor N *)
Fixpoint to_print (res answers : list string) : list string :=
  match res, answers with
  | r :: res', a :: answers' =>
      if in_list a ["n"; "N"] then to_print res' answers'
      else r :: to_print res' answers'
  | _, _ => []
  end.

(** the questions of a trace, oldest first *)
Fixpoint asked (t : list event) : list string :=
  match t with
  | [] => []
  | EvInput prompt _ :: t' => asked t' ++ [prompt]
  | _ :: t' => asked t'
  end.


(** the name of the temporary directory and the names [mkstemp] will
    try have no percent sign, so that the [%d] of the template of
    [pdfselect] is the only place the operator [%] fills *)
Definition plain_temp (w : world) : bool :=
  negb (has_char "%" (tmpdir w))
  && forallb (λ c, negb (has_char "%" c)) (names w).

(** the file of page [k] under the base [base] *)
Definition page_file (base : string) (k : Z) : string :=
  base +:+ "-" +:+ str k +:+ ".pdf".

(** ** Further example runs *)

(** the world of the examples, with answers waiting on the standard
    input *)
Definition world_with (rs : list reply) (answers : list string) : world :=
  {| fs := {["report.pdf"; "main.cpp"]}; tmpdir := "/tmp";
     names := ["a"; "b"; "c"; "d"; "e"];
     replies := rs; stdin := answers; trace := [] |}.

(** the word café in UTF-8, and in Latin-1, which is not UTF-8 *)
Definition cafe : string := "caf" +:+ String "195" (String "169" "").
Definition cafe_latin1 : string := "caf" +:+ String "233" "".

(** what [pdfinfo] prints for a document with an accent in its title *)
Definition accented_info : string :=
  "Pages:          4" +:+ String newline ("Title:          " +:+ cafe).


(** a process that fails *)
Definition failed_reply : reply :=
  {| returncode := 1; stdout := ""; stderr := "no such file"; produced := 0 |}.

(** * Proofs *)

#[local] Arguments String.append !_ _ / : simpl nomatch.
#[local] Arguments Ascii.eqb : simpl never.
#[local] Arguments only : simpl never.
#[local] Arguments but : simpl never.
#[local] Set Warnings "-clear-no-such-hyp".

Ltac eval_in_list :=
  repeat match goal with
         | |- context [in_list ?k ?l] =>
             let b := eval vm_compute in (in_list k l) in
             change (in_list k l) with b
         end.

(** ** Text *)

Lemma append_nil_r s : s +:+ "" = s.
Proof. induction s as [|c s IH]; simpl; [done | by rewrite IH]. Qed.

Lemma append_assoc s t u : (s +:+ t) +:+ u = s +:+ t +:+ u.
Proof. induction s as [|c s IH]; simpl; [done | by rewrite IH]. Qed.

Lemma length_append s t :
  String.length (s +:+ t) = (String.length s + String.length t)%nat.
Proof. induction s as [|c s IH]; simpl; [done | by rewrite IH]. Qed.

Lemma stake_append s t : stake (String.length s) (s +:+ t) = s.
Proof. induction s as [|c s IH]; simpl; [by destruct t | by rewrite IH]. Qed.

Lemma sdrop_append s t : sdrop (String.length s) (s +:+ t) = t.
Proof. induction s as [|c s IH]; simpl; [by destruct t | done]. Qed.

Lemma stake_0 s : stake 0 s = "".
Proof. by destruct s. Qed.

Lemma sdrop_0 s : sdrop 0 s = s.
Proof. by destruct s. Qed.

Lemma sdrop_all s : sdrop (String.length s) s = "".
Proof. induction s; simpl; done. Qed.

Lemma stake_all s : stake (String.length s) s = s.
Proof. induction s as [|c s IH]; simpl; [done | by rewrite IH]. Qed.

Lemma all_chars_append p s t :
  all_chars p (s +:+ t) = all_chars p s && all_chars p t.
Proof. induction s as [|c s IH]; simpl; [done |]. rewrite IH. by destruct (p c). Qed.

Lemma has_char_append c s t :
  has_char c (s +:+ t) = has_char c s || has_char c t.
Proof. induction s as [|d s IH]; simpl; [done |]. rewrite IH. by destruct (Ascii.eqb c d). Qed.

Lemma has_char_but c s : has_char c s = negb (all_chars (but c) s).
Proof.
  induction s as [|d s IH]; simpl; [done |]. rewrite IH. unfold but.
  by destruct (Ascii.eqb c d).
Qed.

(** *** The greedy star *)

Lemma star_stop {R} p i s (k : nat → string → option R) :
  (∀ u v, s = u +:+ v → u ≠ "" → all_chars p u = true →
          k (i + String.length u)%nat v = None) →
  star p i s k = k i s.
Proof.
  revert i. induction s as [|c s IH]; intros i H; simpl; [done |].
  destruct (p c) eqn:Hc; [| done].
  rewrite IH.
  - assert (k (S i) s = None) as ->; [| done].
    specialize (H (String c "") s). simpl in H. rewrite Hc in H.
    replace (i + 1)%nat with (S i) in H by lia. by apply H.
  - intros u v -> Hu Hp.
    specialize (H (String c u) v). simpl in H. rewrite Hc in H.
    replace (i + S (String.length u))%nat with (S i + String.length u)%nat in H by lia.
    by apply H.
Qed.

Lemma star_greedy {R} p u v i (k : nat → string → option R) x :
  all_chars p u = true →
  k (i + String.length u)%nat v = Some x →
  (∀ u1 u2, v = u1 +:+ u2 → u1 ≠ "" → all_chars p u1 = true →
            k (i + String.length u + String.length u1)%nat u2 = None) →
  star p i (u +:+ v) k = Some x.
Proof.
  revert i. induction u as [|c u IH]; intros i Hu Hk Hno; simpl in *.
  - rewrite star_stop.
    + by rewrite Nat.add_0_r in Hk.
    + intros u1 u2 E1 E2 E3. specialize (Hno u1 u2 E1 E2 E3).
      by rewrite Nat.add_0_r in Hno.
  - apply andb_true_iff in Hu as [Hc Hu]. rewrite Hc.
    rewrite (IH (S i)); [done | done | |].
    + by replace (S i + String.length u)%nat with (i + S (String.length u))%nat by lia.
    + intros u1 u2 E1 E2 E3. specialize (Hno u1 u2 E1 E2 E3).
      by replace (S i + String.length u)%nat with (i + S (String.length u))%nat by lia.
Qed.

Lemma star_none {R} p i s (k : nat → string → option R) :
  (∀ u v, s = u +:+ v → all_chars p u = true →
          k (i + String.length u)%nat v = None) →
  star p i s k = None.
Proof.
  intros H. rewrite star_stop.
  - specialize (H "" s). simpl in H. rewrite Nat.add_0_r in H. by apply H.
  - intros u v E _ Hp. by apply H.
Qed.

(** a run of the class to the end of the text *)
Lemma star_all {R} p u i (k : nat → string → option R) x :
  all_chars p u = true →
  k (i + String.length u)%nat "" = Some x →
  star p i u k = Some x.
Proof.
  intros Hu Hk. rewrite <- (append_nil_r u).
  apply star_greedy; [done | done |].
  intros u1 u2 E. by destruct u1.
Qed.

Lemma search_unfold r adv i s :
  search r adv i s =
  match rmatch r i s []
          (λ j _ g, if adv && (j =? i)%nat then None else Some (j, g)) with
  | Some (j, g) => Some (i, j, g)
  | None =>
      match s with
      | String _ s' => search r false (S i) s'
      | EmptyString => None
      end
  end.
Proof. by destruct s. Qed.

Lemma only_true c d : only c d = true → d = c.
Proof. unfold only. intros H. by apply Ascii.eqb_eq in H. Qed.

Lemma has_char_false_all c s : has_char c s = false → all_chars (but c) s = true.
Proof. rewrite has_char_but. by destruct (all_chars (but c) s). Qed.

(** in a text without the character, no suffix begins with it *)
Lemma no_char_suffix c s u v :
  has_char c s = false → s = u +:+ v →
  match v with String d _ => only c d | EmptyString => false end = false.
Proof.
  intros H ->. rewrite has_char_append in H. apply orb_false_iff in H as [_ H].
  destruct v as [|d v]; [done |]. simpl in H. unfold only.
  by apply orb_false_iff in H as [-> _].
Qed.

(** *** The pattern of [SinglePageBook.generate] *)

Lemma rmatch_stem_ext {R} stem ext i g (k : nat → string → caps → option R) x :
  all_chars dot stem = true → has_char "." ext = false →
  k (i + String.length stem + 1 + String.length ext)%nat ""
    ((2%nat, "." +:+ ext) :: (1%nat, stem) :: g) = Some x →
  rmatch re_stem_ext i (stem +:+ "." +:+ ext) g k = Some x.
Proof.
  intros Hstem Hext Hk. unfold re_stem_ext. cbn [rmatch].
  apply star_greedy; [done | |].
  - replace (i + String.length stem - i)%nat with (String.length stem) by lia.
    rewrite stake_append. simpl.
    apply star_all; [by apply has_char_false_all |].
    replace (S (i + String.length stem) + String.length ext - (i + String.length stem))%nat
      with (S (String.length ext)) by lia.
    simpl. rewrite stake_all. simpl in Hk.
    rewrite <- Hk. f_equal. lia.
  - intros u1 u2 E Hu1 _. destruct u1 as [|c u1]; [done |].
    simpl in E. injection E as _ E.
    pose proof (no_char_suffix _ _ _ _ Hext E) as Hv.
    destruct u2 as [|d u2]; [done |]. by rewrite Hv.
Qed.

Lemma rmatch_stem_ext_none {R} s i g (k : nat → string → caps → option R) :
  has_char "." s = false → rmatch re_stem_ext i s g k = None.
Proof.
  intros Hs. unfold re_stem_ext. cbn [rmatch].
  apply star_none. intros u v E _.
  pose proof (no_char_suffix _ _ _ _ Hs E) as Hv.
  destruct v as [|d v]; [done |]. by rewrite Hv.
Qed.

Lemma search_stem_ext_none adv i s :
  has_char "." s = false → search re_stem_ext adv i s = None.
Proof.
  revert adv i. induction s as [|c s IH]; intros adv i Hs.
  - rewrite search_unfold, rmatch_stem_ext_none; done.
  - rewrite search_unfold, rmatch_stem_ext_none; [| done].
    apply IH. simpl in Hs. by apply orb_false_iff in Hs as [_ ?].
Qed.

Lemma search_stem_ext adv i stem ext :
  all_chars dot stem = true → has_char "." ext = false →
  search re_stem_ext adv i (stem +:+ "." +:+ ext)
  = Some (i, (i + String.length stem + 1 + String.length ext)%nat,
          [(2%nat, "." +:+ ext); (1%nat, stem)]).
Proof.
  intros Hstem Hext. rewrite search_unfold.
  rewrite (rmatch_stem_ext stem ext i [] _
             ((i + String.length stem + 1 + String.length ext)%nat,
              [(2%nat, "." +:+ ext); (1%nat, stem)])); [done | done | done |].
  replace (_ =? i)%nat with false; [by rewrite andb_false_r |].
  symmetry. apply Nat.eqb_neq. lia.
Qed.

(** one turn of the loop of [re.sub] *)
Lemma subx_found pv r t fuel whole start copied n adv b e g :
  (start ≤ String.length whole)%nat →
  search r adv start (sdrop start whole) = Some (b, e, g) →
  subx pv r t (S fuel) whole start copied n adv =
    let start' := match pv with
                  | Py36 => if (e =? b)%nat then S e else e
                  | Py37 => e
                  end in
    let adv' := match pv with
                | Py36 => false
                | Py37 => (e =? b)%nat
                end in
    if match pv with
       | Py36 => (copied =? b)%nat && (copied =? e)%nat && (0 <? n)%nat
       | Py37 => false
       end
    then subx pv r t fuel whole start' copied n adv'
    else slice copied b whole +:+ expand t g
         +:+ subx pv r t fuel whole start' e (S n) adv'.
Proof.
  intros Hs Hf. cbn [subx].
  replace (String.length whole <? start)%nat with false
    by (symmetry; apply Nat.ltb_ge; lia).
  by rewrite Hf.
Qed.

Lemma subx_not_found pv r t fuel whole start copied n adv :
  search r adv start (sdrop start whole) = None →
  subx pv r t (S fuel) whole start copied n adv = sdrop copied whole.
Proof. intros Hf. cbn [subx]. rewrite Hf. by destruct (_ <? _)%nat. Qed.

Lemma subx_past_end pv r t fuel whole start copied n adv :
  (String.length whole < start)%nat →
  subx pv r t fuel whole start copied n adv = sdrop copied whole.
Proof.
  intros Hs. destruct fuel; cbn [subx]; [done |].
  by replace (String.length whole <? start)%nat with true
    by (symmetry; apply Nat.ltb_lt; lia).
Qed.

(** [re.sub] with the pattern of [SinglePageBook.generate], on a path
    with an extension: one match, the whole path *)
Lemma re_sub_stem_ext pv t stem ext :
  all_chars dot stem = true → has_char "." ext = false →
  re_sub pv re_stem_ext t (stem +:+ "." +:+ ext)
  = expand t [(2%nat, "." +:+ ext); (1%nat, stem)].
Proof.
  intros Hstem Hext. unfold re_sub.
  set (whole := stem +:+ "." +:+ ext).
  assert (String.length whole = (String.length stem + 1 + String.length ext)%nat) as Hlen.
  { unfold whole. rewrite !length_append. simpl. lia. }
  replace (2 * String.length whole + 3)%nat
    with (S (S (2 * String.length whole + 1))) by lia.
  rewrite (subx_found _ _ _ _ _ _ _ _ _ 0%nat (String.length whole)
             [(2%nat, "." +:+ ext); (1%nat, stem)]); [| lia |].
  2: { rewrite sdrop_0. unfold whole at 1. rewrite search_stem_ext by done.
       simpl Nat.add. by rewrite Hlen. }
  cbv zeta.
  replace (String.length whole =? 0)%nat with false
    by (symmetry; apply Nat.eqb_neq; lia).
  rewrite andb_false_r.
  replace (match pv with Py36 => false | Py37 => false end) with false by (by destruct pv).
  replace (match pv with Py36 => String.length whole | Py37 => String.length whole end)
    with (String.length whole) by (by destruct pv).
  rewrite subx_not_found.
  - unfold slice. simpl. by rewrite sdrop_all, append_nil_r.
  - rewrite sdrop_all. by apply search_stem_ext_none.
Qed.

Lemma re_sub_no_dot pv t s :
  has_char "." s = false → re_sub pv re_stem_ext t s = s.
Proof.
  intros Hs. unfold re_sub.
  replace (2 * String.length s + 3)%nat with (S (2 * String.length s + 2)) by lia.
  rewrite subx_not_found; [done |]. rewrite sdrop_0. by apply search_stem_ext_none.
Qed.

Lemma strip_ext_no_dot s : has_char "." s = false → strip_ext s = s.
Proof.
  induction s as [|c s IH]; simpl; [done |].
  intros H. apply orb_false_iff in H as [Hc Hs]. rewrite Hs.
  rewrite Ascii.eqb_sym, Hc. by rewrite IH.
Qed.

Lemma strip_ext_split s :
  has_char "." s = true →
  ∃ ext, s = strip_ext s +:+ "." +:+ ext ∧ has_char "." ext = false.
Proof.
  induction s as [|c s IH]; simpl; [done |].
  destruct (has_char "." s) eqn:Hs.
  - intros _. destruct (IH eq_refl) as (ext & E & Hext).
    exists ext. split; [| done]. simpl. f_equal. exact E.
  - rewrite orb_false_r. intros Hc. apply Ascii.eqb_eq in Hc. subst c.
    simpl. by exists s.
Qed.

(** *** The pattern of [main] *)

Lemma at_eol_no_dot t : at_eol t = true → has_char "." t = false.
Proof.
  destruct t as [|c [|d t]]; simpl; [done | | done].
  intros H. apply Ascii.eqb_eq in H. by subst c.
Qed.

(** a run of non-dots never reaches [$] when a dot lies ahead *)
Lemma star_but_dot_eol {R} v i (X : nat → string → option R) :
  has_char "." v = true →
  star (but ".") i v (λ j t, if at_eol t then X j t else None) = None.
Proof.
  intros Hv. apply star_none. intros u w -> Hu.
  rewrite has_char_append, has_char_but, Hu in Hv. simpl in Hv.
  destruct (at_eol w) eqn:Hw; [| done].
  apply at_eol_no_dot in Hw. congruence.
Qed.

Lemma rmatch_book_unfold {R} i s g (k : nat → string → caps → option R) :
  rmatch re_book i s g k =
  match rmatch book_alt1 i s g (λ j t g', if at_eol t then k j t g' else None) with
  | Some x => Some x
  | None => star (but ".") i s
              (λ j t, if at_eol t then k j t ((2%nat, stake (j - i) s) :: g) else None)
  end.
Proof. done. Qed.

Lemma book_alt1_no_dot {R} s i g (K : nat → string → caps → option R) :
  has_char "." s = false → rmatch book_alt1 i s g K = None.
Proof.
  intros Hs. unfold book_alt1. cbn [rmatch].
  apply star_none. intros u v E _.
  pose proof (no_char_suffix _ _ _ _ Hs E) as Hv.
  destruct v as [|d v]; [done |]. by rewrite Hv.
Qed.

Lemma book_alt1_last_dot {R} l ext i g (k : nat → string → caps → option R) x :
  all_chars dot l = true → has_char "." ext = false →
  k (i + String.length l + 1 + String.length ext)%nat "" ((1%nat, l) :: g) = Some x →
  rmatch book_alt1 i (l +:+ "." +:+ ext) g
    (λ j t g', if at_eol t then k j t g' else None) = Some x.
Proof.
  intros Hl Hext Hk. unfold book_alt1. cbn [rmatch].
  apply star_greedy; [done | |].
  - replace (i + String.length l - i)%nat with (String.length l) by lia.
    rewrite stake_append. simpl.
    apply star_all; [by apply has_char_false_all |].
    simpl. rewrite <- Hk. f_equal. lia.
  - intros u1 u2 E Hu1 _. destruct u1 as [|c u1]; [done |].
    simpl in E. injection E as _ E.
    pose proof (no_char_suffix _ _ _ _ Hext E) as Hv.
    destruct u2 as [|d u2]; [done |]. by rewrite Hv.
Qed.

(** two ways to cut the same text *)
Lemma append_eq_append u w a b :
  u +:+ w = a +:+ b →
  (∃ m, a = u +:+ m ∧ w = m +:+ b) ∨ (∃ m, u = a +:+ m ∧ b = m +:+ w).
Proof.
  revert a. induction u as [|c u IH]; intros a E; simpl in *.
  - left. by exists a.
  - destruct a as [|d a]; simpl in *.
    + right. by exists (String c u).
    + injection E as -> E. destruct (IH a E) as [(m & -> & ->) | (m & -> & ->)].
      * left. by exists m.
      * right. by exists m.
Qed.

(** [.*] stops at the first newline: before it, every dot has the last
    dot of the path ahead, and no match of the first alternative ends
    at [$] *)
Lemma book_alt1_newline {R} a ext i g (k : nat → string → caps → option R) :
  has_char newline a = true →
  rmatch book_alt1 i (a +:+ "." +:+ ext) g
    (λ j t g', if at_eol t then k j t g' else None) = None.
Proof.
  intros Ha. unfold book_alt1. cbn [rmatch].
  apply star_none. intros u w E Hu.
  symmetry in E. apply append_eq_append in E as [(m & -> & ->) | (m & -> & _)].
  - rewrite has_char_append in Ha.
    assert (has_char newline u = false) as Hun.
    { rewrite has_char_but. unfold dot in Hu. by rewrite Hu. }
    rewrite Hun in Ha. simpl in Ha.
    destruct m as [|c m]; [done |]. simpl.
    destruct (only "." c); [| done].
    apply star_but_dot_eol. rewrite has_char_append. simpl. by rewrite orb_true_r.
  - rewrite all_chars_append in Hu. apply andb_true_iff in Hu as [Hu _].
    rewrite has_char_but in Ha. unfold dot in Hu. by rewrite Hu in Ha.
Qed.

Lemma rmatch_book_newline {R} a ext i g (k : nat → string → caps → option R) :
  has_char newline a = true →
  rmatch re_book i (a +:+ "." +:+ ext) g k = None.
Proof.
  intros Ha. rewrite rmatch_book_unfold, book_alt1_newline by done.
  apply star_but_dot_eol. rewrite has_char_append. simpl. by rewrite orb_true_r.
Qed.

Lemma rmatch_book_last_dot {R} l ext i g (k : nat → string → caps → option R) x :
  all_chars dot l = true → has_char "." ext = false →
  k (i + String.length l + 1 + String.length ext)%nat "" ((1%nat, l) :: g) = Some x →
  rmatch re_book i (l +:+ "." +:+ ext) g k = Some x.
Proof.
  intros Hl Hext Hk. rewrite rmatch_book_unfold.
  by erewrite book_alt1_last_dot.
Qed.

Lemma rmatch_book_no_dot {R} s i g (k : nat → string → caps → option R) x :
  has_char "." s = false →
  k (i + String.length s)%nat "" ((2%nat, s) :: g) = Some x →
  rmatch re_book i s g k = Some x.
Proof.
  intros Hs Hk. rewrite rmatch_book_unfold, book_alt1_no_dot by done.
  apply star_all; [by apply has_char_false_all |].
  simpl. replace (i + String.length s - i)%nat with (String.length s) by lia.
  by rewrite stake_all.
Qed.

(** the leftmost match in a path with a dot begins on the line of the
    last dot and ends with the path *)
Lemma search_book a ext i :
  has_char "." ext = false →
  ∃ p l, a = p +:+ l ∧
    search re_book false i (a +:+ "." +:+ ext)
    = Some ((i + String.length p)%nat,
            (i + String.length a + 1 + String.length ext)%nat,
            [(1%nat, l)]).
Proof.
  intros Hext. revert i. induction a as [|c a IH]; intros i.
  - exists "", "". split; [done |]. rewrite search_unfold.
    rewrite (rmatch_book_last_dot "" ext i [] _
               ((i + 0 + 1 + String.length ext)%nat, [(1%nat, "")])); [| done | done | done].
    do 2 f_equal. f_equal; simpl; lia.
  - destruct (has_char newline (String c a)) eqn:Hnl.
    + destruct (IH (S i)) as (p & l & -> & Hs).
      exists (String c p), l. split; [done |].
      rewrite search_unfold, rmatch_book_newline by done.
      simpl. simpl in Hs. rewrite Hs. do 2 f_equal. f_equal; simpl; lia.
    + exists "", (String c a). split; [done |]. rewrite search_unfold.
      rewrite (rmatch_book_last_dot (String c a) ext i [] _
                 ((i + String.length (String c a) + 1 + String.length ext)%nat,
                  [(1%nat, String c a)])); [| | done | done].
      * do 2 f_equal. f_equal; simpl; lia.
      * rewrite has_char_but in Hnl. unfold dot. by destruct (all_chars _ _).
Qed.

Lemma search_book_no_dot s i :
  has_char "." s = false →
  search re_book false i s = Some (i, (i + String.length s)%nat, [(2%nat, s)]).
Proof.
  intros Hs. rewrite search_unfold.
  by rewrite (rmatch_book_no_dot s i [] _ ((i + String.length s)%nat, [(2%nat, s)])).
Qed.

Lemma search_book_end_adv i : search re_book true i "" = None.
Proof. rewrite search_unfold. simpl. by rewrite Nat.eqb_refl. Qed.

(** the tail of the loop once a match has reached the end of the path *)
Lemma subx_book_tail pv fuel whole n :
  subx pv re_book book_template (S (S fuel)) whole
    (String.length whole) (String.length whole) (S n) false
  = match pv with Py36 => "" | Py37 => "-book.pdf" end.
Proof.
  rewrite (subx_found _ _ _ _ _ _ _ _ _ (String.length whole) (String.length whole)
             [(2%nat, "")]); [| lia |].
  2: { rewrite sdrop_all, search_book_no_dot by done. simpl. by rewrite Nat.add_0_r. }
  cbv zeta. rewrite !Nat.eqb_refl.
  destruct pv.
  - change (0 <? S n)%nat with true. cbn [andb].
    rewrite subx_past_end by lia. by rewrite sdrop_all.
  - rewrite subx_not_found.
    + unfold slice. rewrite Nat.sub_diag, sdrop_all. by rewrite stake_0.
    + rewrite sdrop_all. apply search_book_end_adv.
Qed.

(** [re.sub] with the pattern and the template of [main], for every path *)
Lemma re_sub_book pv s :
  s ≠ "" →
  re_sub pv re_book book_template s
  = strip_ext s +:+ "-book.pdf"
    +:+ match pv with Py36 => "" | Py37 => "-book.pdf" end.
Proof.
  intros Hne. unfold re_sub.
  replace (2 * String.length s + 3)%nat with (S (S (S (2 * String.length s)))) by lia.
  assert (0 < String.length s)%nat as Hlen by (destruct s; [done | simpl; lia]).
  destruct (has_char "." s) eqn:Hdot.
  - destruct (strip_ext_split s Hdot) as (ext & E & Hext).
    destruct (search_book (strip_ext s) ext 0 Hext) as (p & l & Ea & Hs).
    rewrite <- E in Hs. simpl in Hs.
    assert (String.length s = (String.length (strip_ext s) + 1 + String.length ext)%nat) as Hl.
    { rewrite E at 1. rewrite !length_append. simpl. lia. }
    rewrite <- Hl in Hs.
    erewrite subx_found; [| lia | by rewrite sdrop_0; apply Hs].
    cbv zeta. rewrite Nat.ltb_irrefl, andb_false_r.
    replace (String.length s =? String.length p)%nat with false.
    2: { symmetry. apply Nat.eqb_neq. rewrite Hl, Ea, length_append. lia. }
    replace (match pv with Py36 => false | Py37 => false end) with false by (by destruct pv).
    replace (match pv with Py36 => String.length s | Py37 => String.length s end)
      with (String.length s) by (by destruct pv).
    rewrite subx_book_tail. unfold slice. rewrite sdrop_0, Nat.sub_0_r.
    rewrite E at 1. rewrite Ea at 1. rewrite append_assoc, stake_append.
    simpl. by rewrite Ea, !append_assoc.
  - erewrite subx_found; [| lia | by rewrite sdrop_0; apply search_book_no_dot].
    cbv zeta. simpl Nat.add. rewrite Nat.ltb_irrefl, andb_false_r.
    replace (String.length s =? 0)%nat with false
      by (symmetry; apply Nat.eqb_neq; lia).
    replace (match pv with Py36 => false | Py37 => false end) with false by (by destruct pv).
    replace (match pv with Py36 => String.length s | Py37 => String.length s end)
      with (String.length s) by (by destruct pv).
    rewrite subx_book_tail. unfold slice. simpl.
    rewrite strip_ext_no_dot by done. by rewrite ?append_assoc.
Qed.

Lemma re_sub_book_empty pv : re_sub pv re_book book_template "" = "-book.pdf".
Proof. by destruct pv. Qed.

(** *** Decimal numerals *)

Lemma pretty_N_char_digit x :
  (x < 10)%N →
  is_digit (pretty_N_char x) = true ∧ digit_val (pretty_N_char x) = Z.of_N x.
Proof.
  intros H.
  assert (x = 0 ∨ x = 1 ∨ x = 2 ∨ x = 3 ∨ x = 4 ∨ x = 5 ∨ x = 6 ∨ x = 7
          ∨ x = 8 ∨ x = 9)%N as Hx by lia.
  repeat (destruct Hx as [-> | Hx]; [done |]). by subst x.
Qed.

Lemma pretty_N_go_append x s : pretty_N_go x s = pretty_N_go x "" +:+ s.
Proof.
  revert s. induction (N.lt_wf_0 x) as [x _ IH]; intros s.
  assert (x = 0 ∨ 0 < x)%N as [-> | Hx] by lia; [done |].
  assert (x `div` 10 < x)%N as Hlt by (by apply N.div_lt).
  rewrite (pretty_N_go_step x s), (pretty_N_go_step x "") by done.
  rewrite (IH (x `div` 10)%N Hlt (String _ s)).
  rewrite (IH (x `div` 10)%N Hlt (String _ "")).
  by rewrite append_assoc.
Qed.

Lemma int_acc_append acc u s : int_acc acc (u +:+ s) = int_acc (int_acc acc u) s.
Proof. revert acc. induction u as [|c u IH]; intros acc; simpl; [done | apply IH]. Qed.

Lemma pretty_N_go_spec x :
  all_chars is_digit (pretty_N_go x "") = true
  ∧ int_acc 0 (pretty_N_go x "") = Z.of_N x.
Proof.
  induction (N.lt_wf_0 x) as [x _ IH].
  assert (x = 0 ∨ 0 < x)%N as [-> | Hx] by lia; [done |].
  assert (x `div` 10 < x)%N as Hlt by (by apply N.div_lt).
  rewrite pretty_N_go_step, pretty_N_go_append by done.
  destruct (IH (x `div` 10)%N Hlt) as [Hd Hi].
  destruct (pretty_N_char_digit (x `mod` 10)%N) as [Hc Hv].
  { by apply N.mod_lt. }
  split.
  - rewrite all_chars_append, Hd. simpl. by rewrite Hc.
  - rewrite int_acc_append, Hi. simpl. rewrite Hv.
    rewrite (N.div_mod x 10) at 3 by done. lia.
Qed.

Lemma pretty_N_go_nonempty x : (0 < x)%N → pretty_N_go x "" ≠ "".
Proof.
  intros Hx. rewrite pretty_N_go_step, pretty_N_go_append by done.
  by destruct (pretty_N_go _ "").
Qed.

(** [str] of a natural number is a non-empty string of digits, and
    [int] reads it back *)
Lemma str_digits_value (n : N) :
  str (Z.of_N n) ≠ "" ∧ all_chars is_digit (str (Z.of_N n)) = true
  ∧ digits_value (str (Z.of_N n)) = Z.of_N n.
Proof.
  unfold str, digits_value. destruct n as [|p]; [done |].
  change (pretty (Z.of_N (N.pos p))) with (pretty_N_go (N.pos p) "").
  destruct (pretty_N_go_spec (N.pos p)) as [Hd Hi].
  split; [by apply pretty_N_go_nonempty |]. done.
Qed.

(** *** UTF-8 on 7-bit text *)

Lemma is_digit_ascii c : is_digit c = true → is_ascii c = true.
Proof.
  unfold is_digit, is_ascii. intros H.
  apply andb_true_iff in H as [_ H]. apply Nat.leb_le in H.
  apply Nat.ltb_lt. lia.
Qed.

Lemma all_chars_impl (p q : ascii → bool) s :
  (∀ c, p c = true → q c = true) → all_chars p s = true → all_chars q s = true.
Proof.
  intros Hpq. induction s as [|c s IH]; simpl; [done |].
  intros H. apply andb_true_iff in H as [Hc Hs]. by rewrite (Hpq c Hc), IH.
Qed.

Lemma is_ascii_lead c : is_ascii c = true → lead c = Some (0, 0, 0)%nat.
Proof. unfold is_ascii, lead. by intros ->. Qed.

Lemma uhead_ascii c s :
  is_ascii c = true → uhead (String c s) = Some (String c "", s).
Proof.
  intros H. unfold uhead. rewrite (is_ascii_lead c H). by destruct s.
Qed.

Lemma uchars_from_ascii s : ∀ fuel,
  all_chars is_ascii s = true → (String.length s ≤ fuel)%nat →
  uchars_from fuel s = Some (singles s).
Proof.
  induction s as [|c s IH]; intros fuel Hs Hf; [by destruct fuel |].
  simpl in Hs, Hf. apply andb_true_iff in Hs as [Hc Hs].
  destruct fuel as [|fuel]; [lia |].
  cbn [uchars_from]. rewrite (uhead_ascii c s Hc), (IH fuel Hs) by lia. done.
Qed.

Lemma uchars_ascii s : all_chars is_ascii s = true → uchars s = Some (singles s).
Proof. intros H. by apply uchars_from_ascii. Qed.

(** 7-bit text decodes to itself *)
Lemma decode_ascii s : all_chars is_ascii s = true → decode s = Ok s.
Proof. intros H. unfold decode. by rewrite (uchars_ascii s H). Qed.

Lemma N_of_ascii_nat c : N_of_ascii c = N.of_nat (nat_of_ascii c).
Proof. unfold nat_of_ascii. by rewrite N2Nat.id. Qed.

Lemma digit_of_digit c :
  is_digit c = true → digit_of (String c "") = Some (digit_val c).
Proof.
  unfold is_digit, digit_of, digit_val, codepoint. rewrite N_of_ascii_nat.
  intros [H1 H2]%andb_true_iff. apply Nat.leb_le in H1, H2.
  rewrite (proj2 (N.ltb_lt _ _)) by lia.
  rewrite (proj2 (N.leb_le 48 _)), (proj2 (N.leb_le _ 57)) by lia.
  simpl. f_equal. lia.
Qed.


Lemma udigit_digit c : is_digit c = true → udigit (String c "") = true.
Proof. intros H. unfold udigit. by rewrite (digit_of_digit c H). Qed.


Lemma int_digits s : all_chars is_digit s = true → int s = digits_value s.
Proof.
  intros Hs. unfold int, digits_value.
  rewrite uchars_ascii by (by apply (all_chars_impl is_digit); [apply is_digit_ascii |]).
  simpl. generalize 0. induction s as [|c s IH]; intros acc; [done |].
  simpl in Hs. apply andb_true_iff in Hs as [Hc Hs].
  cbn [singles fold_left int_acc]. rewrite (digit_of_digit c Hc). by apply IH.
Qed.

(** [str] of a natural number is a non-empty string of digits, and
    [int] reads it back *)
Lemma str_digits (n : N) :
  str (Z.of_N n) ≠ "" ∧ all_chars is_digit (str (Z.of_N n)) = true
  ∧ int (str (Z.of_N n)) = Z.of_N n.
Proof.
  destruct (str_digits_value n) as (H1 & H2 & H3).
  split; [done |]. split; [done |]. by rewrite int_digits.
Qed.

(** a run of 7-bit characters of the class is taken whole, and the
    repetition goes on after it *)
Lemma ustar_ascii_run {R} p u : ∀ v fuel i (k : nat → string → option R) x,
  all_chars is_ascii u = true →
  all_chars (λ c, p (String c "")) u = true →
  (String.length u ≤ fuel)%nat →
  ustar p (fuel - String.length u) (i + String.length u) v k = Some x →
  ustar p fuel i (u +:+ v) k = Some x.
Proof.
  induction u as [|c u IH]; intros v fuel i k x Ha Hp Hf Hk.
  - simpl in *. by rewrite Nat.sub_0_r, Nat.add_0_r in Hk.
  - simpl in Ha, Hp, Hf. apply andb_true_iff in Ha as [Hc Ha].
    apply andb_true_iff in Hp as [Hpc Hp].
    destruct fuel as [|fuel]; [lia |].
    change (String c u +:+ v) with (String c (u +:+ v)).
    cbn [ustar]. rewrite (uhead_ascii c _ Hc), Hpc.
    rewrite (IH v fuel (i + String.length (String c "")))%nat with (x := x);
      [done | done | done | lia |].
    simpl in *. by replace (i + 1 + String.length u)%nat
                      with (i + S (String.length u))%nat by lia.
Qed.

(** a run of the class to the end of the text *)
Lemma ustar_ascii_all {R} p u fuel i (k : nat → string → option R) x :
  all_chars is_ascii u = true →
  all_chars (λ c, p (String c "")) u = true →
  (String.length u ≤ fuel)%nat →
  k (i + String.length u)%nat "" = Some x →
  ustar p fuel i u k = Some x.
Proof.
  intros Ha Hp Hf Hk. rewrite <- (append_nil_r u).
  apply ustar_ascii_run; [done | done | done |].
  by destruct (fuel - String.length u)%nat.
Qed.

Lemma all_digits_ascii s : all_chars is_digit s = true → all_chars is_ascii s = true.
Proof. apply all_chars_impl, is_digit_ascii. Qed.

Lemma all_digits_udigit s :
  all_chars is_digit s = true → all_chars (λ c, udigit (String c "")) s = true.
Proof. apply (all_chars_impl is_digit). apply udigit_digit. Qed.






(** [str] never gives the empty string *)
Lemma str_nonempty (k : Z) : str k ≠ "".
Proof.
  destruct k as [|p|p].
  - done.
  - apply (str_digits_value (N.pos p)).
  - unfold str. change (pretty (Z.neg p)) with ("-" +:+ pretty p). done.
Qed.

Lemma is_digit_dot c : is_digit c = true → dot c = true.
Proof.
  unfold dot, but. destruct (Ascii.eqb_spec newline c) as [<- |]; done.
Qed.

Lemma is_digit_not_space c : is_digit c = true → is_space c = false.
Proof.
  unfold is_digit, is_space. intros H.
  apply andb_true_iff in H as [H _]. apply Nat.leb_le in H.
  apply orb_false_iff. split.
  - apply andb_false_iff. right. apply Nat.leb_gt. lia.
  - apply Nat.eqb_neq. lia.
Qed.

(** *** The patterns of [pdfinfo] *)

Lemma matches_digits s :
  s ≠ "" → all_chars is_digit s = true → matches re_digits s = true.
Proof.
  intros Hne Hs. destruct s as [|c s]; [done |]. simpl in Hs.
  apply andb_true_iff in Hs as [Hc Hs].
  unfold matches, re_match, re_digits. cbn [rmatch]. cbn [Nat.eqb].
  rewrite (uhead_ascii c s (is_digit_ascii c Hc)), (udigit_digit c Hc).
  by erewrite ustar_ascii_all;
    [| by apply all_digits_ascii | by apply all_digits_udigit | done | done].
Qed.

(** a line without a colon is not recognized *)
Lemma re_match_no_colon line :
  has_char ":" line = false → re_match re_key_value line = None.
Proof.
  intros H. unfold re_match, re_key_value. cbn [rmatch]. simpl.
  apply star_none. intros u v E _.
  pose proof (no_char_suffix _ _ _ _ H E) as Hv.
  destruct v as [|d v]; [done |]. by rewrite Hv.
Qed.

(** a line [key: value] is split at its first colon, the blanks after
    it dropped *)
Lemma re_match_key_value key ws value :
  has_char ":" key = false →
  all_chars is_space ws = true →
  starts_with_space value = false →
  all_chars dot value = true →
  ∃ e, re_match re_key_value (key +:+ ":" +:+ ws +:+ value)
       = Some (e, [(2%nat, value); (1%nat, key)]).
Proof.
  intros Hkey Hws Hsp Hval. eexists.
  unfold re_match, re_key_value. cbn [rmatch]. simpl.
  apply star_greedy; [by apply has_char_false_all | |].
  - simpl. rewrite Nat.sub_0_r, stake_append.
    change (only ":" ":") with true. cbn iota.
    apply star_greedy; [done | |].
    + apply star_all; [done |]. simpl.
      match goal with |- context [stake ?n value] =>
        replace n with (String.length value) by lia end.
      rewrite stake_all. reflexivity.
    + intros u1 u2 -> Hne Hu1. destruct u1 as [|c u1]; [done |].
      simpl in Hsp, Hu1. by rewrite Hsp in Hu1.
  - intros u1 u2 E Hne Hu1. destruct u1 as [|c u1]; [done |].
    simpl in E. injection E as <- _. done.
Qed.

Lemma matches_yes_no s :
  matches re_yes_no s = String.prefix "yes" s || String.prefix "no" s.
Proof.
  assert (∀ c d, only c d = if ascii_dec c d then true else false) as Ho.
  { intros c d. unfold only. destruct (Ascii.eqb_spec c d), (ascii_dec c d); done. }
  unfold matches, re_match, re_yes_no. cbn [rmatch Lit].
  destruct s as [|c1 s]; [done |]. cbn [String.prefix]. rewrite !Ho.
  destruct (ascii_dec "y" c1), (ascii_dec "n" c1); try congruence;
    (destruct s as [|c2 s]; [done |]); cbn [String.prefix]; rewrite ?Ho;
    try (destruct (ascii_dec "e" c2); [| done]);
    try (destruct (ascii_dec "o" c2); [| done]);
    try (destruct s as [|c3 s]; [done |]; cbn [String.prefix]; rewrite ?Ho;
         destruct (ascii_dec "s" c3); [| done]);
    by destruct s.
Qed.

Lemma parse_line_skip line :
  has_char ":" line = false → parse_line line = Ok None.
Proof. intros H. unfold parse_line. by rewrite re_match_no_colon. Qed.

Lemma parse_line_key_value key ws value :
  has_char ":" key = false → all_chars is_ascii key = true →
  all_chars is_space ws = true →
  starts_with_space value = false → all_chars dot value = true →
  all_chars is_ascii value = true →
  parse_line (key +:+ ":" +:+ ws +:+ value)
  = (v ← convert key value; Ok (Some (key, v))).
Proof.
  intros Hk Hka Hws Hsp Hv Hva.
  destruct (re_match_key_value key ws value Hk Hws Hsp Hv) as [e He].
  unfold parse_line. rewrite He. simpl.
  by rewrite (decode_ascii key Hka), (decode_ascii value Hva).
Qed.

Lemma decode_utf8 b : is_utf8 b = true → decode b = Ok b.
Proof. unfold is_utf8, decode. by destruct (uchars b). Qed.

Lemma decode_not_utf8 b : is_utf8 b = false → decode b = Raise UnicodeDecodeError.
Proof. unfold is_utf8, decode. by destruct (uchars b). Qed.

Lemma parse_line_utf8 key ws value :
  has_char ":" key = false → is_utf8 key = true →
  all_chars is_space ws = true →
  starts_with_space value = false → all_chars dot value = true →
  is_utf8 value = true →
  parse_line (key +:+ ":" +:+ ws +:+ value)
  = (v ← convert key value; Ok (Some (key, v))).
Proof.
  intros Hk Hka Hws Hsp Hv Hva.
  destruct (re_match_key_value key ws value Hk Hws Hsp Hv) as [e He].
  unfold parse_line. rewrite He. simpl.
  by rewrite (decode_utf8 key Hka), (decode_utf8 value Hva).
Qed.

Lemma parse_line_not_utf8 key ws value :
  has_char ":" key = false →
  all_chars is_space ws = true →
  starts_with_space value = false → all_chars dot value = true →
  is_utf8 key && is_utf8 value = false →
  parse_line (key +:+ ":" +:+ ws +:+ value) = Raise UnicodeDecodeError.
Proof.
  intros Hk Hws Hsp Hv Hu.
  destruct (re_match_key_value key ws value Hk Hws Hsp Hv) as [e He].
  unfold parse_line. rewrite He. simpl.
  destruct (is_utf8 key) eqn:Hka.
  - simpl in Hu. by rewrite (decode_utf8 key Hka), (decode_not_utf8 value Hu).
  - by rewrite (decode_not_utf8 key Hka).
Qed.

Lemma convert_pages_digits s :
  s ≠ "" → all_chars is_digit s = true → convert "Pages" s = Ok (VInt (int s)).
Proof.
  intros Hne Hs. unfold convert.
  change (in_list "Pages" ["Pages"; "Page rot"]) with true. cbn iota.
  by rewrite matches_digits.
Qed.

Lemma convert_pages_inv s v : convert "Pages" s = Ok v → v = VInt (int s).
Proof.
  unfold convert.
  change (in_list "Pages" ["Pages"; "Page rot"]) with true. cbn iota.
  destruct (matches re_digits s); simpl; [| done].
  intros H. by injection H.
Qed.

Lemma convert_pages_bad s :
  matches re_digits s = false → convert "Pages" s = Raise AssertionError.
Proof.
  intros H. unfold convert.
  change (in_list "Pages" ["Pages"; "Page rot"]) with true. cbn iota.
  by rewrite H.
Qed.

Lemma convert_flag key s :
  key ∈ flag_keys →
  convert key s
  = if String.prefix "yes" s || String.prefix "no" s
    then Ok (VBool (bool_decide (s = "yes")))
    else Raise AssertionError.
Proof.
  intros Hk. unfold flag_keys in Hk.
  rewrite <- matches_yes_no.
  repeat (apply elem_of_cons in Hk as [-> | Hk];
          [unfold convert; eval_in_list; simpl;
           by destruct (matches re_yes_no s) |]).
  by apply elem_of_nil in Hk.
Qed.

(** a recognized line stores what [convert] makes of its value *)
Lemma parse_line_inv line key v :
  parse_line line = Ok (Some (key, v)) → ∃ s, convert key s = Ok v.
Proof.
  unfold parse_line. destruct (re_match re_key_value line) as [[e g]|]; [| done].
  destruct (decode (default "" (group 1 g))) as [k|]; simpl; [| done].
  destruct (decode (default "" (group 2 g))) as [s|]; simpl; [| done].
  destruct (convert k s) as [v'|] eqn:Hc; simpl; [| done].
  intros H. injection H as -> ->. by exists s.
Qed.

(** every entry of the dictionary comes from a recognized line, and an
    entry is that of the last line with its key *)
Lemma parse_lines_lookup lines d0 d key v :
  parse_lines lines d0 = Ok d → d !! key = Some v →
  d0 !! key = Some v ∨ ∃ line, line ∈ lines ∧ parse_line line = Ok (Some (key, v)).
Proof.
  revert d0. induction lines as [|l lines IH]; intros d0; simpl.
  - intros H. injection H as <-. by left.
  - destruct (parse_line l) as [[[k' v']|]|] eqn:Hl; simpl; [| | done].
    + intros H Hd. destruct (IH _ H Hd) as [H0 | (line & Hin & Hp)].
      * destruct (decide (k' = key)) as [-> | Hne].
        -- rewrite lookup_insert_eq in H0. injection H0 as ->.
           right. exists l. split; [apply list_elem_of_here | done].
        -- rewrite lookup_insert_ne in H0 by done. by left.
      * right. exists line. split; [by apply list_elem_of_further | done].
    + intros H Hd. destruct (IH _ H Hd) as [H0 | (line & Hin & Hp)]; [by left |].
      right. exists line. split; [by apply list_elem_of_further | done].
Qed.

Lemma parse_lines_keep lines d0 d key v :
  parse_lines lines d0 = Ok d → d0 !! key = Some v →
  (∀ line v', line ∈ lines → parse_line line ≠ Ok (Some (key, v'))) →
  d !! key = Some v.
Proof.
  revert d0. induction lines as [|l lines IH]; intros d0; simpl.
  - intros H. by injection H as <-.
  - destruct (parse_line l) as [[[k' v']|]|] eqn:Hl; simpl; [| | done].
    + intros H H0 Hno. apply (IH _ H).
      * rewrite lookup_insert_ne; [done |]. intros ->.
        by apply (Hno l v'); [apply list_elem_of_here |].
      * intros line v'' Hin. apply Hno. by apply list_elem_of_further.
    + intros H H0 Hno. apply (IH _ H H0).
      intros line v'' Hin. apply Hno. by apply list_elem_of_further.
Qed.

Lemma parse_lines_last pre line post d0 d key v :
  parse_lines (pre ++ line :: post) d0 = Ok d →
  parse_line line = Ok (Some (key, v)) →
  (∀ l v', l ∈ post → parse_line l ≠ Ok (Some (key, v'))) →
  d !! key = Some v.
Proof.
  revert d0. induction pre as [|l pre IH]; intros d0; simpl.
  - intros H Hl Hno. rewrite Hl in H. simpl in H.
    eapply parse_lines_keep; [exact H | apply lookup_insert_eq | done].
  - destruct (parse_line l) as [[[k' v']|]|]; simpl; [| | done];
      intros H; by apply (IH _ H).
Qed.

Lemma parse_lines_raise pre line post d0 e :
  (∀ l, l ∈ pre → ∃ o, parse_line l = Ok o) →
  parse_line line = Raise e →
  parse_lines (pre ++ line :: post) d0 = Raise e.
Proof.
  revert d0. induction pre as [|l pre IH]; intros d0 Hpre Hl; simpl.
  - by rewrite Hl.
  - destruct (Hpre l) as [o Ho]; [apply list_elem_of_here |].
    rewrite Ho. simpl.
    assert (∀ l0, l0 ∈ pre → ∃ o0, parse_line l0 = Ok o0) as Hpre'
      by (intros l0 H0; apply Hpre; by apply list_elem_of_further).
    destruct o as [[k v]|]; by apply IH.
Qed.

(** what [pdfinfo] returns has an integer under [Pages] *)
Lemma pdfinfo_parse_pages out d :
  pdfinfo_parse out = Ok d → ∃ n, d !! "Pages" = Some (VInt n).
Proof.
  unfold pdfinfo_parse.
  destruct (parse_lines (splitlines out) ∅) as [r|] eqn:Hr; simpl; [| done].
  destruct (bool_decide (is_Some (r !! "Pages"))) eqn:Hb; simpl; [| done].
  apply bool_decide_eq_true_1 in Hb as [v Hv].
  intros H. injection H as <-.
  destruct (parse_lines_lookup _ _ _ _ _ Hr Hv) as [H0 | (line & _ & Hp)].
  - by rewrite lookup_empty in H0.
  - apply parse_line_inv in Hp as [s Hs]. apply convert_pages_inv in Hs.
    subst v. rewrite Hv. by eexists.
Qed.

Lemma pdfinfo_parse_getitem out d :
  pdfinfo_parse out = Ok d → ∃ n, getitem_int d "Pages" = Ok n.
Proof.
  intros H. apply pdfinfo_parse_pages in H as [n Hn].
  exists n. unfold getitem_int. by rewrite Hn.
Qed.

Lemma frame_refl w : good w → frame ∅ ∅ w w.
Proof. intros H. split; [done |]. set_solver. Qed.

Lemma frame_trans X1 O1 X2 O2 w w1 w2 :
  frame X1 O1 w w1 → frame X2 O2 w1 w2 → frame (X1 ∪ X2) (O1 ∪ O2) w w2.
Proof.
  intros (_ & HL1 & HF1) (Hg & HL2 & HF2). split; [done |].
  split; [clear HF1 HF2 | clear HL1 HL2]; set_solver.
Qed.

Lemma frame_weaken X O X' O' w w' :
  frame X O w w' → X ⊆ X' → X ∪ O ⊆ X' ∪ O' → frame X' O' w w'.
Proof. intros (Hg & HL & HF) HX HO. split; [done |]. set_solver. Qed.

Lemma consistent_tail r rs : consistent (r :: rs) = true → consistent rs = true.
Proof. simpl. intros H. by apply andb_true_iff in H as [_ ?]. Qed.

(** *** The primitives *)

Lemma mkstemp_fresh dir prefix suffix existing cands p cs :
  mkstemp dir prefix suffix existing cands = Some (p, cs) → p ∉ existing.
Proof.
  induction cands as [|c cands IH]; simpl; [done |].
  case_bool_decide as Hin; [done |]. intros H. by injection H as <- _.
Qed.

Lemma mktemp_ok prefix suffix w p w' :
  mktemp prefix suffix w = (Ok p, w') →
  (p ∉ fs w) ∧ fs w' = {[p]} ∪ fs w ∧ (trace w' = EvMkTemp p :: trace w)
  ∧ replies w' = replies w ∧ stdin w' = stdin w.
Proof.
  unfold mktemp. destruct (mkstemp _ _ _ _ _) as [[q cs]|] eqn:Hm; [| done].
  intros H. injection H as -> <-. simpl.
  by apply mkstemp_fresh in Hm.
Qed.

Lemma mktemp_raise prefix suffix w e w' :
  mktemp prefix suffix w = (Raise e, w') →
  fs w' = fs w ∧ trace w' = trace w ∧ replies w' = replies w ∧ stdin w' = stdin w.
Proof.
  unfold mktemp. destruct (mkstemp _ _ _ _ _) as [[q cs]|] eqn:Hm; [done |].
  intros H. by injection H as _ <-.
Qed.

Lemma mktemp_frame prefix suffix w p w' :
  good w → mktemp prefix suffix w = (Ok p, w') → frame {[p]} ∅ w w'.
Proof.
  intros [Hc Hl] H. apply mktemp_ok in H as (Hp & Hfs & Ht & Hr & _).
  unfold frame, good. rewrite Hfs, Ht, Hr. simpl. split; [split; [done |] |]; set_solver.
Qed.

Lemma mktemp_raise_frame prefix suffix w e w' :
  good w → mktemp prefix suffix w = (Raise e, w') → frame ∅ ∅ w w'.
Proof.
  intros [Hc Hl] H. apply mktemp_raise in H as (Hfs & Ht & Hr & _).
  unfold frame, good. rewrite Hfs, Ht, Hr. split; [done |]. set_solver.
Qed.

Lemma os_remove_state p w :
  let w' := (os_remove p w).2 in
  fs w' = fs w ∖ {[p]} ∧ replies w' = replies w
  ∧ ((trace w' = EvRemove p :: trace w) ∨ ((p ∉ fs w) ∧ trace w' = trace w)).
Proof.
  unfold os_remove. case_bool_decide as Hin; simpl.
  - split; [done |]. split; [done |]. by left.
  - split; [set_solver |]. split; [done |]. by right.
Qed.

Lemma os_remove_frame X O p w0 w :
  frame X O w0 w → frame (X ∖ {[p]}) (O ∖ {[p]}) w0 (os_remove p w).2.
Proof.
  intros ([Hc Hl] & HL & HF).
  destruct (os_remove_state p w) as (Hfs & Hr & [Ht | [Hp Ht]]);
    unfold frame, good; rewrite Hfs, Hr, Ht; simpl.
  - split; [split; [done |] |]; set_solver.
  - split; [split; [done |] |]; set_solver.
Qed.

Lemma os_remove_ok p w :
  p ∈ fs w → ∃ w', os_remove p w = (Ok tt, w').
Proof. intros H. unfold os_remove. rewrite bool_decide_eq_true_2 by done. by eexists. Qed.

(** what a process adds to the files *)
Lemma execute_state args ig w :
  let w' := (execute args ig w).2 in
  (w' = w ∧ replies w = []) ∨
  ∃ r, replies w = r :: replies w'
       ∧ fs w' = list_to_set (tool_writes args (produced r)) ∪ fs w
       ∧ trace w' = EvExec args r :: trace w.
Proof.
  unfold execute. destruct (replies w) as [|r rs] eqn:Hr; simpl; [by left |].
  right. exists r. by destruct (_ && _).
Qed.

Lemma tool_writes_out args n out :
  is_separate args = false → last args = Some out →
  tool_writes args n ⊆ [out].
Proof.
  intros Hs Hl. unfold tool_writes. destruct args as [|tool args]; [done |].
  destruct (in_list tool _); [set_solver |].
  unfold is_separate in Hs. apply bool_decide_eq_false in Hs.
  case_bool_decide as Ht.
  { exfalso. apply Hs. simpl. by f_equal. }
  rewrite Hl. destruct n; set_solver.
Qed.

(** a tool other than [pdfseparate] adds at most its output file *)
Lemma execute_frame args ig out w :
  is_separate args = false → last args = Some out →
  good w → frame ∅ {[out]} w (execute args ig w).2 ∧ fs w ⊆ fs (execute args ig w).2.
Proof.
  intros Hs Hl [Hc HL].
  destruct (execute_state args ig w) as [[-> _] | (r & Hr & Hfs & Ht)].
  { split; [| done]. split; [done |]. set_solver. }
  pose proof (tool_writes_out args (produced r) out Hs Hl) as Hw.
  unfold frame, good. rewrite Hfs, Ht. simpl. rewrite Hs.
  rewrite Hr in Hc. apply consistent_tail in Hc.
  assert (list_to_set (tool_writes args (produced r)) ⊆@{gset string} {[out]}) as Hw'.
  { intros x Hx. apply elem_of_list_to_set in Hx. apply Hw in Hx. set_solver. }
  split; [split; [split; [done |] |] |]; set_solver.
Qed.

Lemma bind_state {A B} (m : M A) (f : A → M B) w :
  ((m ≫= f) w).2 = match m w with
                   | (Ok a, w1) => (f a w1).2
                   | (Raise _, w1) => w1
                   end.
Proof. unfold mbind, M_bind. by destruct (m w) as [[a|e] w1]. Qed.

Lemma adds_ret {A} O (a : A) : adds O (mret a : M A).
Proof. intros w. simpl. set_solver. Qed.

Lemma adds_lift {A} O (r : res A) : adds O (lift r).
Proof. intros w. simpl. set_solver. Qed.

Lemma adds_weaken {A} O O' (m : M A) : adds O m → O ⊆ O' → adds O' m.
Proof. intros H HO w. destruct (H w) as [H1 H2]. set_solver. Qed.

Lemma adds_bind {A B} O (m : M A) (f : A → M B) :
  adds O m → (∀ a, adds O (f a)) → adds O (m ≫= f).
Proof.
  intros Hm Hf w. rewrite bind_state. destruct (Hm w) as [H1 H2].
  destruct (m w) as [[a|e] w1]; simpl in *; [| done].
  destruct (Hf a w1) as [H3 H4]. set_solver.
Qed.

Lemma adds_execute args ig out :
  is_separate args = false → last args = Some out → adds {[out]} (execute args ig).
Proof.
  intros Hs Hl w.
  destruct (execute_state args ig w) as [[-> _] | (r & Hr & Hfs & Ht)]; [set_solver |].
  pose proof (tool_writes_out args (produced r) out Hs Hl) as Hw.
  rewrite Hfs. split; [set_solver |].
  intros x Hx. apply elem_of_union in Hx as [Hx | Hx]; [| set_solver].
  apply elem_of_list_to_set in Hx. apply Hw in Hx. set_solver.
Qed.

(** a temporary file made, used and removed *)
Lemma adds_temp {A B} O prefix suffix (body : string → M A) (k : A → M B) :
  (∀ p, adds ({[p]} ∪ O) (body p)) → (∀ a, adds O (k a)) →
  adds O (p ← mktemp prefix suffix;
          a ← try_finally (body p) (os_remove p); k a).
Proof.
  intros Hb Hk w. rewrite bind_state.
  destruct (mktemp prefix suffix w) as [[p|e] w1] eqn:Hm.
  2: { apply mktemp_raise in Hm as (Hfs & _). rewrite Hfs. set_solver. }
  apply mktemp_ok in Hm as (Hp & Hfs & _).
  rewrite bind_state. unfold try_finally.
  destruct (Hb p w1) as [H1 H2].
  destruct (body p w1) as [r w3]; simpl in H1, H2.
  destruct (os_remove_state p w3) as (Hfs4 & _).
  assert (fs w ⊆ fs (os_remove p w3).2 ∧ fs (os_remove p w3).2 ⊆ fs w ∪ O) as [H5 H6].
  { rewrite Hfs4. rewrite Hfs in H1, H2. clear -Hp H1 H2. set_solver. }
  clear Hfs4 H1 H2 Hfs Hp.
  destruct (os_remove p w3) as [[[]|e] w4]; simpl in H5, H6; [| by split].
  destruct r as [a|e]; simpl; [| by split].
  destruct (Hk a w4) as [H3 H4]. clear -H3 H4 H5 H6. set_solver.
Qed.

Lemma framed_ret {A} X O (a : A) : framed X O (mret a : M A).
Proof.
  intros w Hw. eapply frame_weaken; [by apply frame_refl | |]; set_solver.
Qed.

Lemma framed_lift {A} X O (r : res A) : framed X O (lift r).
Proof.
  intros w Hw. eapply frame_weaken; [by apply frame_refl | |]; set_solver.
Qed.

Lemma framed_weaken {A} X O X' O' (m : M A) :
  framed X O m → X ⊆ X' → X ∪ O ⊆ X' ∪ O' → framed X' O' m.
Proof. intros H HX HO w Hw. eapply frame_weaken; [by apply H | done | done]. Qed.

Lemma framed_bind {A B} X O (m : M A) (f : A → M B) :
  framed X O m → (∀ a, framed X O (f a)) → framed X O (m ≫= f).
Proof.
  intros Hm Hf w Hw. rewrite bind_state. specialize (Hm w Hw).
  destruct (m w) as [[a|e] w1]; simpl in *; [| done].
  eapply frame_weaken; [eapply frame_trans; [exact Hm | apply Hf, Hm] | |]; set_solver.
Qed.

Lemma framed_execute args ig out :
  is_separate args = false → last args = Some out →
  framed ∅ {[out]} (execute args ig).
Proof. intros Hs Hl w Hw. by apply execute_frame. Qed.

Lemma framed_temp {A B} X O prefix suffix (body : string → M A) (k : A → M B) :
  (∀ p, framed X ({[p]} ∪ O) (body p)) → (∀ a, framed X O (k a)) →
  framed X O (p ← mktemp prefix suffix;
              a ← try_finally (body p) (os_remove p); k a).
Proof.
  intros Hb Hk w Hw. rewrite bind_state.
  destruct (mktemp prefix suffix w) as [[p|e] w1] eqn:Hm.
  2: { eapply frame_weaken; [by eapply mktemp_raise_frame | |]; set_solver. }
  apply mktemp_frame in Hm; [| done].
  rewrite bind_state. unfold try_finally.
  pose proof (Hb p w1 (proj1 Hm)) as H3.
  destruct (body p w1) as [r w3]; simpl in H3.
  assert (frame X O w (os_remove p w3).2) as H4.
  { eapply frame_weaken;
      [eapply (os_remove_frame _ _ p), frame_trans; [exact Hm | exact H3] | |];
      clear; set_solver. }
  clear Hm H3.
  destruct (os_remove p w3) as [[[]|e] w4]; simpl in H4; [| done].
  destruct r as [a|e]; simpl; [| done].
  eapply frame_weaken; [eapply frame_trans; [exact H4 | apply Hk, H4] | |];
    clear; set_solver.
Qed.

(** *** The wrappers *)

Lemma bind_ret_r {A} (m : M A) w : (a ← m; mret a) w = m w.
Proof. unfold mbind, M_bind. by destruct (m w) as [[a|e] w1]. Qed.

Lemma adds_ext {A} O (m m' : M A) : (∀ w, m w = m' w) → adds O m → adds O m'.
Proof. intros E H w. rewrite <- E. apply H. Qed.

Lemma framed_ext {A} X O (m m' : M A) :
  (∀ w, m w = m' w) → framed X O m → framed X O m'.
Proof. intros E H w Hw. rewrite <- E. by apply H. Qed.

Lemma bind_bind_ret {A B} (m : M A) (f : A → M B) w :
  (a ← m; b ← f a; mret b) w = (a ← m; f a) w.
Proof.
  unfold mbind, M_bind. destruct (m w) as [[a|e] w1]; [| done].
  by destruct (f a w1) as [[b|e] w2].
Qed.

Lemma adds_temp0 {A} O prefix suffix (body : string → M A) :
  (∀ p, adds ({[p]} ∪ O) (body p)) →
  adds O (p ← mktemp prefix suffix; try_finally (body p) (os_remove p)).
Proof.
  intros Hb. eapply adds_ext; [intros w; apply bind_bind_ret |].
  apply adds_temp; [done |]. intros a. apply adds_ret.
Qed.

Lemma framed_temp0 {A} X O prefix suffix (body : string → M A) :
  (∀ p, framed X ({[p]} ∪ O) (body p)) →
  framed X O (p ← mktemp prefix suffix; try_finally (body p) (os_remove p)).
Proof.
  intros Hb. eapply framed_ext; [intros w; apply bind_bind_ret |].
  apply framed_temp; [done |].
  intros a. apply framed_ret.
Qed.

Lemma last_app_skip {A} (l1 l2 : list A) x : last l2 = Some x → last (l1 ++ l2) = Some x.
Proof. intros H. by rewrite last_app, H. Qed.

Ltac solve_last :=
  repeat first [reflexivity | apply last_app_skip].

Lemma tool_writes_none tool args n :
  in_list tool ["pdfinfo"; "lpr"] = true → tool_writes (tool :: args) n = [].
Proof. intros H. unfold tool_writes. by rewrite H. Qed.

Lemma adds_execute_none tool args ig :
  in_list tool ["pdfinfo"; "lpr"] = true → adds ∅ (execute (tool :: args) ig).
Proof.
  intros Ht w.
  destruct (execute_state (tool :: args) ig w) as [[-> _] | (r & Hr & Hfs & _)];
    [set_solver |].
  rewrite Hfs, tool_writes_none by done. set_solver.
Qed.

Lemma framed_execute_none tool args ig :
  in_list tool ["pdfinfo"; "lpr"] = true → framed ∅ ∅ (execute (tool :: args) ig).
Proof.
  intros Ht w [Hc HL].
  destruct (execute_state (tool :: args) ig w) as [[-> _] | (r & Hr & Hfs & Htr)].
  { by apply frame_refl. }
  assert (is_separate (tool :: args) = false) as Hs.
  { unfold is_separate. simpl. apply bool_decide_eq_false. intros [= ->]. done. }
  unfold frame, good. rewrite Hfs, Htr, tool_writes_none by done. simpl. rewrite Hs.
  rewrite Hr in Hc. apply consistent_tail in Hc.
  split; [split; [done |] |]; set_solver.
Qed.

(** a wrapper that runs one tool *)
Lemma adds_tool args out :
  is_separate args = false → last args = Some out →
  adds {[out]} (execute args false;; mret tt).
Proof.
  intros Hs Hl. apply adds_bind; [by apply adds_execute |].
  intros _. apply adds_ret.
Qed.

Lemma framed_tool args out :
  is_separate args = false → last args = Some out →
  framed ∅ {[out]} (execute args false;; mret tt).
Proof.
  intros Hs Hl. apply framed_bind; [by apply framed_execute |].
  intros _. apply framed_ret.
Qed.

Lemma adds_pdfbook in_path out_path short_edge frame paper :
  adds {[out_path]} (pdfbook in_path out_path short_edge frame paper).
Proof. apply adds_tool; [done | solve_last]. Qed.

Lemma framed_pdfbook in_path out_path short_edge frame paper :
  framed ∅ {[out_path]} (pdfbook in_path out_path short_edge frame paper).
Proof. apply framed_tool; [done | solve_last]. Qed.

Lemma adds_pdfjam in_path out_path sel raw landscape margins paper :
  adds {[out_path]} (pdfjam in_path out_path sel raw landscape margins paper).
Proof. apply adds_tool; [done | solve_last]. Qed.

Lemma framed_pdfjam in_path out_path sel raw landscape margins paper :
  framed ∅ {[out_path]} (pdfjam in_path out_path sel raw landscape margins paper).
Proof. apply framed_tool; [done | solve_last]. Qed.

Lemma framed_pdfunite in_paths out_path :
  framed ∅ {[out_path]} (pdfunite in_paths out_path).
Proof. apply framed_tool; [done | solve_last]. Qed.

Lemma adds_enscript in_path out_path language paper font margins :
  adds {[out_path]} (enscript in_path out_path language paper font margins).
Proof.
  unfold enscript. apply adds_temp0.
  intros p. apply adds_bind.
  { eapply adds_weaken; [apply (adds_execute _ _ p); [done | solve_last] | set_solver]. }
  intros _. apply adds_bind.
  { eapply adds_weaken; [apply (adds_execute _ _ out_path); [done | solve_last] | set_solver]. }
  intros _. apply adds_ret.
Qed.

Lemma framed_enscript in_path out_path language paper font margins :
  framed ∅ {[out_path]} (enscript in_path out_path language paper font margins).
Proof.
  unfold enscript. apply framed_temp0.
  intros p. apply framed_bind.
  { eapply framed_weaken; [apply (framed_execute _ _ p); [done | solve_last] | |]; set_solver. }
  intros _. apply framed_bind.
  { eapply framed_weaken; [apply (framed_execute _ _ out_path); [done | solve_last] | |]; set_solver. }
  intros _. apply framed_ret.
Qed.

Lemma adds_raise {A} O (e : exn) : adds O (raise e : M A).
Proof. intros w. simpl. set_solver. Qed.

Lemma framed_raise {A} X O (e : exn) : framed X O (raise e : M A).
Proof.
  intros w Hw. eapply frame_weaken; [by apply frame_refl | |]; set_solver.
Qed.

Lemma adds_File_generate self path : adds {[path]} (File_generate self path).
Proof.
  unfold File_generate. destruct (File_class self).
  - apply adds_raise.
  - apply adds_bind; [apply adds_pdfjam |].
    intros _. apply adds_ret.
  - apply adds_bind; [apply adds_enscript |].
    intros _. apply adds_ret.
Qed.

Lemma framed_File_generate self path : framed ∅ {[path]} (File_generate self path).
Proof.
  unfold File_generate. destruct (File_class self).
  - apply framed_raise.
  - apply framed_bind; [apply framed_pdfjam |].
    intros _. apply framed_ret.
  - apply framed_bind; [apply framed_enscript |].
    intros _. apply framed_ret.
Qed.

Lemma adds_Book_generate content path : adds {[path]} (Book_generate content path).
Proof.
  unfold Book_generate. apply adds_temp; [| intros a; apply adds_ret].
  intros p. apply adds_bind.
  { eapply adds_weaken; [apply adds_File_generate | set_solver]. }
  intros res. apply adds_bind.
  { apply adds_lift. }
  intros _. eapply adds_weaken; [apply adds_pdfbook | set_solver].
Qed.

Lemma framed_Book_generate content path :
  framed ∅ {[path]} (Book_generate content path).
Proof.
  unfold Book_generate.
  apply framed_temp; [| intros a; apply framed_ret].
  intros p. apply framed_bind.
  { eapply framed_weaken; [apply framed_File_generate | |]; set_solver. }
  intros res. apply framed_bind.
  { apply framed_lift. }
  intros _. eapply framed_weaken; [apply framed_pdfbook | |]; set_solver.
Qed.

Lemma adds_pdfinfo path : adds ∅ (pdfinfo path).
Proof.
  unfold pdfinfo. apply adds_bind; [by apply adds_execute_none |].
  intros r. apply adds_lift.
Qed.

Lemma framed_pdfinfo path : framed ∅ ∅ (pdfinfo path).
Proof.
  unfold pdfinfo. apply framed_bind; [by apply framed_execute_none |].
  intros r. apply framed_lift.
Qed.

(** *** [pdfselect] *)

Lemma execute_ok args ig w r w' :
  execute args ig w = (Ok r, w') →
  replies w = r :: replies w'
  ∧ fs w' = list_to_set (tool_writes args (produced r)) ∪ fs w
  ∧ trace w' = EvExec args r :: trace w
  ∧ stdin w' = stdin w
  ∧ (ig = false → returncode r = 0).
Proof.
  unfold execute. destruct (replies w) as [|r0 rs] eqn:Hr; [done |].
  destruct ig; simpl.
  - intros H. injection H as <- <-. by simpl.
  - destruct (returncode r0 =? 0) eqn:Hrc; simpl; [| done].
    intros H. injection H as <- <-. simpl. repeat split; try done.
    intros _. by apply Z.eqb_eq.
Qed.

Lemma execute_keeps args ig w : fs w ⊆ fs (execute args ig w).2.
Proof.
  destruct (execute_state args ig w) as [[-> _] | (r & _ & Hfs & _)]; [done |].
  rewrite Hfs. set_solver.
Qed.

Lemma pdfinfo_ok path w info w' :
  pdfinfo path w = (Ok info, w') →
  ∃ r, replies w = r :: replies w'
       ∧ pdfinfo_parse (stdout r) = Ok info
       ∧ fs w' = fs w
       ∧ trace w' = EvExec ["pdfinfo"; path] r :: trace w
       ∧ stdin w' = stdin w.
Proof.
  unfold pdfinfo, mbind, M_bind.
  destruct (execute ["pdfinfo"; path] false w) as [[r|e] w1] eqn:He; [| done].
  apply execute_ok in He as (Hr & Hfs & Ht & Hi & _).
  unfold lift. intros H. injection H as Hp <-.
  exists r. repeat split; try done.
  rewrite Hfs. rewrite tool_writes_none by done. set_solver.
Qed.

(** after [pdfinfo] has reported [n] pages, the next process writes at
    most [n] files *)
Lemma pages_bound path w info w' n :
  good w → pdfinfo path w = (Ok info, w') → getitem_int info "Pages" = Ok n →
  ∀ r2 rs, replies w' = r2 :: rs → Z.of_nat (produced r2) ≤ n.
Proof.
  intros [Hc _] Hi Hn r2 rs Hr.
  apply pdfinfo_ok in Hi as (r & Hrs & Hp & _).
  rewrite Hrs, Hr in Hc. simpl in Hc.
  unfold reported_pages in Hc. rewrite Hp, Hn in Hc.
  apply andb_true_iff in Hc as [Hc _]. by apply Z.leb_le.
Qed.

Lemma py_range_upto n x : x ∈ py_range 0 n 1 ↔ 0 ≤ x < n.
Proof.
  unfold py_range. simpl.
  replace (n - 0 + 1 - 1) with n by lia. rewrite Z.div_1_r.
  rewrite list_elem_of_fmap. split.
  - intros (i & -> & Hi). apply elem_of_seq in Hi. lia.
  - intros Hx. exists (Z.to_nat x). split; [lia |]. apply elem_of_seq. lia.
Qed.

Lemma separate_writes in_path template produced n :
  Z.of_nat produced ≤ n →
  list_to_set (tool_writes ["pdfseparate"; in_path; template] produced)
    ⊆ page_files template n.
Proof.
  intros Hn x Hx. apply elem_of_list_to_set in Hx.
  change (tool_writes ["pdfseparate"; in_path; template] produced)
    with (map (λ k, percent_d template (Z.of_nat k)) (seq 1 produced)) in Hx.
  apply list_elem_of_fmap in Hx as (k & -> & Hk). apply elem_of_seq in Hk.
  apply elem_of_list_to_set, list_elem_of_fmap.
  exists (Z.of_nat k - 1). split; [f_equal; lia |]. apply py_range_upto. lia.
Qed.

Lemma pdfseparate_frame in_path template n w :
  good w → (∀ r2 rs, replies w = r2 :: rs → Z.of_nat (produced r2) ≤ n) →
  frame (page_files template n) ∅ w (pdfseparate in_path template w).2.
Proof.
  intros [Hc HL] Hb. unfold pdfseparate. rewrite bind_state.
  set (args := ["pdfseparate"] ++ [in_path] ++ [template]).
  destruct (execute_state args false w) as [[E Hr] | (r & Hr & Hfs & Ht)].
  { assert (frame (page_files template n) ∅ w (execute args false w).2) as H.
    { rewrite E. eapply frame_weaken; [by apply frame_refl | |]; set_solver. }
    by destruct (execute args false w) as [[r|e] w1]. }
  assert (frame (page_files template n) ∅ w (execute args false w).2) as H.
  { pose proof (separate_writes in_path template (produced r) n (Hb _ _ Hr)) as Hw.
    unfold frame, good. rewrite Hfs, Ht. simpl.
    change (is_separate args) with true. cbn iota.
    rewrite Hr in Hc. apply consistent_tail in Hc.
    unfold args. simpl app.
    split; [split; [done |] |]; set_solver. }
  by destruct (execute args false w) as [[r0|e] w1].
Qed.

(** the loop that removes the page files *)
Lemma cleanup_loop (f : Z → string) l w :
  ∃ w', for_each l (λ i, e ← os_path_exists (f i);
                         if e : bool then os_remove (f i) else mret tt) w
        = (Ok tt, w')
        ∧ ∀ X O w0, frame X O w0 w →
            frame (X ∖ list_to_set (f <$> l)) (O ∖ list_to_set (f <$> l)) w0 w'.
Proof.
  revert w. induction l as [|i l IH]; intros w.
  - exists w. split; [done |]. intros X O w0 H.
    eapply frame_weaken; [exact H | |]; set_solver.
  - cbn [for_each]. unfold mbind at 1, M_bind at 1.
    assert (∃ w1, (e ← os_path_exists (f i);
                   if e : bool then os_remove (f i) else mret tt) w = (Ok tt, w1)
                  ∧ w1 = (os_remove (f i) w).2) as (w1 & -> & Hw1).
    { unfold mbind, M_bind, os_path_exists, os_remove, mret, M_ret. cbn beta iota.
      destruct (bool_decide (f i ∈ fs w)) eqn:E; cbn beta iota; rewrite ?E;
        eexists; split; reflexivity. }
    destruct (IH w1) as (w' & -> & Hf). exists w'. split; [done |].
    intros X O w0 H. subst w1.
    eapply frame_weaken; [apply Hf, os_remove_frame, H | |];
      rewrite fmap_cons, list_to_set_cons; set_solver.
Qed.

Lemma framed_pdfselect in_path out_path selection :
  framed ∅ {[out_path]} (pdfselect in_path out_path selection).
Proof.
  intros w Hw. unfold pdfselect. rewrite bind_state.
  pose proof (framed_pdfinfo in_path w Hw) as H1.
  destruct (pdfinfo in_path w) as [[info|e] w1] eqn:Hi; simpl in H1.
  2: { eapply frame_weaken; [exact H1 | |]; set_solver. }
  destruct (pdfinfo_ok _ _ _ _ Hi) as (r1 & _ & Hp & _).
  destruct (pdfinfo_parse_getitem _ _ Hp) as [n Hn].
  pose proof (pages_bound _ _ _ _ _ Hw Hi Hn) as Hb.
  rewrite bind_state.
  destruct (mktemp "booker-" "-page" w1) as [[base|e] w2] eqn:Hm.
  2: { eapply frame_weaken;
         [eapply frame_trans; [exact H1 | eapply mktemp_raise_frame; [apply H1 | exact Hm]] | |];
         set_solver. }
  destruct (mktemp_ok _ _ _ _ _ Hm) as (_ & Hfs2 & _ & Hr2 & _).
  apply mktemp_frame in Hm; [| apply H1].
  rewrite <- Hr2 in Hb.
  set (template := base +:+ "-%d.pdf").
  pose proof (pdfseparate_frame in_path template n w2 (proj1 Hm) Hb) as H3.
  assert (fs w2 ⊆ fs (pdfseparate in_path template w2).2) as K3.
  { unfold pdfseparate. rewrite bind_state.
    pose proof (execute_keeps (["pdfseparate"] ++ [in_path] ++ [template]) false w2) as K.
    by destruct (execute _ false w2) as [[r|e] w3]. }
  unfold try_finally.
  (* the state after the body *)
  assert (∃ rb wb,
            (pdfseparate in_path template;;
             pdfunite (map (percent_d template) selection) out_path) w2 = (rb, wb)
            ∧ frame (page_files template n) {[out_path]} w2 wb
            ∧ fs w2 ⊆ fs wb) as (rb & wb & -> & H4 & K4).
  { unfold mbind at 1, M_bind at 1.
    destruct (pdfseparate in_path template w2) as [[[]|e] w3]; simpl in H3, K3.
    - pose proof (framed_pdfunite (map (percent_d template) selection) out_path w3
                    (proj1 H3)) as H5.
      pose proof (adds_tool (["pdfunite"] ++ map (percent_d template) selection
                             ++ [out_path]) out_path eq_refl ltac:(solve_last) w3)
        as [K5 _].
      fold (pdfunite (map (percent_d template) selection) out_path) in K5.
      destruct (pdfunite _ out_path w3) as [rb wb]; simpl in H5, K5.
      exists rb, wb. split; [done |]. split; [| set_solver].
      eapply frame_weaken; [eapply frame_trans; [exact H3 | exact H5] | |]; set_solver.
    - exists (Raise e), w3. split; [done |]. split; [| done].
      eapply frame_weaken; [exact H3 | |]; set_solver. }
  (* the cleanup *)
  assert (base ∈ fs wb) as Hbase by set_solver.
  destruct (os_remove_ok base wb Hbase) as [w5 Hrm].
  pose proof (os_remove_frame _ _ base _ _
                (frame_trans _ _ _ _ _ _ _ (frame_trans _ _ _ _ _ _ _ H1 Hm) H4)) as H6.
  rewrite Hrm in H6. simpl in H6.
  destruct (cleanup_loop (λ i, percent_d template (i + 1)) (py_range 0 n 1) w5)
    as (w6 & Hloop & Hf).
  assert ((os_remove base;;
           pages ← lift (getitem_int info "Pages");
           for_each (py_range 0 pages 1) (λ i,
             e ← os_path_exists (percent_d template (i + 1));
             if e : bool then os_remove (percent_d template (i + 1))
             else mret tt)) wb = (Ok tt, w6)) as ->.
  { unfold mbind at 1, M_bind at 1. rewrite Hrm.
    unfold mbind at 1, M_bind at 1, lift. rewrite Hn. exact Hloop. }
  simpl. eapply frame_weaken; [apply Hf, H6 | |]; unfold page_files; set_solver.
Qed.

(** *** [SinglePageBook.generate] *)

Lemma framed_SinglePageBook_generate content path odd_path even_path :
  framed ∅ {[ re_sub py re_stem_ext [TGrp 1; TLit "-odd"; TGrp 2] path;
              re_sub py re_stem_ext [TGrp 1; TLit "-even"; TGrp 2] path ]}
    (SinglePageBook_generate content path odd_path even_path).
Proof.
  unfold SinglePageBook_generate.
  apply framed_temp; [| intros a; apply framed_ret].
  intros p. apply framed_bind.
  { eapply framed_weaken; [apply framed_Book_generate | |]; set_solver. }
  intros res. apply framed_bind; [apply framed_lift |].
  intros _. apply framed_bind.
  { eapply framed_weaken; [apply framed_pdfinfo | |]; set_solver. }
  intros info. apply framed_bind; [apply framed_lift |].
  intros pages_count. apply framed_bind; [apply framed_lift |].
  intros _. apply framed_bind.
  { eapply framed_weaken; [apply framed_pdfselect | |]; set_solver. }
  intros _. eapply framed_weaken; [apply framed_pdfselect | |]; set_solver.
Qed.


(** *** The two streams of pages *)

Lemma py_range_odd n : py_range 1 n 2 = odd_pages n.
Proof.
  unfold py_range, odd_pages. simpl.
  replace (n - 1 + 2 - 1) with n by lia.
  apply map_ext. intros k. lia.
Qed.

Lemma py_range_even n : py_range n 1 (-2) = even_pages n.
Proof.
  unfold py_range, even_pages. simpl.
  replace (n - 1 - -2 - 1) with n by lia.
  apply map_ext. intros k. lia.
Qed.

Lemma odd_pages_length n : length (odd_pages n) = Z.to_nat (n / 2).
Proof. unfold odd_pages. by rewrite length_map, length_seq. Qed.

Lemma even_pages_length n : length (even_pages n) = Z.to_nat (n / 2).
Proof. unfold even_pages. by rewrite length_map, length_seq. Qed.

Lemma odd_pages_lookup n (k : nat) :
  (k < Z.to_nat (n / 2))%nat → odd_pages n !! k = Some (2 * Z.of_nat k + 1).
Proof.
  intros Hk. unfold odd_pages.
  rewrite list_lookup_fmap, lookup_seq_lt by done. done.
Qed.

Lemma even_pages_lookup n (k : nat) :
  (k < Z.to_nat (n / 2))%nat → even_pages n !! k = Some (n - 2 * Z.of_nat k).
Proof.
  intros Hk. unfold even_pages.
  rewrite list_lookup_fmap, lookup_seq_lt by done. done.
Qed.

(** for an even [n], the odd stream is exactly the odd indices of
    1..n, and the even stream exactly the even ones *)
Lemma odd_pages_elem n x :
  Z.even n = true → x ∈ odd_pages n ↔ 1 ≤ x ≤ n - 1 ∧ Z.odd x = true.
Proof.
  intros Hn. apply Zeven_bool_iff, Zeven_ex_iff in Hn as [m ->].
  unfold odd_pages. rewrite list_elem_of_fmap.
  replace (2 * m / 2) with m by (rewrite Z.mul_comm, Z.div_mul; lia).
  split.
  - intros (k & -> & Hk). apply elem_of_seq in Hk.
    split; [lia |]. rewrite Z.add_comm, Z.odd_add_mul_2. done.
  - intros [Hx Ho]. apply Zodd_bool_iff, Zodd_ex_iff in Ho as [j ->].
    exists (Z.to_nat j). split; [lia |]. apply elem_of_seq. lia.
Qed.

Lemma even_pages_elem n x :
  Z.even n = true → x ∈ even_pages n ↔ 2 ≤ x ≤ n ∧ Z.even x = true.
Proof.
  intros Hn. apply Zeven_bool_iff, Zeven_ex_iff in Hn as [m ->].
  unfold even_pages. rewrite list_elem_of_fmap.
  replace (2 * m / 2) with m by (rewrite Z.mul_comm, Z.div_mul; lia).
  split.
  - intros (k & -> & Hk). apply elem_of_seq in Hk.
    split; [lia |]. apply Zeven_bool_iff, Zeven_ex_iff. exists (m - Z.of_nat k). lia.
  - intros [Hx He]. apply Zeven_bool_iff, Zeven_ex_iff in He as [j ->].
    exists (Z.to_nat (m - j)). split; [lia |]. apply elem_of_seq. lia.
Qed.

Lemma map_seq_sorted (R : Z → Z → Prop) (f : nat → Z) a len :
  (∀ i j, (i < j)%nat → R (f i) (f j)) →
  StronglySorted R (map f (seq a len)).
Proof.
  intros Hf. revert a. induction len as [|len IH]; intros a; simpl.
  - constructor.
  - constructor; [apply IH |].
    apply Forall_forall. intros x Hx.
    apply list_elem_of_fmap in Hx as (j & -> & Hj). apply elem_of_seq in Hj.
    apply Hf. lia.
Qed.

Lemma odd_pages_ascending n : StronglySorted Z.lt (odd_pages n).
Proof. apply map_seq_sorted. intros i j Hij. lia. Qed.

Lemma even_pages_descending n : StronglySorted Z.gt (even_pages n).
Proof. apply map_seq_sorted. intros i j Hij. lia. Qed.

(** *** The stages of [SinglePageBook.generate] *)

Lemma try_finally_bind_ok {A B} (m : M A) (f : A → M B) fin w a w1 :
  m w = (Ok a, w1) → try_finally (m ≫= f) fin w = try_finally (f a) fin w1.
Proof. intros H. unfold try_finally, mbind, M_bind. by rewrite H. Qed.

Lemma Book_generate_result content path w res w' :
  Book_generate content path w = (Ok res, w') → res = [path].
Proof.
  unfold Book_generate. unfold mbind at 1, M_bind at 1.
  destruct (mktemp "booker-" ".pdf" w) as [[p|e] w1]; [| done].
  unfold mbind at 1, M_bind at 1.
  destruct (try_finally _ _ w1) as [[u|e] w2]; [| done].
  intros H. by injection H as <- _.
Qed.

(** once the booklet is there and its pages are counted, what is left
    of [SinglePageBook.generate] *)
Lemma SinglePageBook_stages content path odd_path even_path
    w book_path w1 res w2 info w3 n :
  mktemp "booker-" ".pdf" w = (Ok book_path, w1) →
  Book_generate content book_path w1 = (Ok res, w2) →
  pdfinfo book_path w2 = (Ok info, w3) →
  getitem_int info "Pages" = Ok n →
  SinglePageBook_generate content path odd_path even_path w
  = (try_finally
       (lift (assert (n `mod` 2 =? 0));;
        pdfselect book_path (odd_name path) (py_range 1 n 2);;
        pdfselect book_path (even_name path) (py_range n 1 (-2)))
       (os_remove book_path);;
     mret [odd_name path; even_name path]) w3.
Proof.
  intros Hm Hb Hi Hn. unfold SinglePageBook_generate.
  unfold mbind at 1, M_bind at 1. rewrite Hm.
  pose proof (Book_generate_result _ _ _ _ _ Hb) as ->.
  unfold mbind at 1, M_bind at 1. unfold mbind at 7, M_bind at 7.
  erewrite try_finally_bind_ok; [| exact Hb].
  erewrite try_finally_bind_ok.
  2: { unfold lift, paths_eqb. rewrite bool_decide_eq_true_2 by done. reflexivity. }
  erewrite try_finally_bind_ok; [| exact Hi].
  erewrite try_finally_bind_ok; [| unfold lift; rewrite Hn; reflexivity].
  reflexivity.
Qed.

(** the booklet is still there when its pages have been counted *)
Lemma SinglePageBook_booklet content w book_path w1 res w2 info w3 :
  mktemp "booker-" ".pdf" w = (Ok book_path, w1) →
  Book_generate content book_path w1 = (Ok res, w2) →
  pdfinfo book_path w2 = (Ok info, w3) →
  book_path ∈ fs w3 ∧ fs w3 ∖ {[book_path]} = fs w.
Proof.
  intros Hm Hb Hi.
  apply mktemp_ok in Hm as (Hp & Hfs1 & _).
  destruct (adds_Book_generate content book_path w1) as [K1 K2].
  rewrite Hb in K1, K2. simpl in K1, K2.
  apply pdfinfo_ok in Hi as (_ & _ & _ & Hfs3 & _).
  rewrite Hfs3. rewrite Hfs1 in K1, K2. clear -Hp K1 K2. set_solver.
Qed.

(** C2. When the booklet was generated and [pdfinfo] counts an odd
    number of pages in it, [SinglePageBook.generate] raises the
    [AssertionError] of its evenness check; the only thing it does after
    the count is to remove the booklet, so that no page is separated and
    no output written, and the files it leaves are those there were
    before the call. *)
Theorem odd_page_count_fails content path odd_path even_path
    w book_path w1 res w2 info w3 n :
  mktemp "booker-" ".pdf" w = (Ok book_path, w1) →
  Book_generate content book_path w1 = (Ok res, w2) →
  pdfinfo book_path w2 = (Ok info, w3) →
  getitem_int info "Pages" = Ok n →
  Z.odd n = true →
  ∃ w', SinglePageBook_generate content path odd_path even_path w
        = (Raise AssertionError, w')
        ∧ trace w' = EvRemove book_path :: trace w3
        ∧ replies w' = replies w3
        ∧ (book_path ∉ fs w')
        ∧ fs w' = fs w.
Proof.
  intros Hm Hb Hi Hn Hodd.
  rewrite (SinglePageBook_stages _ _ _ _ _ _ _ _ _ _ _ _ Hm Hb Hi Hn).
  destruct (SinglePageBook_booklet _ _ _ _ _ _ _ _ Hm Hb Hi) as [Hin Hfs].
  assert ((n `mod` 2 =? 0) = false) as ->.
  { apply Z.eqb_neq. rewrite Zmod_odd, Hodd. done. }
  unfold mbind, M_bind, try_finally, lift, assert, os_remove. simpl.
  rewrite bool_decide_eq_true_2 by done.
  eexists. split; [reflexivity |]. simpl.
  repeat split; try done. set_solver.
Qed.

(** *** The commands of a run *)

Lemma commands_app t1 t2 : commands (t1 ++ t2) = commands t2 ++ commands t1.
Proof.
  induction t1 as [|e t1 IH]; simpl; [by rewrite app_nil_r |].
  destruct e; try done. by rewrite IH, app_assoc.
Qed.

Lemma os_remove_trace p w r w' :
  os_remove p w = (r, w') →
  ∃ t, trace w' = t ++ trace w ∧ commands t = [].
Proof.
  unfold os_remove. case_bool_decide; intros E; injection E as _ <-.
  - by exists [EvRemove p].
  - by exists [].
Qed.

Lemma cleanup_step_trace (f : Z → string) i w r w' :
  (e ← os_path_exists (f i);
   if e : bool then os_remove (f i) else mret tt) w = (r, w') →
  ∃ t, trace w' = t ++ trace w ∧ commands t = [].
Proof.
  unfold mbind, M_bind, os_path_exists. cbn beta iota.
  destruct (bool_decide (f i ∈ fs w)).
  - apply os_remove_trace.
  - intros [= <- <-]. by exists [].
Qed.

Lemma cleanup_loop_trace (f : Z → string) l w r w' :
  for_each l (λ i, e ← os_path_exists (f i);
                   if e : bool then os_remove (f i) else mret tt) w = (r, w') →
  ∃ t, trace w' = t ++ trace w ∧ commands t = [].
Proof.
  revert w. induction l as [|i l IH]; intros w.
  - intros [= <- <-]. by exists [].
  - cbn [for_each]. unfold mbind at 1, M_bind at 1.
    destruct ((e ← os_path_exists (f i);
               if e : bool then os_remove (f i) else mret tt) w)
      as [[[]|e] w1] eqn:Hb;
      apply cleanup_step_trace in Hb as (t1 & Ht1 & Hc1).
    + intros H. apply IH in H as (t2 & Ht2 & Hc2).
      exists (t2 ++ t1). rewrite Ht2, Ht1, app_assoc, commands_app, Hc1, Hc2. done.
    + intros [= <- <-]. by exists t1.
Qed.

(** the commands of a [pdfselect] that returns: the page count, the
    separation into page files, and the union of the selected page
    files, in the order of the selection, into the output *)
Lemma pdfselect_commands_base in_path out_path selection w w' :
  pdfselect in_path out_path selection w = (Ok tt, w') →
  ∃ base t info w1 w2,
    pdfinfo in_path w = (Ok info, w1)
    ∧ mktemp "booker-" "-page" w1 = (Ok base, w2)
    ∧ trace w' = t ++ trace w
    ∧ commands t =
        [ ["pdfinfo"; in_path];
          ["pdfseparate"; in_path; base +:+ "-%d.pdf"];
          ["pdfunite"] ++ map (percent_d (base +:+ "-%d.pdf")) selection
            ++ [out_path] ].
Proof.
  unfold pdfselect. unfold mbind at 1, M_bind at 1.
  destruct (pdfinfo in_path w) as [[info|e] w1] eqn:Hi; [| done].
  pose proof Hi as Hi0.
  apply pdfinfo_ok in Hi as (r1 & _ & _ & _ & Ht1 & _).
  unfold mbind at 1, M_bind at 1.
  destruct (mktemp "booker-" "-page" w1) as [[base|e] w2] eqn:Hm; [| done].
  pose proof Hm as Hm0.
  apply mktemp_ok in Hm as (_ & _ & Ht2 & _).
  match goal with |- context [try_finally _ ?f] => set (fin := f) end.
  unfold try_finally.
  unfold mbind at 1, M_bind at 1, pdfseparate.
  unfold mbind at 1, M_bind at 1.
  destruct (execute _ false w2) as [[r2|e] w3] eqn:Hs.
  2: { destruct (fin w3) as [[[]|e'] w4]; done. }
  apply execute_ok in Hs as (_ & _ & Ht3 & _).
  unfold mret at 1, M_ret at 1. unfold pdfunite.
  unfold mbind at 1, M_bind at 1.
  destruct (execute _ false w3) as [[r3|e] w4] eqn:Hu.
  2: { destruct (fin w4) as [[[]|e'] w5]; done. }
  apply execute_ok in Hu as (_ & _ & Ht4 & _).
  unfold mret at 1, M_ret at 1. unfold fin.
  unfold mbind at 1, M_bind at 1.
  destruct (os_remove base w4) as [[[]|e] w5] eqn:Hr; [| done].
  apply os_remove_trace in Hr as (t5 & Ht5 & Hc5).
  unfold mbind at 1, M_bind at 1, lift.
  destruct (getitem_int info "Pages") as [n|e]; [| done].
  destruct (for_each _ _ w5) as [[[]|e] w6] eqn:Hl; [| done].
  apply cleanup_loop_trace in Hl as (t6 & Ht6 & Hc6).
  intros H. injection H as <-.
  exists base, (t6 ++ t5 ++ [EvExec (["pdfunite"] ++ map (percent_d (base +:+ "-%d.pdf")) selection ++ [out_path]) r3;
                             EvExec (["pdfseparate"] ++ [in_path] ++ [base +:+ "-%d.pdf"]) r2;
                             EvMkTemp base;
                             EvExec ["pdfinfo"; in_path] r1]),
         info, w1, w2.
  split; [done |]. split; [done |]. split.
  - rewrite Ht6, Ht5, Ht4, Ht3, Ht2, Ht1. by rewrite <- !app_assoc.
  - rewrite !commands_app, Hc5, Hc6. done.
Qed.

Lemma pdfselect_commands in_path out_path selection w w' :
  pdfselect in_path out_path selection w = (Ok tt, w') →
  ∃ base t,
    trace w' = t ++ trace w
    ∧ commands t =
        [ ["pdfinfo"; in_path];
          ["pdfseparate"; in_path; base +:+ "-%d.pdf"];
          ["pdfunite"] ++ map (percent_d (base +:+ "-%d.pdf")) selection
            ++ [out_path] ].
Proof.
  intros H.
  apply pdfselect_commands_base in H as (base & t & _ & _ & _ & _ & _ & Ht & Hc).
  by exists base, t.
Qed.

(** *** The names of the page files *)

Lemma percent_d_base base k :
  has_char "%" base = false →
  percent_d (base +:+ "-%d.pdf") k = base +:+ "-" +:+ str k +:+ ".pdf".
Proof.
  intros Hb. induction base as [|c b IH]; [done |].
  simpl in Hb. apply orb_false_iff in Hb as [Hc Hb].
  change (String c b +:+ "-%d.pdf") with (String c (b +:+ "-%d.pdf")).
  cbn [percent_d]. rewrite (Ascii.eqb_sym c "%"), Hc. cbn [andb].
  rewrite (IH Hb). destruct b; reflexivity.
Qed.

Lemma steady_ret {A} (a : A) : steady (mret a : M A).
Proof. by intros w. Qed.

Lemma steady_lift {A} (r : res A) : steady (lift r).
Proof. by intros w. Qed.

Lemma steady_raise {A} (e : exn) : steady (raise e : M A).
Proof. by intros w. Qed.

Lemma steady_bind {A B} (m : M A) (f : A → M B) :
  steady m → (∀ a, steady (f a)) → steady (m ≫= f).
Proof.
  intros Hm Hf w. rewrite bind_state. destruct (Hm w) as [H1 H2].
  destruct (m w) as [[a|e] w1]; simpl in *; [| done].
  destruct (Hf a w1) as [H3 H4]. split; [congruence |]. by etrans.
Qed.

Lemma steady_try_finally {A} (body : M A) (fin : M unit) :
  steady body → steady fin → steady (try_finally body fin).
Proof.
  intros Hb Hf w. unfold try_finally. destruct (Hb w) as [H1 H2].
  destruct (body w) as [r w1]; simpl in *.
  destruct (Hf w1) as [H3 H4].
  destruct (fin w1) as [[u|e] w2]; simpl in *; (split; [congruence | by etrans]).
Qed.

Lemma steady_for_each {A} (l : list A) (body : A → M unit) :
  (∀ a, steady (body a)) → steady (for_each l body).
Proof.
  intros Hb. induction l as [|a l IH]; simpl; [apply steady_ret |].
  apply steady_bind; [apply Hb | by intros _].
Qed.

Lemma mkstemp_candidates dir prefix suffix existing cs p cs' :
  mkstemp dir prefix suffix existing cs = Some (p, cs') →
  cs' `suffix_of` cs ∧ ∃ c, c ∈ cs ∧ p = dir +:+ "/" +:+ prefix +:+ c +:+ suffix.
Proof.
  induction cs as [|c cs IH]; [done |]. cbn [mkstemp].
  case_bool_decide as Hin.
  - intros H. destruct (IH H) as (H1 & c' & Hc' & ->). split.
    + by apply suffix_cons_r.
    + exists c'. split; [by right | done].
  - intros [= <- <-]. split; [by apply suffix_cons_r |].
    exists c. split; [by left | done].
Qed.

Lemma steady_mktemp prefix suffix : steady (mktemp prefix suffix).
Proof.
  intros w. unfold mktemp.
  destruct (mkstemp _ _ _ _ _) as [[p cs]|] eqn:E; simpl.
  - split; [done |]. by apply mkstemp_candidates in E as [? _].
  - split; [done |]. apply suffix_nil.
Qed.

Lemma steady_os_remove p : steady (os_remove p).
Proof. intros w. unfold os_remove. by case_bool_decide. Qed.

Lemma steady_os_path_exists p : steady (os_path_exists p).
Proof. by intros w. Qed.

Lemma steady_execute args ig : steady (execute args ig).
Proof.
  intros w. unfold execute. destruct (replies w) as [|r rs]; [done |].
  by destruct (_ && _).
Qed.

Ltac steady_steps :=
  repeat first
    [ apply steady_ret | apply steady_lift | apply steady_raise
    | apply steady_mktemp | apply steady_os_remove | apply steady_os_path_exists
    | apply steady_execute
    | apply steady_bind; [| intros ?]
    | apply steady_try_finally
    | apply steady_for_each; intros ?
    | match goal with |- steady (if ?b then _ else _) => destruct b end ].

Lemma steady_pdfinfo path : steady (pdfinfo path).
Proof. unfold pdfinfo. steady_steps. Qed.

Lemma steady_pdfselect in_path out_path selection :
  steady (pdfselect in_path out_path selection).
Proof.
  unfold pdfselect, pdfseparate, pdfunite.
  apply steady_bind; [apply steady_pdfinfo | intros info]. steady_steps.
Qed.

Lemma steady_File_generate self path : steady (File_generate self path).
Proof.
  unfold File_generate, pdfjam, enscript. destruct (File_class self); steady_steps.
Qed.

Lemma steady_Book_generate content path : steady (Book_generate content path).
Proof.
  unfold Book_generate.
  apply steady_bind; [apply steady_mktemp | intros cp].
  apply steady_bind; [| intros ?; apply steady_ret].
  apply steady_try_finally; [| apply steady_os_remove].
  apply steady_bind; [apply steady_File_generate | intros res].
  apply steady_bind; [apply steady_lift | intros ?]. unfold pdfbook. steady_steps.
Qed.

(** a steady step keeps the names free of percent signs *)
Lemma steady_plain {A} (m : M A) w :
  steady m → plain_temp w = true → plain_temp (m w).2 = true.
Proof.
  intros Hm. destruct (Hm w) as [Hd [k Hn]]. unfold plain_temp.
  rewrite Hd, Hn, forallb_app.
  intros [-> [_ ->]%andb_true_iff]%andb_true_iff. done.
Qed.

Lemma steady_plain_run {A} (m : M A) w r w' :
  steady m → m w = (r, w') → plain_temp w = true → plain_temp w' = true.
Proof. intros Hm E Hw. pose proof (steady_plain m w Hm Hw) as H. by rewrite E in H. Qed.

(** a temporary name has no percent sign when the directory and the
    names tried have none *)
Lemma mktemp_plain w base w' :
  plain_temp w = true → mktemp "booker-" "-page" w = (Ok base, w') →
  has_char "%" base = false.
Proof.
  unfold plain_temp, mktemp. intros [Hd Hn]%andb_true_iff.
  destruct (mkstemp _ _ _ _ _) as [[p cs]|] eqn:E; [| done].
  intros [= <- _]. apply mkstemp_candidates in E as (_ & c & Hc & ->).
  rewrite forallb_forall in Hn. specialize (Hn c).
  rewrite !has_char_append.
  apply negb_true_iff in Hd. rewrite Hd.
  rewrite (proj1 (negb_true_iff _) (Hn (proj1 (list_elem_of_In _ _) Hc))). done.
Qed.

(** the commands of [pdfselect], the page files by their names *)
Lemma pdfselect_pages in_path out_path selection w w' :
  plain_temp w = true →
  pdfselect in_path out_path selection w = (Ok tt, w') →
  plain_temp w' = true
  ∧ ∃ base t,
      trace w' = t ++ trace w
      ∧ commands t =
          [ ["pdfinfo"; in_path];
            ["pdfseparate"; in_path; base +:+ "-%d.pdf"];
            ["pdfunite"] ++ map (page_file base) selection ++ [out_path] ].
Proof.
  intros Hw H. split.
  { by apply (steady_plain_run _ _ _ _ (steady_pdfselect in_path out_path selection) H). }
  apply pdfselect_commands_base in H
    as (base & t & info & w1 & w2 & Hi & Hm & Ht & Hc).
  exists base, t. split; [done |]. rewrite Hc.
  assert (has_char "%" base = false) as Hb.
  { apply (mktemp_plain w1 base w2); [| done].
    by apply (steady_plain_run _ _ _ _ (steady_pdfinfo in_path) Hi). }
  rewrite (map_ext (percent_d (base +:+ "-%d.pdf")) (page_file base)); [done |].
  intros k. by apply percent_d_base.
Qed.

(** C1. When the booklet was generated and [pdfinfo] counts an even
    number [n] of pages in it, what is left of [SinglePageBook.generate]
    is to select from the booklet the pages [odd_pages n] into the odd
    output and then the pages [even_pages n] into the even output, and to
    remove the booklet. [odd_pages n] has [n / 2] entries, the odd
    indices of 1..[n] in ascending order; [even_pages n] has [n / 2]
    entries, the even indices of 1..[n] in descending order. When the call
    returns, the commands run since the count are, twice, [pdfinfo],
    [pdfseparate] into the page files of a temporary base, and
    [pdfunite] of the page files of these indices, in this order, into
    the output; the file of page [k] is the base followed by [-k.pdf]
    (the temporary names being free of percent signs). *)
Theorem even_page_count_split content path odd_path even_path
    w book_path w1 res w2 info w3 n :
  mktemp "booker-" ".pdf" w = (Ok book_path, w1) →
  Book_generate content book_path w1 = (Ok res, w2) →
  pdfinfo book_path w2 = (Ok info, w3) →
  getitem_int info "Pages" = Ok n →
  Z.even n = true →
  SinglePageBook_generate content path odd_path even_path w
  = (try_finally
       (pdfselect book_path (odd_name path) (odd_pages n);;
        pdfselect book_path (even_name path) (even_pages n))
       (os_remove book_path);;
     mret [odd_name path; even_name path]) w3
  ∧ length (odd_pages n) = Z.to_nat (n / 2)
  ∧ length (even_pages n) = Z.to_nat (n / 2)
  ∧ (∀ x, x ∈ odd_pages n ↔ 1 ≤ x ≤ n - 1 ∧ Z.odd x = true)
  ∧ (∀ x, x ∈ even_pages n ↔ 2 ≤ x ≤ n ∧ Z.even x = true)
  ∧ StronglySorted Z.lt (odd_pages n)
  ∧ StronglySorted Z.gt (even_pages n)
  ∧ ∀ paths w',
      plain_temp w = true →
      SinglePageBook_generate content path odd_path even_path w = (Ok paths, w') →
      paths = [odd_name path; even_name path]
      ∧ ∃ base1 base2 t,
          trace w' = t ++ trace w3
          ∧ commands t =
              [ ["pdfinfo"; book_path];
                ["pdfseparate"; book_path; base1 +:+ "-%d.pdf"];
                ["pdfunite"] ++ map (page_file base1) (odd_pages n)
                  ++ [odd_name path];
                ["pdfinfo"; book_path];
                ["pdfseparate"; book_path; base2 +:+ "-%d.pdf"];
                ["pdfunite"] ++ map (page_file base2) (even_pages n)
                  ++ [even_name path] ].
Proof.
  intros Hm Hb Hi Hn Heven.
  assert (SinglePageBook_generate content path odd_path even_path w
          = (try_finally
               (pdfselect book_path (odd_name path) (odd_pages n);;
                pdfselect book_path (even_name path) (even_pages n))
               (os_remove book_path);;
             mret [odd_name path; even_name path]) w3) as Hrun.
  { rewrite (SinglePageBook_stages _ _ _ _ _ _ _ _ _ _ _ _ Hm Hb Hi Hn).
    assert ((n `mod` 2 =? 0) = true) as ->.
    { apply Z.eqb_eq. rewrite Zmod_even, Heven. done. }
    rewrite py_range_odd, py_range_even.
    unfold mbind at 1 3, M_bind at 1 3.
    erewrite try_finally_bind_ok; [reflexivity | done]. }
  split; [exact Hrun |].
  split; [apply odd_pages_length |].
  split; [apply even_pages_length |].
  split; [intros x; by apply odd_pages_elem |].
  split; [intros x; by apply even_pages_elem |].
  split; [apply odd_pages_ascending |].
  split; [apply even_pages_descending |].
  intros paths w' Hplain.
  assert (plain_temp w3 = true) as Hplain3.
  { apply (steady_plain_run _ _ _ _ (steady_pdfinfo book_path) Hi).
    apply (steady_plain_run _ _ _ _ (steady_Book_generate content book_path) Hb).
    by apply (steady_plain_run _ _ _ _ (steady_mktemp "booker-" ".pdf") Hm). }
  rewrite Hrun.
  unfold mbind at 1, M_bind at 1, try_finally.
  unfold mbind at 1, M_bind at 1.
  destruct (pdfselect book_path (odd_name path) (odd_pages n) w3)
    as [[[]|e] w4] eqn:H1.
  2: { destruct (os_remove book_path w4) as [[[]|e'] w5]; done. }
  destruct (pdfselect book_path (even_name path) (even_pages n) w4)
    as [[[]|e] w5] eqn:H2.
  2: { destruct (os_remove book_path w5) as [[[]|e'] w6]; done. }
  destruct (os_remove book_path w5) as [[[]|e] w6] eqn:H3; [| done].
  intros [= <- <-]. split; [done |].
  apply (pdfselect_pages _ _ _ _ _ Hplain3) in H1 as (Hplain4 & base1 & t1 & Ht1 & Hc1).
  apply (pdfselect_pages _ _ _ _ _ Hplain4) in H2 as (_ & base2 & t2 & Ht2 & Hc2).
  apply os_remove_trace in H3 as (t3 & Ht3 & Hc3).
  exists base1, base2, (t3 ++ t2 ++ t1). split.
  - rewrite Ht3, Ht2, Ht1. by rewrite <- !app_assoc.
  - rewrite !commands_app, Hc1, Hc2, Hc3. done.
Qed.

(** ** Files: margins and selections *)

(** C4. A [File] of any class made with the number [m] for its margins
    holds the four margins [m, m, m, m]; made with a sequence whose
    length is not 4, it is not made: [File.__init__] raises the
    [ValueError] of the margins vector. A sequence of length 4 is held as
    it is. *)
Theorem File_init_margins cls path selection raw_selection :
  (∀ m, ∃ self,
     File_init cls path selection raw_selection (Some (MNum m)) = Ok self
     ∧ File_margins self = Some [m; m; m; m])
  ∧ (∀ l, length l ≠ 4%nat →
       File_init cls path selection raw_selection (Some (MSeq l))
       = Raise (ValueError ["Wrong length of margins vector: "
                            +:+ str (Z.of_nat (length l))]))
  ∧ (∀ l, length l = 4%nat → ∃ self,
       File_init cls path selection raw_selection (Some (MSeq l)) = Ok self
       ∧ File_margins self = Some l).
Proof.
  split; [| split].
  - intros m. by eexists.
  - intros l Hl. unfold File_init. simpl.
    by rewrite bool_decide_eq_true_2.
  - intros l Hl. unfold File_init. simpl.
    rewrite bool_decide_eq_false_2 by (by intros ?). by eexists.
Qed.

Lemma join_nonempty sep x l : x ≠ "" → join sep (x :: l) ≠ "".
Proof.
  intros Hx. destruct x as [|c x]; [done |]. by destruct l.
Qed.

(** a selection that is given and not empty makes the raw selection of
    the file a string *)
Lemma or_else_selection selection raw_selection :
  (∃ l, selection = Some l ∧ l ≠ []) ∨ (∃ r, raw_selection = Some r ∧ r ≠ "") →
  or_else raw_selection (gen_raw_selection selection) ≠ None.
Proof.
  intros [(l & -> & Hl) | (r & -> & Hr)].
  - destruct l as [|k l]; [done |].
    pose proof (join_nonempty "," (str k) (map str l) (str_nonempty k)) as Hj.
    simpl. destruct raw_selection as [[|c r]|]; simpl; try done;
      by destruct (join "," (str k :: map str l)).
  - by destruct r.
Qed.

Lemma File_init_raw_selection cls path selection raw_selection margins self :
  File_init cls path selection raw_selection margins = Ok self →
  File_raw_selection self = or_else raw_selection (gen_raw_selection selection).
Proof.
  unfold File_init.
  destruct margins as [[m|l]|]; simpl; try case_bool_decide; simpl;
    try done; by intros [= <-].
Qed.

Lemma File_init_error cls path selection raw_selection margins e :
  File_init cls path selection raw_selection margins = Raise e →
  ∃ args, e = ValueError args.
Proof.
  unfold File_init.
  destruct margins as [[m|l]|]; simpl; try case_bool_decide; simpl;
    try done. intros [= <-]. by eexists.
Qed.

(** C5. A [CPPFile] asked for with a page selection that is not empty,
    as a list of pages or as a raw string, is not made: the constructor
    raises a [ValueError], that of the selection when the margins are
    valid. The same holds when [get_file] makes the file for a path in
    [.cpp] or [.cxx], and [main] then stops at the construction, with
    the world as it was: nothing is generated. *)
Theorem CPPFile_init_rejects_selection path selection raw_selection margins :
  (∃ l, selection = Some l ∧ l ≠ []) ∨ (∃ r, raw_selection = Some r ∧ r ≠ "") →
  (∃ args, CPPFile_init path selection raw_selection margins = Raise (ValueError args))
  ∧ (∀ self, File_init CPPFile path selection raw_selection margins = Ok self →
       CPPFile_init path selection raw_selection margins
       = Raise (ValueError ["Selection is not supported"]))
  ∧ (matches re_cpp path = true →
       ∃ args, get_file path selection raw_selection margins = Raise (ValueError args))
  ∧ (∀ opts cls w,
       matches re_cpp path = true → selection = None →
       o_select opts = raw_selection →
       ∃ args, main_file opts cls path w = (Raise (ValueError args), w)).
Proof.
  intros Hsel. apply or_else_selection in Hsel.
  assert (∀ self, File_init CPPFile path selection raw_selection margins = Ok self →
            CPPFile_init path selection raw_selection margins
            = Raise (ValueError ["Selection is not supported"])) as Hok.
  { intros self Hf. unfold CPPFile_init. rewrite Hf. simpl.
    rewrite (File_init_raw_selection _ _ _ _ _ _ Hf).
    by rewrite bool_decide_eq_true_2. }
  assert (∃ args, CPPFile_init path selection raw_selection margins
                  = Raise (ValueError args)) as Hcpp.
  { destruct (File_init CPPFile path selection raw_selection margins)
      as [self|e] eqn:Hf.
    - eexists. by apply (Hok self).
    - destruct (File_init_error _ _ _ _ _ _ Hf) as [args ->].
      exists args. unfold CPPFile_init. by rewrite Hf. }
  assert (∀ ms, matches re_cpp path = true →
            (∃ args, CPPFile_init path selection raw_selection ms
                     = Raise (ValueError args)) →
            ∃ args, get_file path selection raw_selection ms
                    = Raise (ValueError args)) as Hget.
  { intros ms Hm [args Hc]. unfold get_file. rewrite Hm.
    destruct (matches re_pdf path); simpl.
    - unfold PDFFile_init.
      destruct (File_init PDFFile path selection raw_selection ms)
        as [f|e] eqn:Hf; simpl.
      + rewrite Hc. by eexists.
      + destruct (File_init_error _ _ _ _ _ _ Hf) as [args' ->]. by eexists.
    - rewrite Hc. by eexists. }
  split; [exact Hcpp |]. split; [exact Hok |]. split; [intros Hm; by apply Hget |].
  intros opts cls w Hm -> Ho. unfold main_file, mbind, M_bind, lift.
  rewrite Ho.
  destruct (Hget (MNum <$> o_margins opts) Hm) as [args ->]; [| by eexists].
  destruct (File_init CPPFile path None raw_selection (MNum <$> o_margins opts))
    as [self|e] eqn:Hf.
  - exists ["Selection is not supported"]. unfold CPPFile_init. rewrite Hf. simpl.
    rewrite (File_init_raw_selection _ _ _ _ _ _ Hf).
    by rewrite bool_decide_eq_true_2.
  - destruct (File_init_error _ _ _ _ _ _ Hf) as [args ->].
    exists args. unfold CPPFile_init. by rewrite Hf.
Qed.

(** ** The command line *)

(** C6. With [--select] and more than one input file, [main] raises
    its [ValueError] at once: the world is as it was, no file has been
    looked at, no process run. *)
Theorem select_with_many_files opts w :
  o_select opts ≠ None → (1 < length (o_files opts))%nat →
  main opts w = (Raise (ValueError ["--select flag is possible for single file"]), w).
Proof.
  intros Hs Hn. unfold main.
  rewrite bool_decide_eq_true_2 by done.
  by replace (1 <? length (o_files opts))%nat with true
    by (symmetry; by apply Nat.ltb_lt).
Qed.

(** ** Names *)

Lemma extension_split s :
  has_char "." s = true →
  ∃ ext, s = strip_ext s +:+ "." +:+ ext ∧ extension s = "." +:+ ext
         ∧ has_char "." ext = false.
Proof.
  induction s as [|c s IH]; simpl; [done |].
  destruct (has_char "." s) eqn:Hs.
  - intros _. destruct (IH eq_refl) as (ext & E & He & Hext).
    exists ext. split; [| done]. simpl. f_equal. exact E.
  - rewrite orb_false_r. intros Hc. apply Ascii.eqb_eq in Hc. subst c.
    change (Ascii.eqb "." ".") with true. cbn iota. by exists s.
Qed.

Lemma expand_marker marker stem ext :
  expand [TGrp 1; TLit marker; TGrp 2] [(2%nat, ext); (1%nat, stem)]
  = stem +:+ marker +:+ ext.
Proof. simpl. by rewrite append_nil_r. Qed.

Lemma stem_ext_name marker path :
  has_char "." path = true → all_chars dot (strip_ext path) = true →
  re_sub py re_stem_ext [TGrp 1; TLit marker; TGrp 2] path
  = insert_before_ext marker path.
Proof.
  intros Hdot Hstem. destruct (extension_split path Hdot) as (ext & E & He & Hext).
  unfold insert_before_ext. rewrite He. rewrite E at 1.
  rewrite re_sub_stem_ext by done. simpl. by rewrite append_nil_r.
Qed.

Lemma SinglePageBook_generate_result content path odd_path even_path w paths w' :
  SinglePageBook_generate content path odd_path even_path w = (Ok paths, w') →
  paths = [odd_name path; even_name path].
Proof.
  unfold SinglePageBook_generate. unfold mbind at 1, M_bind at 1.
  destruct (mktemp "booker-" ".pdf" w) as [[p|e] w1]; [| done].
  unfold mbind at 1, M_bind at 1.
  destruct (try_finally _ _ w1) as [[u|e] w2]; [| done].
  by intros [= <- _].
Qed.

(** C10, as amended. [SinglePageBook.generate] does not look at the [odd_path] and
    [even_path] it is given: the call is the same whatever they are. The
    paths it returns, and the only files it can add, are [odd_name path]
    and [even_name path], made from [path] alone; for a [path] with an
    extension (and no newline before its last dot) they are [path] with
    [-odd] and [-even] inserted before the final extension. *)
Theorem SinglePageBook_ignores_given_paths content path
    odd_path even_path odd_path' even_path' w :
  SinglePageBook_generate content path odd_path even_path w
  = SinglePageBook_generate content path odd_path' even_path' w
  ∧ (∀ paths w',
       SinglePageBook_generate content path odd_path even_path w = (Ok paths, w') →
       paths = [odd_name path; even_name path])
  ∧ (good w →
       fs (SinglePageBook_generate content path odd_path even_path w).2
       ⊆ fs w ∪ {[odd_name path; even_name path]})
  ∧ (has_char "." path = true → all_chars dot (strip_ext path) = true →
       odd_name path = insert_before_ext "-odd" path
       ∧ even_name path = insert_before_ext "-even" path).
Proof.
  split; [reflexivity |].
  split; [intros paths w'; apply SinglePageBook_generate_result |].
  split.
  - intros Hw.
    destruct (framed_SinglePageBook_generate content path odd_path even_path w Hw)
      as (_ & _ & H). unfold odd_name, even_name. set_solver.
  - intros Hdot Hstem. split; by apply stem_ext_name.
Qed.

(** without a dot in [path], nothing is inserted: both names are [path] *)
Lemma names_without_extension path :
  has_char "." path = false → odd_name path = path ∧ even_name path = path.
Proof. intros H. split; by apply re_sub_no_dot. Qed.

(** C9, as amended. Of a raw selection that is not the empty string and
    a list of pages, both given, [File.__init__] and [pdfjam] use the raw
    string; with the list alone, or with the empty string for the raw
    selection, they use the pages of the list joined by commas, in the
    order of the list: a call of [pdfjam] with the empty string is the
    call without raw selection. *)
Theorem raw_selection_precedence cls path l raw margins :
  (raw ≠ "" → ∀ self,
     File_init cls path (Some l) (Some raw) margins = Ok self →
     File_raw_selection self = Some raw)
  ∧ (∀ self, File_init cls path (Some l) None margins = Ok self →
       File_raw_selection self = Some (join "," (map str l)))
  ∧ (∀ self, File_init cls path (Some l) (Some "") margins = Ok self →
       File_raw_selection self = Some (join "," (map str l)))
  ∧ (raw ≠ "" → ∀ in_path out_path landscape ms paper w r rs,
       replies w = r :: rs →
       ∃ rest,
         trace (pdfjam in_path out_path (Some l) (Some raw) landscape ms paper w).2
         = EvExec ("pdfjam" :: in_path :: raw :: rest) r :: trace w)
  ∧ (∀ in_path out_path landscape ms paper w r rs,
       replies w = r :: rs →
       ∃ rest,
         trace (pdfjam in_path out_path (Some l) None landscape ms paper w).2
         = EvExec ("pdfjam" :: in_path :: join "," (map str l) :: rest) r :: trace w)
  ∧ (∀ in_path out_path landscape ms paper w r rs,
       replies w = r :: rs →
       ∃ rest,
         trace (pdfjam in_path out_path (Some l) (Some "") landscape ms paper w).2
         = EvExec ("pdfjam" :: in_path :: join "," (map str l) :: rest) r :: trace w)
  ∧ (∀ in_path out_path landscape ms paper w,
       pdfjam in_path out_path (Some l) (Some "") landscape ms paper w
       = pdfjam in_path out_path (Some l) None landscape ms paper w).
Proof.
  assert (∀ in_path out_path sel rw landscape ms paper w r rs s,
            or_else rw (gen_raw_selection sel) = Some s →
            replies w = r :: rs →
            ∃ rest,
              trace (pdfjam in_path out_path sel rw landscape ms paper w).2
              = EvExec ("pdfjam" :: in_path :: s :: rest) r :: trace w) as Hjam.
  { intros in_path out_path sel rw landscape ms paper w r rs s Hs Hr.
    unfold pdfjam. rewrite Hs, bind_state. unfold execute. rewrite Hr.
    simpl. eexists. destruct (returncode r =? 0); reflexivity. }
  repeat split.
  - intros Hraw self Hf. rewrite (File_init_raw_selection _ _ _ _ _ _ Hf).
    by destruct raw.
  - intros self Hf. by rewrite (File_init_raw_selection _ _ _ _ _ _ Hf).
  - intros self Hf. by rewrite (File_init_raw_selection _ _ _ _ _ _ Hf).
  - intros Hraw in_path out_path landscape ms paper w r rs Hr.
    eapply Hjam; [| exact Hr]. by destruct raw.
  - intros in_path out_path landscape ms paper w r rs Hr.
    eapply Hjam; [| exact Hr]. done.
  - intros in_path out_path landscape ms paper w r rs Hr.
    eapply Hjam; [| exact Hr]. done.
Qed.

(** ** The parser of [pdfinfo] *)

Lemma digits_no_space s :
  s ≠ "" → all_chars is_digit s = true → starts_with_space s = false.
Proof.
  destruct s as [|c s]; [done |]. simpl. intros _ H.
  apply andb_true_iff in H as [Hc _]. by apply is_digit_not_space.
Qed.

Lemma parse_line_pages (n : N) ws :
  all_chars is_space ws = true →
  parse_line ("Pages:" +:+ ws +:+ str (Z.of_N n))
  = Ok (Some ("Pages", VInt (Z.of_N n))).
Proof.
  intros Hws. destruct (str_digits n) as (Hne & Hd & Hi).
  change ("Pages:" +:+ ws +:+ str (Z.of_N n))
    with ("Pages" +:+ ":" +:+ ws +:+ str (Z.of_N n)).
  rewrite parse_line_key_value; try done.
  - rewrite convert_pages_digits by done. simpl. by rewrite Hi.
  - by apply digits_no_space.
  - apply (all_chars_impl is_digit); [apply is_digit_dot | done].
  - apply (all_chars_impl is_digit); [apply is_digit_ascii | done].
Qed.

Lemma pdfinfo_parse_raise out pre line post e :
  splitlines out = pre ++ line :: post →
  (∀ l, l ∈ pre → ∃ o, parse_line l = Ok o) →
  parse_line line = Raise e →
  pdfinfo_parse out = Raise e.
Proof.
  intros Hs Hpre Hl. unfold pdfinfo_parse.
  by rewrite Hs, (parse_lines_raise pre line post ∅ e Hpre Hl).
Qed.

Lemma pdfinfo_parse_inv out d :
  pdfinfo_parse out = Ok d → parse_lines (splitlines out) ∅ = Ok d.
Proof.
  unfold pdfinfo_parse.
  destruct (parse_lines (splitlines out) ∅) as [r|]; simpl; [| done].
  destruct (bool_decide _); simpl; [| done]. by intros [= <-].
Qed.

(** C7. The parser of [pdfinfo], line by line. A line [key: value] is
    split at its first colon, key and value are decoded as UTF-8 (bytes
    that are not UTF-8 raise the [UnicodeDecodeError]), and the value is
    converted by the key. A line
    [Pages:] followed by blanks and the digits of [n] stores the integer
    [n] under [Pages], and what [pdfinfo] returns for a key is what the
    last line with that key stores. A line without a colon is skipped, and
    every key of the result comes from a line of the output, so that a
    key no line has is absent. The value of [Pages] must be digits: [Pages:
    abc] raises the [AssertionError], and a line that raises stops the
    whole of [pdfinfo] with its exception. The value of a flag must begin
    with [yes] or [no] (the pattern is not anchored at its end) and is
    true exactly for [yes]. Without any [Pages] line [pdfinfo] raises the
    [AssertionError]. *)
Theorem pdfinfo_parse_spec :
  (∀ key ws value,
     has_char ":" key = false → is_utf8 key = true →
     all_chars is_space ws = true →
     starts_with_space value = false → all_chars dot value = true →
     is_utf8 value = true →
     parse_line (key +:+ ":" +:+ ws +:+ value)
     = (v ← convert key value; Ok (Some (key, v))))
  ∧ (∀ key ws value,
       has_char ":" key = false →
       all_chars is_space ws = true →
       starts_with_space value = false → all_chars dot value = true →
       is_utf8 key && is_utf8 value = false →
       parse_line (key +:+ ":" +:+ ws +:+ value) = Raise UnicodeDecodeError)
  ∧ (∀ (n : N) ws,
       all_chars is_space ws = true →
       parse_line ("Pages:" +:+ ws +:+ str (Z.of_N n))
       = Ok (Some ("Pages", VInt (Z.of_N n))))
  ∧ (∀ out pre line post d key v,
       pdfinfo_parse out = Ok d →
       splitlines out = pre ++ line :: post →
       parse_line line = Ok (Some (key, v)) →
       (∀ l v', l ∈ post → parse_line l ≠ Ok (Some (key, v'))) →
       d !! key = Some v)
  ∧ (∀ line, has_char ":" line = false → parse_line line = Ok None)
  ∧ (∀ out d key v,
       pdfinfo_parse out = Ok d → d !! key = Some v →
       ∃ line, line ∈ splitlines out ∧ parse_line line = Ok (Some (key, v)))
  ∧ (∀ s, matches re_digits s = false → convert "Pages" s = Raise AssertionError)
  ∧ parse_line "Pages: abc" = Raise AssertionError
  ∧ (∀ out pre line post e,
       splitlines out = pre ++ line :: post →
       (∀ l, l ∈ pre → ∃ o, parse_line l = Ok o) →
       parse_line line = Raise e →
       pdfinfo_parse out = Raise e)
  ∧ (∀ key s,
       key ∈ flag_keys →
       convert key s
       = if String.prefix "yes" s || String.prefix "no" s
         then Ok (VBool (bool_decide (s = "yes")))
         else Raise AssertionError)
  ∧ (∀ out d,
       parse_lines (splitlines out) ∅ = Ok d → d !! "Pages" = None →
       pdfinfo_parse out = Raise AssertionError).
Proof.
  split; [apply parse_line_utf8 |].
  split; [apply parse_line_not_utf8 |].
  split; [apply parse_line_pages |].
  split.
  { intros out pre line post d key v Hp Hs Hl Hpost.
    apply pdfinfo_parse_inv in Hp. rewrite Hs in Hp.
    by eapply parse_lines_last. }
  split; [apply parse_line_skip |].
  split.
  { intros out d key v Hp Hd. apply pdfinfo_parse_inv in Hp.
    destruct (parse_lines_lookup _ _ _ _ _ Hp Hd) as [H0 | H]; [| done].
    by rewrite lookup_empty in H0. }
  split; [apply convert_pages_bad |].
  split; [by vm_compute |].
  split; [apply pdfinfo_parse_raise |].
  split; [apply convert_flag |].
  intros out d Hp Hd. unfold pdfinfo_parse. rewrite Hp. simpl.
  rewrite bool_decide_eq_false_2; [done |]. rewrite Hd. by intros [? ?].
Qed.

(** ** What [main] prints *)

Create HintDb quiet.

Lemma quiet_ret {A} (a : A) : quiet (mret a : M A).
Proof. by intros w. Qed.

Lemma quiet_lift {A} (r : res A) : quiet (lift r).
Proof. by intros w. Qed.

Lemma quiet_raise {A} (e : exn) : quiet (raise e : M A).
Proof. by intros w. Qed.

Lemma quiet_bind {A B} (m : M A) (f : A → M B) :
  quiet m → (∀ a, quiet (f a)) → quiet (m ≫= f).
Proof.
  intros Hm Hf w. rewrite bind_state. specialize (Hm w).
  destruct (m w) as [[a|e] w1]; simpl in *; [| done].
  by rewrite Hf.
Qed.

Lemma quiet_try_finally {A} (body : M A) (fin : M unit) :
  quiet body → quiet fin → quiet (try_finally body fin).
Proof.
  intros Hb Hf w. unfold try_finally. specialize (Hb w).
  destruct (body w) as [r w1]; simpl in Hb. specialize (Hf w1).
  destruct (fin w1) as [[u|e] w2]; simpl in *; congruence.
Qed.

Lemma quiet_for_each {A} (l : list A) (body : A → M unit) :
  (∀ a, quiet (body a)) → quiet (for_each l body).
Proof.
  intros Hb. induction l as [|a l IH]; simpl; [apply quiet_ret |].
  apply quiet_bind; [apply Hb | by intros _].
Qed.

Lemma quiet_mktemp prefix suffix : quiet (mktemp prefix suffix).
Proof.
  intros w. unfold mktemp. by destruct (mkstemp _ _ _ _ _) as [[p cs]|].
Qed.

Lemma quiet_os_remove p : quiet (os_remove p).
Proof. intros w. unfold os_remove. by case_bool_decide. Qed.

Lemma quiet_os_path_exists p : quiet (os_path_exists p).
Proof. by intros w. Qed.

Lemma quiet_execute args ig : quiet (execute args ig).
Proof.
  intros w. unfold execute. destruct (replies w) as [|r rs]; [done |].
  by destruct (_ && _).
Qed.

#[local] Hint Resolve quiet_ret quiet_lift quiet_raise quiet_mktemp quiet_os_remove
  quiet_os_path_exists quiet_execute : quiet.

Ltac quiet_steps :=
  repeat first
    [ solve [auto with quiet]
    | apply quiet_bind; [| intros ?]
    | apply quiet_try_finally
    | apply quiet_for_each; intros ?
    | match goal with |- quiet (if ?b then _ else _) => destruct b end ].

Lemma quiet_enscript in_path out_path language paper font margins :
  quiet (enscript in_path out_path language paper font margins).
Proof. unfold enscript. quiet_steps. Qed.

Lemma quiet_pdfbook in_path out_path short_edge frame paper :
  quiet (pdfbook in_path out_path short_edge frame paper).
Proof. unfold pdfbook. quiet_steps. Qed.

Lemma quiet_pdfjam in_path out_path sel raw landscape margins paper :
  quiet (pdfjam in_path out_path sel raw landscape margins paper).
Proof. unfold pdfjam. quiet_steps. Qed.

Lemma quiet_pdfinfo path : quiet (pdfinfo path).
Proof. unfold pdfinfo. quiet_steps. Qed.

#[local] Hint Resolve quiet_enscript quiet_pdfbook quiet_pdfjam quiet_pdfinfo : quiet.

Lemma quiet_pdfselect in_path out_path selection :
  quiet (pdfselect in_path out_path selection).
Proof. unfold pdfselect, pdfseparate, pdfunite. quiet_steps. Qed.

Lemma quiet_File_generate self path : quiet (File_generate self path).
Proof. unfold File_generate. destruct (File_class self); quiet_steps. Qed.

#[local] Hint Resolve quiet_pdfselect quiet_File_generate : quiet.

Lemma quiet_Book_generate content path : quiet (Book_generate content path).
Proof. unfold Book_generate. quiet_steps. Qed.

#[local] Hint Resolve quiet_Book_generate : quiet.

Lemma quiet_SinglePageBook_generate content path odd_path even_path :
  quiet (SinglePageBook_generate content path odd_path even_path).
Proof. unfold SinglePageBook_generate. quiet_steps. Qed.

Lemma quiet_generate cls content path : quiet (generate cls content path).
Proof.
  destruct cls; [apply quiet_Book_generate | apply quiet_SinglePageBook_generate].
Qed.

Lemma for_each_print l w :
  ∃ w', for_each l print w = (Ok tt, w')
        ∧ printed (trace w') = printed (trace w) ++ l.
Proof.
  revert w. induction l as [|x l IH]; intros w; simpl.
  - exists w. by rewrite app_nil_r.
  - unfold mbind, M_bind, print at 1.
    destruct (IH (record (EvPrint x) w)) as (w' & -> & Hp).
    exists w'. split; [done |]. rewrite Hp. simpl. by rewrite <- app_assoc.
Qed.

Lemma generate_result cls content path w paths w' :
  generate cls content path w = (Ok paths, w') → paths = generated_names cls path.
Proof.
  destruct cls; simpl.
  - apply Book_generate_result.
  - apply SinglePageBook_generate_result.
Qed.

(** when it does not print to a printer, [main] prints for an input
    file the names [generate] returns for [book_name] of it *)
Lemma main_file_prints opts cls path w w' :
  o_print opts = None →
  main_file opts cls path w = (Ok tt, w') →
  printed (trace w') = printed (trace w) ++ generated_names cls (book_name path).
Proof.
  intros Hp. unfold main_file. rewrite Hp.
  unfold mbind at 1, M_bind at 1, lift.
  destruct (get_file _ _ _ _) as [file|e]; [| done].
  unfold mbind at 1, M_bind at 1.
  pose proof (quiet_generate cls file (book_name path) w) as Hq.
  destruct (generate cls file (book_name path) w) as [[paths|e] w1] eqn:Hg; [| done].
  apply generate_result in Hg as ->. simpl in Hq.
  destruct (for_each_print (generated_names cls (book_name path)) w1) as (w2 & -> & H2).
  intros [= <-]. by rewrite H2, Hq.
Qed.

Lemma book_name_py36 path :
  py = Py36 → book_name path = strip_ext path +:+ "-book.pdf".
Proof.
  intros Hpy. unfold book_name. rewrite Hpy.
  destruct path as [|c path]; [done |].
  change [TGrp 1; TGrp 2; TLit "-book.pdf"] with book_template.
  rewrite re_sub_book by done. reflexivity.
Qed.

(** from Python 3.7 on the suffix comes twice *)
Lemma book_name_py37 path :
  py = Py37 → path ≠ "" →
  book_name path = strip_ext path +:+ "-book.pdf-book.pdf".
Proof.
  intros Hpy Hne. unfold book_name. rewrite Hpy.
  change [TGrp 1; TGrp 2; TLit "-book.pdf"] with book_template.
  rewrite re_sub_book by done. reflexivity.
Qed.

Lemma strip_ext_append_ext stem ext :
  has_char "." ext = false → strip_ext (stem +:+ "." +:+ ext) = stem.
Proof.
  intros Hext. induction stem as [|c stem IH]; simpl in *.
  - rewrite Hext. by change (Ascii.eqb "." ".") with true.
  - rewrite has_char_append. simpl.
    change (Ascii.eqb "." ".") with true. rewrite orb_true_r. by rewrite IH.
Qed.

Lemma extension_append_ext stem ext :
  has_char "." ext = false → extension (stem +:+ "." +:+ ext) = "." +:+ ext.
Proof.
  intros Hext. induction stem as [|c stem IH]; simpl in *.
  - rewrite Hext. by change (Ascii.eqb "." ".") with true.
  - rewrite has_char_append. simpl.
    change (Ascii.eqb "." ".") with true. by rewrite orb_true_r.
Qed.

(** C3, as amended. Under the [re.sub] of the Python the program was
    written for (up to 3.6), the name [main] writes to by default is the
    input path with its final extension replaced by [-book.pdf], or with
    [-book.pdf] appended when it has none; [main] prints that name with
    [-d], and without it the two names with [-odd] and [-even] inserted
    before [.pdf]. For [report.pdf] these are [report-book.pdf], and
    [report-book-odd.pdf] and [report-book-even.pdf]. *)
Theorem default_output_names :
  py = Py36 →
  (∀ path, book_name path = strip_ext path +:+ "-book.pdf")
  ∧ (∀ opts path w w',
       o_files opts = [path] → o_print opts = None →
       main opts w = (Ok tt, w') →
       printed (trace w')
       = printed (trace w)
         ++ (if o_double_paged opts then [book_name path]
             else [odd_name (book_name path); even_name (book_name path)]))
  ∧ (∀ path,
       all_chars dot (strip_ext path) = true →
       odd_name (book_name path) = strip_ext path +:+ "-book-odd.pdf"
       ∧ even_name (book_name path) = strip_ext path +:+ "-book-even.pdf")
  ∧ book_name "report.pdf" = "report-book.pdf"
  ∧ odd_name (book_name "report.pdf") = "report-book-odd.pdf"
  ∧ even_name (book_name "report.pdf") = "report-book-even.pdf".
Proof.
  intros Hpy.
  assert (∀ path marker,
            all_chars dot (strip_ext path) = true →
            re_sub py re_stem_ext [TGrp 1; TLit marker; TGrp 2] (book_name path)
            = strip_ext path +:+ "-book" +:+ marker +:+ ".pdf") as Hname.
  { intros path marker Hstem. rewrite book_name_py36 by done.
    change (strip_ext path +:+ "-book.pdf")
      with (strip_ext path +:+ "-book" +:+ "." +:+ "pdf").
    rewrite <- append_assoc, re_sub_stem_ext; [| | done].
    - by rewrite expand_marker, append_assoc.
    - by rewrite all_chars_append, Hstem. }
  split; [intros path; by apply book_name_py36 |].
  split.
  { intros opts path w w' Hf Hp. unfold main. rewrite Hf.
    replace (1 <? length [path])%nat with false by done.
    rewrite andb_false_r. simpl. unfold mbind, M_bind.
    destruct (main_file opts _ path w) as [[[]|e] w1] eqn:Hm; [| done].
    intros [= <-]. apply main_file_prints in Hm; [| done].
    rewrite Hm. by destruct (o_double_paged opts). }
  split.
  { intros path Hstem. unfold odd_name, even_name.
    rewrite !Hname by done. split; reflexivity. }
  assert (book_name "report.pdf" = "report-book.pdf") as Hb
    by (by rewrite book_name_py36).
  split; [exact Hb |]. rewrite Hb. unfold odd_name, even_name.
  change "report-book.pdf" with ("report-book" +:+ "." +:+ "pdf").
  by rewrite !re_sub_stem_ext.
Qed.

(** * Further properties of the program *)

(** ** [get_file]: the class of a file by its extension *)

#[local] Arguments lower_char : simpl never.

Lemma star_keeps {R} p i s (k : nat → string → option R) :
  is_Some (k i s) → is_Some (star p i s k).
Proof.
  intros H. destruct s as [|c s]; simpl; [done |].
  destruct (p c); [| done]. by destruct (star p (S i) s k).
Qed.

(** the greedy star matches exactly when the rest of the pattern matches
    after some run of the class *)
Lemma star_is_some {R} p i s (k : nat → string → option R) :
  is_Some (star p i s k)
  ↔ ∃ u v, s = u +:+ v ∧ all_chars p u = true
           ∧ is_Some (k (i + String.length u)%nat v).
Proof.
  split.
  - revert i. induction s as [|c s IH]; intros i; simpl.
    + intros H. exists "", "". by rewrite Nat.add_0_r.
    + destruct (p c) eqn:Hc.
      * destruct (star p (S i) s k) as [x|] eqn:E.
        -- intros _. destruct (IH (S i)) as (u & v & -> & Hu & Hk); [by rewrite E |].
           exists (String c u), v. simpl. rewrite Hc, Hu.
           by replace (i + S (String.length u))%nat with (S i + String.length u)%nat by lia.
        -- intros H. exists "", (String c s). by rewrite Nat.add_0_r.
      * intros H. exists "", (String c s). by rewrite Nat.add_0_r.
  - intros (u & v & -> & Hu & Hk). revert i Hk.
    induction u as [|c u IH]; intros i Hk; simpl in *.
    + apply star_keeps. by rewrite Nat.add_0_r in Hk.
    + apply andb_true_iff in Hu as [Hc Hu]. rewrite Hc.
      specialize (IH Hu (S i)).
      replace (S i + String.length u)%nat with (i + S (String.length u))%nat in IH by lia.
      destruct (IH Hk) as [x ->]. done.
Qed.

Lemma stake_sdrop n s : stake n s +:+ sdrop n s = s.
Proof.
  revert s. induction n as [|n IH]; intros [|c s]; simpl; try done.
  by rewrite IH.
Qed.

Lemma lower_append s t : lower (s +:+ t) = lower s +:+ lower t.
Proof.
  unfold lower. induction s as [|c s IH]; simpl; [done |]. by rewrite IH.
Qed.

Lemma lower_char_dot c : Ascii.eqb "." (lower_char c) = Ascii.eqb "." c.
Proof. by destruct c as [[] [] [] [] [] [] [] []]. Qed.

Lemma lower_char_newline c : Ascii.eqb newline (lower_char c) = Ascii.eqb newline c.
Proof. by destruct c as [[] [] [] [] [] [] [] []]. Qed.

Lemma has_char_dot_lower s : has_char "." (lower s) = has_char "." s.
Proof.
  unfold lower. induction s as [|c s IH]; simpl; [done |].
  by rewrite lower_char_dot, IH.
Qed.

Lemma at_eol_lower t : at_eol t = true → lower t = t.
Proof.
  destruct t as [|c [|d t]]; simpl; try done.
  intros H. apply Ascii.eqb_eq in H as ->. done.
Qed.

Lemma at_eol_cases t : at_eol t = true → t = "" ∨ t = String newline "".
Proof.
  destruct t as [|c [|d t]]; simpl; try done; [by left |].
  intros H. apply Ascii.eqb_eq in H as ->. by right.
Qed.

(** a literal, the case ignored, against the text *)
Lemma rmatch_Lit_ichr {R} w i s g (k : nat → string → caps → option R) :
  rmatch (Lit ichr w) i s g k
  = if String.eqb (lower (stake (String.length w) s)) (lower w)
    then k (i + String.length w)%nat (sdrop (String.length w) s) g
    else None.
Proof.
  revert i s. induction w as [|c w IH]; intros i s.
  - cbn [Lit rmatch String.length]. rewrite stake_0, sdrop_0, Nat.add_0_r. done.
  - destruct s as [|d s]; [done |].
    cbn [Lit rmatch String.length stake sdrop lower smap String.eqb].
    unfold ichr at 1. rewrite (Ascii.eqb_sym (lower_char c)).
    destruct (Ascii.eqb (lower_char d) (lower_char c)); [| done].
    rewrite IH. by replace (S i + String.length w)%nat
                      with (i + S (String.length w))%nat by lia.
Qed.

Lemma lower_length s : String.length (lower s) = String.length s.
Proof. unfold lower. induction s as [|c s IH]; simpl; [done | by rewrite IH]. Qed.

Lemma lower_split s a b :
  lower s = a +:+ b → ∃ s1 s2, s = s1 +:+ s2 ∧ lower s1 = a ∧ lower s2 = b.
Proof.
  revert s. induction a as [|c a IH]; intros s H.
  - by exists "", s.
  - destruct s as [|d s]; [done |]. injection H as Hc Hs.
    destruct (IH s Hs) as (s1 & s2 & -> & H1 & H2).
    exists (String d s1), s2. split; [done |]. split; [| done].
    unfold lower in *. simpl. by rewrite Hc, H1.
Qed.

Lemma lower_newline s : lower s = String newline "" → s = String newline "".
Proof.
  destruct s as [|c [|d s]]; try done. intros [= H].
  pose proof (lower_char_newline c) as E. rewrite H in E.
  change (Ascii.eqb newline newline) with true in E.
  symmetry in E. apply Ascii.eqb_eq in E as <-. done.
Qed.

(** after the run of [.]: a dot, the word in any case, the end *)
Lemma ext_tail_is_some {R} word i v g (k : nat → string → caps → option R) :
  (∀ j t g', is_Some (k j t g')) →
  is_Some (rmatch (Cat (Chr (only ".")) (Cat (Lit ichr word) Eol)) i v g k)
  ↔ ∃ e t, v = "." +:+ e +:+ t ∧ lower e = lower word ∧ at_eol t = true.
Proof.
  intros Hk. cbn [rmatch]. split.
  - destruct v as [|c v]; [by intros [? ?] |].
    destruct (only "." c) eqn:Hc; [| by intros [? ?]].
    apply only_true in Hc as ->. rewrite rmatch_Lit_ichr.
    destruct (String.eqb _ _) eqn:He; [| by intros [? ?]].
    apply String.eqb_eq in He.
    destruct (at_eol (sdrop (String.length word) v)) eqn:Ht; [| by intros [? ?]].
    intros _. exists (stake (String.length word) v), (sdrop (String.length word) v).
    by rewrite stake_sdrop.
  - intros (e & t & -> & He & Ht). simpl.
    change (only "." ".") with true. cbn iota. rewrite rmatch_Lit_ichr.
    assert (String.length word = String.length e) as ->.
    { by rewrite <- (lower_length word), <- He, lower_length. }
    rewrite stake_append, sdrop_append, He, String.eqb_refl, Ht. apply Hk.
Qed.

(** the decomposition of a path at its extension, and [has_extension] *)
Lemma has_extension_split word path :
  has_char "." word = false →
  has_extension word path = true
  ↔ ∃ u e t, path = u +:+ "." +:+ e +:+ t ∧ all_chars dot u = true
             ∧ lower e = word ∧ at_eol t = true.
Proof.
  intros Hw. unfold has_extension. split.
  - intros H. apply andb_true_iff in H as [Hs He].
    destruct (has_char "." path) eqn:Hd.
    + destruct (extension_split path Hd) as (ext & Hp & Hx & Hn).
      rewrite Hx in He. change ("." +:+ ext) with (String "." ext) in He.
      unfold lower in He. cbn [smap] in He. fold (lower ext) in He.
      change (lower_char ".") with "."%char in He.
      apply orb_true_iff in He as [He | He]; apply String.eqb_eq in He;
        injection He as He.
      * exists (strip_ext path), ext, "".
        rewrite append_nil_r. by rewrite <- Hp.
      * apply lower_split in He as (e & t & -> & He & Ht).
        apply lower_newline in Ht as ->.
        exists (strip_ext path), e, (String newline ""). by rewrite <- Hp.
    + exfalso. assert (extension path = "") as Hx.
      { clear -Hd. induction path as [|c p IH]; simpl in *; [done |].
        apply orb_false_iff in Hd as [Hc Hp].
        by rewrite Hp, Ascii.eqb_sym, Hc. }
      rewrite Hx in He. by apply orb_true_iff in He as [He | He].
  - intros (u & e & t & -> & Hu & He & Ht).
    assert (has_char "." (e +:+ t) = false) as Hn.
    { rewrite has_char_append, (at_eol_no_dot t Ht), orb_false_r.
      by rewrite <- has_char_dot_lower, He. }
    rewrite strip_ext_append_ext, extension_append_ext, Hu by done.
    change ("." +:+ (e +:+ t)) with (String "." (e +:+ t)).
    unfold lower. cbn [smap]. fold (lower (e +:+ t)).
    change (lower_char ".") with "."%char.
    rewrite lower_append, He, (at_eol_lower t Ht).
    apply at_eol_cases in Ht as [-> | ->].
    + rewrite append_nil_r, String.eqb_refl. done.
    + change ("." +:+ word +:+ String newline "")
        with (String "." (word +:+ String newline "")).
      rewrite (String.eqb_refl (String "." (word +:+ String newline ""))).
      by rewrite orb_true_r.
Qed.

Lemma matches_is_some r s : matches r s = true ↔ is_Some (re_match r s).
Proof.
  unfold matches. destruct (re_match r s); split; try done; by intros [? ?].
Qed.

Lemma matches_re_pdf path : matches re_pdf path = has_extension "pdf" path.
Proof.
  apply Bool.eq_true_iff_eq.
  rewrite matches_is_some, has_extension_split by done.
  unfold re_match, re_pdf. cbn [rmatch]. rewrite star_is_some. split.
  - intros (u & v & -> & Hu & Hv).
    apply (ext_tail_is_some "pdf") in Hv as (e & t & -> & He & Ht); [| by eexists].
    by exists u, e, t.
  - intros (u & e & t & -> & Hu & He & Ht).
    exists u, ("." +:+ e +:+ t). split; [done |]. split; [done |].
    apply (ext_tail_is_some "pdf"); [by eexists |]. by exists e, t.
Qed.

Lemma cpp_tail_is_some i v g :
  is_Some (rmatch (Cat (Chr (only "."))
                     (Cat (Grp 1 (Alt (Lit ichr "cpp") (Lit ichr "cxx"))) Eol))
             i v g (λ j _ g', Some (j, g')))
  ↔ ∃ e t, v = "." +:+ e +:+ t ∧ (lower e = "cpp" ∨ lower e = "cxx")
           ∧ at_eol t = true.
Proof.
  destruct v as [|c v].
  { split; [by intros [? ?] | by intros (e & t & ? & _)]. }
  cbn [rmatch]. destruct (only "." c) eqn:Hc.
  2: { split; [by intros [? ?] |]. intros (e & t & [= -> _] & _). done. }
  apply only_true in Hc as ->. rewrite !rmatch_Lit_ichr.
  change (String.length "cpp") with 3%nat. change (String.length "cxx") with 3%nat.
  change (lower "cpp") with "cpp". change (lower "cxx") with "cxx".
  split.
  - intros H. exists (stake 3 v), (sdrop 3 v). rewrite stake_sdrop.
    split; [done |].
    destruct (String.eqb (lower (stake 3 v)) "cpp") eqn:E1;
      destruct (String.eqb (lower (stake 3 v)) "cxx") eqn:E2;
      destruct (at_eol (sdrop 3 v)) eqn:Ht;
      try (by destruct H);
      try apply String.eqb_eq in E1; try apply String.eqb_eq in E2; auto.
  - intros (e & t & [= ->] & He & Ht).
    assert (String.length e = 3%nat) as Hl.
    { rewrite <- lower_length. by destruct He as [-> | ->]. }
    rewrite <- Hl, stake_append, sdrop_append, Ht.
    destruct He as [-> | ->]; done.
Qed.

Lemma matches_re_cpp path :
  matches re_cpp path = has_extension "cpp" path || has_extension "cxx" path.
Proof.
  apply Bool.eq_true_iff_eq.
  rewrite matches_is_some, orb_true_iff, !has_extension_split by done.
  unfold re_match, re_cpp. cbn [rmatch]. rewrite star_is_some. split.
  - intros (u & v & -> & Hu & Hv).
    apply cpp_tail_is_some in Hv as (e & t & -> & [He | He] & Ht);
      [left | right]; by exists u, e, t.
  - intros [(u & e & t & -> & Hu & He & Ht) | (u & e & t & -> & Hu & He & Ht)];
      exists u, ("." +:+ e +:+ t); (split; [done |]); (split; [done |]);
      apply cpp_tail_is_some; exists e, t; auto.
Qed.

Lemma has_extension_exclusive word word' path :
  word ≠ word' → String.length word = String.length word' →
  has_extension word path = true → has_extension word' path = false.
Proof.
  intros Hne Hlen. unfold has_extension.
  intros H. apply andb_true_iff in H as [_ H].
  apply andb_false_iff. right.
  assert (∀ a b : string, String.eqb a b = false ↔ a ≠ b) as Hneq.
  { intros a b. destruct (String.eqb_spec a b); split; done. }
  apply orb_false_iff.
  apply orb_true_iff in H as [H | H]; apply String.eqb_eq in H; rewrite H;
    split; apply Hneq; intros [= E].
  - done.
  - apply (f_equal String.length) in E. rewrite length_append in E. simpl in E. lia.
  - apply (f_equal String.length) in E. rewrite length_append in E. simpl in E. lia.
  - apply Hne. clear -E. revert word' E.
    induction word as [|c w IH]; intros [|d w'] E; simpl in *; try done.
    + by destruct w'.
    + by destruct w.
    + injection E as -> E. f_equal. by apply IH.
Qed.

Lemma has_extension_no_dot word path :
  has_char "." path = false → has_extension word path = false.
Proof.
  intros Hd. unfold has_extension.
  assert (extension path = "") as ->.
  { induction path as [|c p IH]; simpl in *; [done |].
    apply orb_false_iff in Hd as [Hc Hp]. by rewrite Hp, Ascii.eqb_sym, Hc. }
  by rewrite andb_false_r.
Qed.

(** X1. [get_file] goes by the final extension of the path, the case of
    its letters ignored: [pdf] gives a [PDFFile], [cpp] and [cxx] a
    [CPPFile], with the constructor's result or exception; every other
    path, and so every path without a dot, raises the [ValueError] of the
    unknown extension, and [main] then stops with the world as it was. A
    path may not have a newline before its last dot, and may end in one
    after the extension. *)
Theorem get_file_by_extension path selection raw_selection margins :
  get_file path selection raw_selection margins
  = (if has_extension "pdf" path
     then File_init PDFFile path selection raw_selection margins
     else if has_extension "cpp" path || has_extension "cxx" path
     then CPPFile_init path selection raw_selection margins
     else Raise (ValueError ["Unknown extension"; path]))
  ∧ (∀ word stem ext tail,
       has_char "." word = false → all_chars dot stem = true →
       lower ext = word → at_eol tail = true →
       path = stem +:+ "." +:+ ext +:+ tail →
       has_extension word path = true)
  ∧ (has_char "." path = false →
       get_file path selection raw_selection margins
       = Raise (ValueError ["Unknown extension"; path]))
  ∧ (∀ opts cls w,
       has_extension "pdf" path = false → has_extension "cpp" path = false →
       has_extension "cxx" path = false →
       main_file opts cls path w
       = (Raise (ValueError ["Unknown extension"; path]), w)).
Proof.
  assert (∀ sel raw ms,
            get_file path sel raw ms
            = (if has_extension "pdf" path
               then File_init PDFFile path sel raw ms
               else if has_extension "cpp" path || has_extension "cxx" path
               then CPPFile_init path sel raw ms
               else Raise (ValueError ["Unknown extension"; path]))) as Hget.
  { intros sel raw ms. unfold get_file. rewrite matches_re_pdf, matches_re_cpp.
    destruct (has_extension "pdf" path) eqn:Hpdf.
    - rewrite (has_extension_exclusive "pdf" "cpp"), (has_extension_exclusive "pdf" "cxx")
        by done.
      unfold PDFFile_init. by destruct (File_init PDFFile path sel raw ms).
    - simpl. destruct (_ || _); [| done].
      by destruct (CPPFile_init path sel raw ms). }
  split; [apply Hget |]. split; [| split].
  - intros word stem ext tail Hw Hs He Ht ->.
    apply has_extension_split; [done |]. by exists stem, ext, tail.
  - intros Hd. rewrite Hget. by rewrite !has_extension_no_dot.
  - intros opts cls w H1 H2 H3. unfold main_file.
    rewrite Hget, H1, H2, H3. done.
Qed.

(** ** The names of the outputs *)

Lemma strip_ext_extension path : strip_ext path +:+ extension path = path.
Proof.
  induction path as [|c p IH]; [done |]. cbn [strip_ext extension].
  destruct (has_char "." p) eqn:Hd; [simpl; by f_equal |].
  destruct (Ascii.eqb c "."); [done |].
  by rewrite append_nil_r, strip_ext_no_dot.
Qed.

Lemma extension_head path :
  extension path = "" ∨ ∃ e, extension path = String "." e.
Proof.
  induction path as [|c p IH]; simpl; [by left |].
  destruct (has_char "." p); [done |].
  destruct (Ascii.eqb_spec c ".") as [-> |]; [right; by eexists | by left].
Qed.

Lemma append_inv_l s t u : s +:+ t = s +:+ u → t = u.
Proof. induction s as [|c s IH]; simpl; [done |]. intros [= H]. by apply IH. Qed.

(** a name made of the stem of [path] and a suffix that does not begin
    with a dot is not [path] *)
Lemma stem_suffix_differs path suffix c :
  suffix = String c (sdrop 1 suffix) → c ≠ "."%char →
  strip_ext path +:+ suffix ≠ path.
Proof.
  intros Hs Hc E. rewrite <- (strip_ext_extension path) in E at 2.
  apply append_inv_l in E.
  destruct (extension_head path) as [Hx | [e Hx]]; rewrite Hx, Hs in E; [done |].
  by injection E as -> _.
Qed.

Lemma book_name_stem path :
  py = Py36 → all_chars dot (strip_ext path) = true →
  ∀ marker, re_sub py re_stem_ext [TGrp 1; TLit marker; TGrp 2] (book_name path)
            = strip_ext path +:+ "-book" +:+ marker +:+ ".pdf".
Proof.
  intros Hpy Hs marker. rewrite book_name_py36 by done.
  change "-book.pdf" with ("-book" +:+ "." +:+ "pdf").
  rewrite <- append_assoc.
  rewrite re_sub_stem_ext; [| by rewrite all_chars_append, Hs | done].
  rewrite expand_marker. by rewrite append_assoc.
Qed.

(** X2. No output has the name of the input: the name [main] writes to
    by default is never the input path, and the two outputs of
    [SinglePageBook.generate] for a path with an extension differ from
    the path and from each other; so do, under the [re.sub] of Python
    up to 3.6, the two names [main] makes for an input path. (The paths
    are taken without a newline before the last dot.) *)
Theorem outputs_are_distinct :
  (∀ path, book_name path ≠ path)
  ∧ (∀ path,
       has_char "." path = true → all_chars dot (strip_ext path) = true →
       odd_name path ≠ even_name path
       ∧ odd_name path ≠ path ∧ even_name path ≠ path)
  ∧ (py = Py36 → ∀ path,
       all_chars dot (strip_ext path) = true →
       odd_name (book_name path) ≠ even_name (book_name path)
       ∧ odd_name (book_name path) ≠ path
       ∧ even_name (book_name path) ≠ path).
Proof.
  split; [| split].
  - intros path. unfold book_name. fold book_template.
    destruct path as [|c p] eqn:Hp; [by rewrite re_sub_book_empty |].
    rewrite <- Hp. rewrite re_sub_book by (by rewrite Hp).
    apply (stem_suffix_differs _ _ "-"); [by destruct py | done].
  - intros path Hd Hs. unfold odd_name, even_name.
    rewrite !stem_ext_name by done. unfold insert_before_ext.
    split; [| split].
    + intros E. apply append_inv_l in E. done.
    + apply (stem_suffix_differs _ _ "-"); done.
    + apply (stem_suffix_differs _ _ "-"); done.
  - intros Hpy path Hs. unfold odd_name, even_name.
    rewrite !book_name_stem by done.
    split; [| split].
    + intros E. apply append_inv_l in E. done.
    + apply (stem_suffix_differs _ _ "-"); done.
    + apply (stem_suffix_differs _ _ "-"); done.
Qed.

(** ** Selections that are empty *)

(** X3. An empty list of pages is not the same as no selection: the
    [File] made with it holds the empty string for its raw selection, so
    that a [CPPFile] is refused although nothing is selected; [pdfjam]
    called with the empty list passes the empty string to the tool as its
    page argument; but a [PDFFile] made with it generates like one without
    selection, the empty string counting as none in [pdfjam]. *)
Theorem empty_selection_list path margins :
  (∀ cls self,
     File_init cls path (Some []) None margins = Ok self →
     File_raw_selection self = Some "")
  ∧ (∀ self,
       File_init CPPFile path (Some []) None margins = Ok self →
       CPPFile_init path (Some []) None margins
       = Raise (ValueError ["Selection is not supported"]))
  ∧ (∀ self self' out w,
       File_init PDFFile path (Some []) None margins = Ok self →
       File_init PDFFile path None None margins = Ok self' →
       File_generate self out w = File_generate self' out w)
  ∧ (∀ in_path out_path w r rs,
       replies w = r :: rs →
       trace (pdfjam in_path out_path (Some []) None false None (Paper_init "a5") w).2
       = EvExec ["pdfjam"; in_path; ""; "--paper"; "a5paper"; "-o"; out_path] r
           :: trace w).
Proof.
  split; [| split; [| split]].
  - intros cls self H. by rewrite (File_init_raw_selection _ _ _ _ _ _ H).
  - intros self H. unfold CPPFile_init. rewrite H. simpl.
    by rewrite (File_init_raw_selection _ _ _ _ _ _ H).
  - intros self self' out w H H'. unfold File_init in H, H'.
    destruct (match margins with
              | Some m => _
              | None => Ok None
              end) as [ms|e]; [| done].
    simpl in H, H'. by injection H as <-; injection H' as <-.
  - intros in_path out_path w r rs Hr. unfold pdfjam. rewrite bind_state.
    unfold execute. rewrite Hr. simpl. by destruct (returncode r =? 0).
Qed.

(** ** [pdfinfo]: the other fields *)



(** *** Characters *)

Lemma stake_length n s : (n ≤ String.length s)%nat → String.length (stake n s) = n.
Proof.
  revert s. induction n as [|n IH]; intros [|c s] H; simpl in *; try done; try lia.
  rewrite IH; [done | lia].
Qed.













(** *** The repetition of a class of characters *)



(** *** The size *)



Lemma forallb_digits_flat cs :
  forallb (λ c, one_char c && udigit c) cs = true →
  cs ≠ [] → flat cs ≠ "".
Proof.
  destruct cs as [|c cs]; [done |]. simpl.
  intros [[Hc _]%andb_true_iff _]%andb_true_iff _.
  apply bool_decide_eq_true in Hc. by destruct c.
Qed.












(** ** [pdfinfo]: the ends of lines *)

Lemma splitlines_line l eol rest :
  all_chars in_line l = true →
  eol = LF ∨ eol = CRLF
  ∨ (eol = CR ∧ match rest with String d _ => Ascii.eqb d newline | "" => false end
                = false) →
  splitlines (l +:+ eol +:+ rest) = l :: splitlines rest.
Proof.
  intros Hl Heol. induction l as [|c l IH].
  - destruct Heol as [-> | [-> | [-> Hr]]]; simpl.
    + done.
    + done.
    + destruct rest as [|d r]; [done |]. by rewrite Hr.
  - simpl in Hl. apply andb_true_iff in Hl as [Hc Hl].
    unfold in_line in Hc. apply andb_true_iff in Hc as [H1 H2].
    apply negb_true_iff in H1, H2.
    change (String c l +:+ eol +:+ rest) with (String c (l +:+ eol +:+ rest)).
    cbn [splitlines]. rewrite H1, H2, (IH Hl). done.
Qed.

Lemma splitlines_last l :
  l ≠ "" → all_chars in_line l = true → splitlines l = [l].
Proof.
  induction l as [|c l IH]; [done |]. intros _ Hl.
  simpl in Hl. apply andb_true_iff in Hl as [Hc Hl].
  unfold in_line in Hc. apply andb_true_iff in Hc as [H1 H2].
  apply negb_true_iff in H1, H2. cbn [splitlines]. rewrite H1, H2.
  destruct l as [|d l]; [done |]. by rewrite IH.
Qed.

Lemma unlines_head ls :
  Forall (λ l, all_chars in_line l = true) ls →
  match unlines CR ls with String d _ => Ascii.eqb d newline | "" => false end = false.
Proof.
  intros [|l ls' Hl _]; [done |]. simpl.
  destruct l as [|c l]; [done |]. simpl in *.
  apply andb_true_iff in Hl as [Hc _]. unfold in_line in Hc.
  apply andb_true_iff in Hc as [H1 _]. by apply negb_true_iff in H1.
Qed.

Lemma splitlines_unlines eol ls :
  eol = LF ∨ eol = CRLF ∨ eol = CR →
  Forall (λ l, all_chars in_line l = true) ls →
  splitlines (unlines eol ls) = ls.
Proof.
  intros Heol Hls. induction Hls as [|l ls Hl Hls IH]; [done |].
  cbn [unlines]. rewrite splitlines_line, IH; [done | done |].
  destruct Heol as [-> | [-> | ->]]; auto.
  right. right. split; [done |]. by apply unlines_head.
Qed.

(** X5. [pdfinfo] takes the lines of the output the same whether they
    end in a line feed, in a carriage return and a line feed, or in a
    carriage return alone, and a last line needs no end: the result of
    the parser is the same. *)
Theorem pdfinfo_line_endings ls :
  Forall (λ l, all_chars in_line l = true) ls →
  splitlines (unlines LF ls) = ls
  ∧ splitlines (unlines CRLF ls) = ls
  ∧ splitlines (unlines CR ls) = ls
  ∧ (∀ last, last ≠ "" → all_chars in_line last = true →
       splitlines (unlines LF ls +:+ last) = ls ++ [last])
  ∧ pdfinfo_parse (unlines CRLF ls) = pdfinfo_parse (unlines LF ls)
  ∧ pdfinfo_parse (unlines CR ls) = pdfinfo_parse (unlines LF ls).
Proof.
  intros Hls.
  assert (∀ eol, eol = LF ∨ eol = CRLF ∨ eol = CR →
                 splitlines (unlines eol ls) = ls) as H.
  { intros eol Heol. by apply splitlines_unlines. }
  split; [apply H; auto |]. split; [apply H; auto |]. split; [apply H; auto |].
  split.
  - intros last Hne Hlast. clear H.
    induction Hls as [|l ls Hl Hls IH]; [by apply splitlines_last |].
    cbn [unlines]. rewrite !append_assoc.
    rewrite splitlines_line, IH; [done | done | by left].
  - unfold pdfinfo_parse. rewrite !H; auto.
Qed.

(** ** The pipelines of external tools *)

Lemma execute_ok_run args w r rs :
  replies w = r :: rs → returncode r = 0 →
  ∃ w', execute args false w = (Ok r, w')
        ∧ replies w' = rs ∧ trace w' = EvExec args r :: trace w
        ∧ fs w ⊆ fs w'.
Proof.
  intros Hr Hc. unfold execute. rewrite Hr, Hc. simpl.
  eexists. split; [done |]. simpl. repeat split. set_solver.
Qed.

Lemma execute_fail_run args w r rs :
  replies w = r :: rs → returncode r ≠ 0 →
  ∃ w', execute args false w
        = (Raise (RuntimeError args (returncode r) (stdout r) (stderr r)), w')
        ∧ replies w' = rs ∧ trace w' = EvExec args r :: trace w
        ∧ fs w ⊆ fs w'.
Proof.
  intros Hr Hc. unfold execute. rewrite Hr.
  apply Z.eqb_neq in Hc. rewrite Hc. simpl.
  eexists. split; [done |]. simpl. repeat split. set_solver.
Qed.

Lemma os_remove_run p w :
  p ∈ fs w →
  ∃ w', os_remove p w = (Ok tt, w')
        ∧ replies w' = replies w ∧ trace w' = EvRemove p :: trace w
        ∧ fs w' = fs w ∖ {[p]}.
Proof.
  intros Hp. unfold os_remove. rewrite bool_decide_eq_true_2 by done.
  by eexists.
Qed.

(** [enscript] when both processes succeed *)
Lemma enscript_ok_run in_path out_path language paper font margins w ps w1 r1 r2 rs :
  mktemp "booker-" ".ps" w = (Ok ps, w1) →
  replies w = r1 :: r2 :: rs → returncode r1 = 0 → returncode r2 = 0 →
  ∃ w', enscript in_path out_path language paper font margins w = (Ok tt, w')
        ∧ trace w'
          = EvRemove ps :: EvExec ["ps2pdf"; ps; out_path] r2
              :: EvExec (["enscript"]
                         ++ opt_args language (λ l, ["-E"; l])
                         ++ opt_args paper (λ p, ["-M"; Paper_upper p])
                         ++ opt_args font (λ f, ["-f"; f])
                         ++ opt_args margins (λ m, ["--margins"; join ":" (map str m)])
                         ++ [in_path] ++ ["-o"; ps]) r1
              :: EvMkTemp ps :: trace w
        ∧ replies w' = rs ∧ fs w ⊆ fs w'.
Proof.
  intros Hm Hrs H1 H2.
  pose proof (mktemp_ok _ _ _ _ _ Hm) as (Hfresh & Hfs & Ht & Hr & _).
  assert (ps ∈ fs w1) as Hps by (rewrite Hfs; set_solver).
  rewrite <- Hr in Hrs.
  unfold enscript. unfold mbind at 1, M_bind at 1. rewrite Hm.
  unfold try_finally, mbind, M_bind.
  match goal with |- context [execute ?a false w1] =>
    destruct (execute_ok_run a w1 r1 (r2 :: rs) Hrs H1) as (w2 & E1 & Hr2 & Ht2 & Hf2)
  end.
  rewrite E1.
  match goal with |- context [execute ?a false w2] =>
    destruct (execute_ok_run a w2 r2 rs Hr2 H2) as (w3 & E2 & Hr3 & Ht3 & Hf3)
  end.
  rewrite E2. unfold mret, M_ret.
  destruct (os_remove_run ps w3) as (w4 & E3 & Hr4 & Ht4 & Hf4); [set_solver |].
  rewrite E3. exists w4.
  rewrite Ht4, Ht3, Ht2, Ht, Hr4, Hr3, Hf4.
  repeat split. clear -Hfresh Hfs Hf2 Hf3. set_solver.
Qed.

(** X6. [enscript] runs two processes in this order, [enscript] from
    the input to a temporary PostScript file and [ps2pdf] from that file
    to the output, and removes the file; when either process ends with a
    status that is not zero, it raises the [RuntimeError] with that
    command line, status and output, runs nothing more, and removes the
    file. *)
Theorem enscript_pipeline in_path out_path language paper font margins w ps w1 :
  mktemp "booker-" ".ps" w = (Ok ps, w1) →
  let first := ["enscript"]
       ++ opt_args language (λ l, ["-E"; l])
       ++ opt_args paper (λ p, ["-M"; Paper_upper p])
       ++ opt_args font (λ f, ["-f"; f])
       ++ opt_args margins (λ m, ["--margins"; join ":" (map str m)])
       ++ [in_path] ++ ["-o"; ps] in
  let second := ["ps2pdf"; ps; out_path] in
  (∀ r1 r2 rs,
     replies w = r1 :: r2 :: rs → returncode r1 = 0 → returncode r2 = 0 →
     ∃ w', enscript in_path out_path language paper font margins w = (Ok tt, w')
           ∧ trace w' = EvRemove ps :: EvExec second r2 :: EvExec first r1
                          :: EvMkTemp ps :: trace w
           ∧ replies w' = rs)
  ∧ (∀ r1 rs,
       replies w = r1 :: rs → returncode r1 ≠ 0 →
       ∃ w', enscript in_path out_path language paper font margins w
             = (Raise (RuntimeError first (returncode r1) (stdout r1) (stderr r1)), w')
             ∧ trace w' = EvRemove ps :: EvExec first r1 :: EvMkTemp ps :: trace w
             ∧ replies w' = rs)
  ∧ (∀ r1 r2 rs,
       replies w = r1 :: r2 :: rs → returncode r1 = 0 → returncode r2 ≠ 0 →
       ∃ w', enscript in_path out_path language paper font margins w
             = (Raise (RuntimeError second (returncode r2) (stdout r2) (stderr r2)), w')
             ∧ trace w' = EvRemove ps :: EvExec second r2 :: EvExec first r1
                            :: EvMkTemp ps :: trace w
             ∧ replies w' = rs).
Proof.
  intros Hm first second.
  pose proof (mktemp_ok _ _ _ _ _ Hm) as (_ & Hfs & Ht & Hr & _).
  assert (ps ∈ fs w1) as Hps by (rewrite Hfs; set_solver).
  split; [| split].
  - intros r1 r2 rs Hrs H1 H2.
    destruct (enscript_ok_run in_path out_path language paper font margins
                w ps w1 r1 r2 rs Hm Hrs H1 H2) as (w' & E & Ht' & Hr' & _).
    by exists w'.
  - intros r1 rs Hrs H1. rewrite <- Hr in Hrs.
    destruct (execute_fail_run first w1 r1 rs Hrs H1) as (w2 & E1 & Hr2 & Ht2 & Hf2).
    destruct (os_remove_run ps w2) as (w4 & E3 & Hr4 & Ht4 & _); [set_solver |].
    exists w4. unfold enscript. unfold mbind at 1, M_bind at 1. rewrite Hm.
    unfold try_finally, mbind, M_bind. fold first. rewrite E1, E3.
    by rewrite Ht4, Ht2, Ht, Hr4, Hr2.
  - intros r1 r2 rs Hrs H1 H2. rewrite <- Hr in Hrs.
    destruct (execute_ok_run first w1 r1 (r2 :: rs) Hrs H1) as (w2 & E1 & Hr2 & Ht2 & Hf2).
    destruct (execute_fail_run second w2 r2 rs Hr2 H2) as (w3 & E2 & Hr3 & Ht3 & Hf3).
    destruct (os_remove_run ps w3) as (w4 & E3 & Hr4 & Ht4 & _); [set_solver |].
    exists w4. unfold enscript. unfold mbind at 1, M_bind at 1. rewrite Hm.
    unfold try_finally, mbind, M_bind. fold first. rewrite E1.
    change (["ps2pdf"] ++ [ps] ++ [out_path]) with second. rewrite E2, E3.
    by rewrite Ht4, Ht3, Ht2, Ht, Hr4, Hr3.
Qed.

(** X7. [Book.generate] makes the content in a temporary PDF on A5
    paper, with [pdfjam] for a [PDFFile] and with [enscript] and [ps2pdf]
    for a [CPPFile], then runs [pdfbook] on A4 paper, short edge, with a
    frame, from the temporary PDF into the path, removes the temporary
    PDF and returns the path; when [pdfjam] fails, [pdfbook] is not
    run. *)
Theorem Book_pipeline content path w cp w1 :
  mktemp "booker-" ".pdf" w = (Ok cp, w1) →
  let book := ["pdfbook"; "--short-edge"; "--frame"; "true"; "--paper"; "a4paper";
               cp; "-o"; path] in
  let jam := ["pdfjam"; File_path content]
       ++ opt_args (or_else (File_raw_selection content) None) (λ s, [s])
       ++ opt_args (File_margins content)
            (λ m, ["--trim"; join " " (map (λ k, str (- k) +:+ "mm") m)])
       ++ ["--paper"; "a5paper"; "-o"; cp] in
  (File_class content = PDFFile →
     (∀ r1 r2 rs,
        replies w = r1 :: r2 :: rs → returncode r1 = 0 → returncode r2 = 0 →
        ∃ w', Book_generate content path w = (Ok [path], w')
              ∧ trace w' = EvRemove cp :: EvExec book r2 :: EvExec jam r1
                             :: EvMkTemp cp :: trace w
              ∧ replies w' = rs)
     ∧ (∀ r1 rs,
          replies w = r1 :: rs → returncode r1 ≠ 0 →
          ∃ w', Book_generate content path w
                = (Raise (RuntimeError jam (returncode r1) (stdout r1) (stderr r1)), w')
                ∧ trace w' = EvRemove cp :: EvExec jam r1 :: EvMkTemp cp :: trace w
                ∧ replies w' = rs))
  ∧ (File_class content = CPPFile →
     ∀ ps w2 r1 r2 r3 rs,
       mktemp "booker-" ".ps" w1 = (Ok ps, w2) →
       replies w = r1 :: r2 :: r3 :: rs →
       returncode r1 = 0 → returncode r2 = 0 → returncode r3 = 0 →
       ∃ w', Book_generate content path w = (Ok [path], w')
             ∧ commands (trace w')
               = commands (trace w)
                 ++ [ ["enscript"; "-E"; "cpp"; "-M"; "A5"; "-f"; "Courier8"]
                        ++ opt_args (File_margins content)
                             (λ m, ["--margins"; join ":" (map str m)])
                        ++ [File_path content; "-o"; ps];
                      ["ps2pdf"; ps; cp];
                      book ]
             ∧ replies w' = rs).
Proof.
  intros Hm book jam.
  pose proof (mktemp_ok _ _ _ _ _ Hm) as (Hfresh & Hfs & Ht & Hr & _).
  assert (cp ∈ fs w1) as Hcp by (rewrite Hfs; set_solver).
  split.
  - intros Hcls. split.
    + intros r1 r2 rs Hrs H1 H2. rewrite <- Hr in Hrs.
      destruct (execute_ok_run jam w1 r1 (r2 :: rs) Hrs H1) as (w2 & E1 & Hr2 & Ht2 & Hf2).
      destruct (execute_ok_run book w2 r2 rs Hr2 H2) as (w3 & E2 & Hr3 & Ht3 & Hf3).
      destruct (os_remove_run cp w3) as (w4 & E3 & Hr4 & Ht4 & _); [set_solver |].
      exists w4. unfold Book_generate. unfold mbind at 1, M_bind at 1. rewrite Hm.
      unfold mbind at 1, M_bind at 1. unfold try_finally.
      unfold File_generate. rewrite Hcls. unfold pdfjam, pdfbook.
      change (gen_raw_selection None) with (@None string).
      change (Paper_latex (Paper_init "a5")) with "a5paper".
      change (Paper_latex (Paper_init "a4")) with "a4paper".
      unfold mbind, M_bind.
      match goal with |- context [execute ?a false w1] => change a with jam end.
      rewrite E1. unfold mret, M_ret, lift, paths_eqb.
      rewrite bool_decide_eq_true_2 by done. simpl.
      match goal with |- context [execute ?a false w2] => change a with book end.
      rewrite E2, E3.
      by rewrite Ht4, Ht3, Ht2, Ht, Hr4, Hr3.
    + intros r1 rs Hrs H1. rewrite <- Hr in Hrs.
      destruct (execute_fail_run jam w1 r1 rs Hrs H1) as (w2 & E1 & Hr2 & Ht2 & Hf2).
      destruct (os_remove_run cp w2) as (w4 & E3 & Hr4 & Ht4 & _); [set_solver |].
      exists w4. unfold Book_generate. unfold mbind at 1, M_bind at 1. rewrite Hm.
      unfold mbind at 1, M_bind at 1. unfold try_finally.
      unfold File_generate. rewrite Hcls. unfold pdfjam.
      change (gen_raw_selection None) with (@None string).
      change (Paper_latex (Paper_init "a5")) with "a5paper".
      unfold mbind, M_bind.
      match goal with |- context [execute ?a false w1] => change a with jam end.
      rewrite E1, E3.
      by rewrite Ht4, Ht2, Ht, Hr4, Hr2.
  - intros Hcls ps w2 r1 r2 r3 rs Hm2 Hrs H1 H2 H3. rewrite <- Hr in Hrs.
    destruct (enscript_ok_run (File_path content) cp (Some "cpp")
                (Some (Paper_init "a5")) (Some "Courier8") (File_margins content)
                w1 ps w2 r1 r2 (r3 :: rs) Hm2 Hrs H1 H2)
      as (w3 & E1 & Ht3 & Hr3 & Hf3).
    destruct (execute_ok_run book w3 r3 rs Hr3 H3) as (w4 & E2 & Hr4 & Ht4 & Hf4).
    destruct (os_remove_run cp w4) as (w5 & E3 & Hr5 & Ht5 & Hf5); [set_solver |].
    exists w5. unfold Book_generate. unfold mbind at 1, M_bind at 1. rewrite Hm.
    unfold mbind at 1, M_bind at 1. unfold try_finally.
    unfold File_generate. rewrite Hcls. unfold pdfbook.
    change (Paper_latex (Paper_init "a4")) with "a4paper".
    unfold mbind, M_bind. rewrite E1.
    unfold mret, M_ret, lift, paths_eqb.
    rewrite bool_decide_eq_true_2 by done. simpl.
    match goal with |- context [execute ?a false w3] => change a with book end.
    rewrite E2, E3.
    split; [done |]. rewrite Ht5, Ht4, Ht3, Ht, Hr5, Hr4.
    split; [| done]. simpl. by rewrite <- !app_assoc.
Qed.

Lemma append_inv_r s t u : s +:+ u = t +:+ u → s = t.
Proof.
  revert t. induction s as [|c s IH]; intros [|d t] E; simpl in E; try done.
  - apply (f_equal String.length) in E. simpl in E. rewrite length_append in E. lia.
  - apply (f_equal String.length) in E. simpl in E. rewrite length_append in E. lia.
  - injection E as -> E. f_equal. by apply IH.
Qed.

(** X8. [pdfselect] takes the selection as it is given: when it
    returns, it has run [pdfinfo], [pdfseparate] and [pdfunite], the
    last with the page files of the selection in its order, repetitions
    and pages beyond the page count included. The file of page [k] is the
    temporary base followed by [-k.pdf], and different pages have
    different files. When [pdfinfo] fails, nothing else is done. *)
Theorem pdfselect_as_given in_path out_path selection w :
  (∀ w',
     pdfselect in_path out_path selection w = (Ok tt, w') →
     ∃ base t,
       trace w' = t ++ trace w
       ∧ commands t =
           [ ["pdfinfo"; in_path];
             ["pdfseparate"; in_path; base +:+ "-%d.pdf"];
             ["pdfunite"] ++ map (percent_d (base +:+ "-%d.pdf")) selection
               ++ [out_path] ])
  ∧ (∀ e w1,
       pdfinfo in_path w = (Raise e, w1) →
       pdfselect in_path out_path selection w = (Raise e, w1))
  ∧ (∀ base k,
       has_char "%" base = false →
       percent_d (base +:+ "-%d.pdf") k = base +:+ "-" +:+ str k +:+ ".pdf")
  ∧ (∀ base k k',
       has_char "%" base = false →
       percent_d (base +:+ "-%d.pdf") k = percent_d (base +:+ "-%d.pdf") k' →
       k = k').
Proof.
  split; [apply pdfselect_commands |]. split; [| split].
  - intros e w1 H. unfold pdfselect, mbind, M_bind. by rewrite H.
  - apply percent_d_base.
  - intros base k k' Hb E. rewrite !percent_d_base in E by done.
    apply append_inv_l in E. change ("-" +:+ ?x) with (String "-" x) in E.
    injection E as E. apply append_inv_r in E.
    by apply (inj pretty) in E.
Qed.

(** ** [main] without a printer *)

Lemma main_file_raise_prints opts cls path w e w' :
  o_print opts = None →
  main_file opts cls path w = (Raise e, w') →
  printed (trace w') = printed (trace w).
Proof.
  intros Hp. unfold main_file. rewrite Hp.
  unfold mbind at 1, M_bind at 1, lift.
  destruct (get_file _ _ _ _) as [file|e0]; [| by intros [= _ <-]].
  unfold mbind at 1, M_bind at 1.
  pose proof (quiet_generate cls file (book_name path) w) as Hq.
  destruct (generate cls file (book_name path) w) as [[paths|e0] w1] eqn:Hg.
  - destruct (for_each_print paths w1) as (w2 & -> & _). done.
  - intros [= _ <-]. done.
Qed.

Lemma main_files_print opts cls files w :
  o_print opts = None →
  ∃ k, (k ≤ length files)%nat
       ∧ printed (trace (for_each files (main_file opts cls) w).2)
         = printed (trace w)
           ++ concat (map (λ p, generated_names cls (book_name p)) (take k files))
       ∧ ((for_each files (main_file opts cls) w).1 = Ok tt → k = length files).
Proof.
  intros Hp. revert w. induction files as [|path files IH]; intros w.
  - exists 0%nat. simpl. by rewrite app_nil_r.
  - cbn [for_each]. unfold mbind, M_bind.
    destruct (main_file opts cls path w) as [[[]|e] w1] eqn:Hf.
    + destruct (IH w1) as (k & Hk & Hpr & Hok).
      exists (S k). split; [simpl; lia |]. split.
      * rewrite Hpr, (main_file_prints _ _ _ _ _ Hp Hf). simpl.
        by rewrite <- app_assoc.
      * intros H. by rewrite (Hok H).
    + exists 0%nat. split; [simpl; lia |]. split; [| done]. simpl.
      rewrite app_nil_r. by apply (main_file_raise_prints _ _ _ _ _ _ Hp Hf).
Qed.

(** the run that raises stopped at a file: the files before it were
    handled, and this one printed nothing *)
Lemma main_files_raise opts cls files : ∀ w e w',
  o_print opts = None →
  for_each files (main_file opts cls) w = (Raise e, w') →
  ∃ pre path post w1,
    files = pre ++ path :: post
    ∧ for_each pre (main_file opts cls) w = (Ok tt, w1)
    ∧ main_file opts cls path w1 = (Raise e, w')
    ∧ printed (trace w1)
      = printed (trace w)
        ++ concat (map (λ p, generated_names cls (book_name p)) pre)
    ∧ printed (trace w') = printed (trace w1).
Proof.
  induction files as [|path files IH]; intros w e w' Hp H; [done |].
  cbn [for_each] in H. unfold mbind, M_bind in H.
  destruct (main_file opts cls path w) as [[[]|e0] w0] eqn:Hf.
  - destruct (IH w0 e w' Hp H) as (pre & path' & post & w1 & -> & Hpre & Hfail & Hpr & Hq).
    exists (path :: pre), path', post, w1. split; [done |].
    split; [cbn [for_each]; unfold mbind, M_bind; by rewrite Hf |].
    split; [done |]. split; [| done].
    rewrite Hpr, (main_file_prints _ _ _ _ _ Hp Hf). simpl. by rewrite <- app_assoc.
  - injection H as <- <-. exists [], path, files, w.
    split; [done |]. split; [done |]. split; [done |].
    split; [simpl; by rewrite app_nil_r |].
    by apply (main_file_raise_prints _ _ _ _ _ _ Hp Hf).
Qed.

(** X9. Without [-p], [main] goes through the input files in order and
    prints for each the names of its outputs, one name with [-d] and the
    odd and even names without; when it returns it has printed the names
    for every file. When it raises, either it refused [--select] with
    several files and did nothing, or it stopped at one of the files: the
    files before it were handled and their names printed, this file
    raised the exception, and nothing was printed for it. *)
Theorem main_prints_every_file opts w :
  o_print opts = None →
  let cls := if o_double_paged opts then Book else SinglePageBook in
  let names := λ p, generated_names cls (book_name p) in
  (∀ w', main opts w = (Ok tt, w') →
         printed (trace w')
         = printed (trace w) ++ concat (map names (o_files opts)))
  ∧ (∀ e w', main opts w = (Raise e, w') →
       (e = ValueError ["--select flag is possible for single file"] ∧ w' = w
        ∧ o_select opts ≠ None ∧ (1 < length (o_files opts))%nat)
       ∨ ∃ pre path post w1,
           o_files opts = pre ++ path :: post
           ∧ for_each pre (main_file opts cls) w = (Ok tt, w1)
           ∧ main_file opts cls path w1 = (Raise e, w')
           ∧ printed (trace w1) = printed (trace w) ++ concat (map names pre)
           ∧ printed (trace w') = printed (trace w1)).
Proof.
  intros Hp cls names. unfold main.
  destruct (_ && _) eqn:Hsel.
  - split; [done |]. intros e w' [= <- <-]. left.
    apply andb_true_iff in Hsel as [H1%bool_decide_eq_true H2%Nat.ltb_lt]. done.
  - fold cls. split.
    + destruct (main_files_print opts cls (o_files opts) w Hp)
        as (k & Hk & Hpr & Hok).
      intros w' H. rewrite H in Hpr, Hok. simpl in Hpr, Hok.
      rewrite Hpr, Hok by done. by rewrite firstn_all.
    + intros e w' H. right. by apply main_files_raise.
Qed.

(** *** The events of a run *)

Section Emits.

Variable P : event → bool.
Hypothesis P_temp : ∀ p, P (EvMkTemp p) = true.
Hypothesis P_remove : ∀ p, P (EvRemove p) = true.
Hypothesis P_tool : ∀ args r, run_of seven_tools args = true → P (EvExec args r) = true.

Lemma emits_ret {A} (a : A) : emits P (mret a : M A).
Proof. intros w. by exists []. Qed.

Lemma emits_lift {A} (r : res A) : emits P (lift r).
Proof. intros w. by exists []. Qed.

Lemma emits_raise {A} (e : exn) : emits P (raise e : M A).
Proof. intros w. by exists []. Qed.

Lemma emits_bind {A B} (m : M A) (f : A → M B) :
  emits P m → (∀ a, emits P (f a)) → emits P (m ≫= f).
Proof.
  intros Hm Hf w. rewrite bind_state. destruct (Hm w) as (t1 & Ht1 & H1).
  destruct (m w) as [[a|e] w1]; simpl in *; [| by exists t1].
  destruct (Hf a w1) as (t2 & Ht2 & H2). exists (t2 ++ t1). split.
  - by rewrite Ht2, Ht1, app_assoc.
  - by rewrite forallb_app, H1, H2.
Qed.

Lemma emits_try_finally {A} (body : M A) (fin : M unit) :
  emits P body → emits P fin → emits P (try_finally body fin).
Proof.
  intros Hb Hf w. unfold try_finally. destruct (Hb w) as (t1 & Ht1 & H1).
  destruct (body w) as [r w1]; simpl in *.
  destruct (Hf w1) as (t2 & Ht2 & H2).
  exists (t2 ++ t1). split; [| by rewrite forallb_app, H1, H2].
  rewrite <- app_assoc, <- Ht1, <- Ht2.
  by destruct (fin w1) as [[u|e] w2].
Qed.

Lemma emits_for_each {A} (l : list A) (body : A → M unit) :
  (∀ a, emits P (body a)) → emits P (for_each l body).
Proof.
  intros Hb. induction l as [|a l IH]; simpl; [apply emits_ret |].
  apply emits_bind; [apply Hb | by intros _].
Qed.

Lemma emits_mktemp prefix suffix : emits P (mktemp prefix suffix).
Proof.
  intros w. unfold mktemp. destruct (mkstemp _ _ _ _ _) as [[p cs]|]; simpl.
  - exists [EvMkTemp p]. simpl. by rewrite P_temp.
  - by exists [].
Qed.

Lemma emits_os_remove p : emits P (os_remove p).
Proof.
  intros w. unfold os_remove. case_bool_decide; simpl.
  - exists [EvRemove p]. simpl. by rewrite P_remove.
  - by exists [].
Qed.

Lemma emits_os_path_exists p : emits P (os_path_exists p).
Proof. intros w. by exists []. Qed.

Lemma emits_execute args ig :
  (∀ r, P (EvExec args r) = true) → emits P (execute args ig).
Proof.
  intros H w. unfold execute. destruct (replies w) as [|r rs]; [by exists [] |].
  exists [EvExec args r]. simpl. rewrite H. by destruct (_ && _).
Qed.

Lemma emits_tool args ig :
  run_of seven_tools args = true → emits P (execute args ig).
Proof. intros H. apply emits_execute. intros r. by apply P_tool. Qed.

Ltac emits_steps :=
  repeat first
    [ apply emits_ret | apply emits_lift | apply emits_raise
    | apply emits_mktemp | apply emits_os_remove | apply emits_os_path_exists
    | apply emits_tool; reflexivity
    | apply emits_bind; [| intros ?]
    | apply emits_try_finally
    | apply emits_for_each; intros ?
    | match goal with |- emits _ (if ?b then _ else _) => destruct b end ].

Lemma emits_enscript in_path out_path language paper font margins :
  emits P (enscript in_path out_path language paper font margins).
Proof. unfold enscript. emits_steps. Qed.

Lemma emits_pdfbook in_path out_path short_edge frame paper :
  emits P (pdfbook in_path out_path short_edge frame paper).
Proof. unfold pdfbook. emits_steps. Qed.

Lemma emits_pdfjam in_path out_path sel raw landscape margins paper :
  emits P (pdfjam in_path out_path sel raw landscape margins paper).
Proof. unfold pdfjam. emits_steps. Qed.

Lemma emits_pdfinfo path : emits P (pdfinfo path).
Proof. unfold pdfinfo. emits_steps. Qed.

Lemma emits_pdfselect in_path out_path selection :
  emits P (pdfselect in_path out_path selection).
Proof.
  unfold pdfselect, pdfseparate, pdfunite.
  apply emits_bind; [apply emits_pdfinfo | intros info]. emits_steps.
Qed.

Lemma emits_File_generate self path : emits P (File_generate self path).
Proof.
  unfold File_generate. destruct (File_class self).
  - apply emits_raise.
  - apply emits_bind; [apply emits_pdfjam | intros ?; apply emits_ret].
  - apply emits_bind; [apply emits_enscript | intros ?; apply emits_ret].
Qed.

Lemma emits_Book_generate content path : emits P (Book_generate content path).
Proof.
  unfold Book_generate.
  apply emits_bind; [apply emits_mktemp | intros cp].
  apply emits_bind; [| intros ?; apply emits_ret].
  apply emits_try_finally; [| apply emits_os_remove].
  apply emits_bind; [apply emits_File_generate | intros res].
  apply emits_bind; [apply emits_lift | intros ?; apply emits_pdfbook].
Qed.

Lemma emits_SinglePageBook_generate content path odd_path even_path :
  emits P (SinglePageBook_generate content path odd_path even_path).
Proof.
  unfold SinglePageBook_generate.
  apply emits_bind; [apply emits_mktemp | intros bp].
  apply emits_bind; [| intros ?; apply emits_ret].
  apply emits_try_finally; [| apply emits_os_remove].
  apply emits_bind; [apply emits_Book_generate | intros res].
  apply emits_bind; [apply emits_lift | intros ?].
  apply emits_bind; [apply emits_pdfinfo | intros info].
  apply emits_bind; [apply emits_lift | intros n].
  apply emits_bind; [apply emits_lift | intros ?].
  apply emits_bind; [apply emits_pdfselect | intros ?; apply emits_pdfselect].
Qed.

Lemma emits_generate cls content path : emits P (generate cls content path).
Proof.
  destruct cls; [apply emits_Book_generate | apply emits_SinglePageBook_generate].
Qed.

End Emits.

Lemma emits_print P line : P (EvPrint line) = true → emits P (print line).
Proof. intros H w. exists [EvPrint line]. simpl. by rewrite H. Qed.


Lemma emits_main_default opts cls path :
  o_print opts = None → emits batch_event (main_file opts cls path).
Proof.
  intros Hp. unfold main_file. rewrite Hp.
  apply emits_bind; [apply emits_lift | intros file].
  apply emits_bind; [by apply emits_generate | intros res].
  apply emits_for_each. intros r. by apply emits_print.
Qed.

(** X10. Without [-p], [main] asks nothing on the standard input and
    runs no program but the seven tools ([enscript], [ps2pdf], [pdfjam],
    [pdfbook], [pdfinfo], [pdfseparate], [pdfunite]): in particular it
    never runs [lpr]. This holds for every run, whether it returns or
    raises. *)
Theorem main_without_printer opts w :
  o_print opts = None →
  ∃ t, trace (main opts w).2 = t ++ trace w ∧ forallb batch_event t = true.
Proof.
  intros Hp. revert w. change (emits batch_event (main opts)).
  unfold main. destruct (_ && _); [apply emits_raise |].
  apply emits_for_each. intros path. by apply emits_main_default.
Qed.






(** *** The files of a run *)


Lemma framed_for_each {A} X O (l : list A) (body : A → M unit) :
  (∀ a, framed X O (body a)) → framed X O (for_each l body).
Proof.
  intros Hb. induction l as [|a l IH]; simpl; [apply framed_ret |].
  apply framed_bind; [apply Hb | by intros _].
Qed.

Lemma framed_generate cls content path :
  framed ∅ (list_to_set (generated_names cls path)) (generate cls content path).
Proof.
  destruct cls; simpl.
  - eapply framed_weaken; [apply framed_Book_generate | |]; set_solver.
  - eapply framed_weaken; [apply framed_SinglePageBook_generate | |].
    + done.
    + unfold odd_name, even_name. set_solver.
Qed.



Lemma adds_print O line : adds O (print line).
Proof. intros w. unfold print. simpl. set_solver. Qed.

Lemma adds_for_each {A} O (l : list A) (body : A → M unit) :
  (∀ a, a ∈ l → adds O (body a)) → adds O (for_each l body).
Proof.
  intros Hb. induction l as [|a l IH]; simpl; [apply adds_ret |].
  apply adds_bind; [apply Hb; left | intros _].
  apply IH. intros b Hin. apply Hb. by right.
Qed.

(** X13. With [-d] and without [-p], [main] removes no file that was
    there before it ran, and the only files it adds are the booklets it
    names for its input files; this holds for every run, whatever the
    tools answer and whether it ends in an exception or not. *)
Theorem main_double_paged_keeps_files opts w :
  o_print opts = None → o_double_paged opts = true →
  fs w ⊆ fs (main opts w).2
  ∧ fs (main opts w).2 ⊆ fs w ∪ list_to_set (map book_name (o_files opts)).
Proof.
  intros Hp Hd.
  assert (adds (list_to_set (map book_name (o_files opts))) (main opts)) as H.
  { unfold main. destruct (_ && _); [apply adds_raise |]. rewrite Hd.
    apply adds_for_each. intros path Hin.
    unfold main_file. rewrite Hp.
    apply adds_bind; [apply adds_lift | intros file].
    apply adds_bind; [| intros res; apply adds_for_each; intros r _; apply adds_print].
    simpl. eapply adds_weaken; [apply adds_Book_generate |].
    apply singleton_subseteq_l, elem_of_list_to_set, list_elem_of_fmap.
    by exists path. }
  apply H.
Qed.

(** *** The files of a printing run *)

Lemma framed_input prompt : framed ∅ ∅ (input prompt).
Proof.
  intros w [Hc Hl]. unfold frame, good, input.
  destruct (stdin w) as [|l ls]; simpl; (split; [split; [done |] |]; set_solver).
Qed.

Lemma framed_lpr path printer double_paged : framed ∅ ∅ (lpr path printer double_paged).
Proof.
  unfold lpr. apply framed_bind; [by apply framed_execute_none |].
  intros _. apply framed_ret.
Qed.

Lemma framed_print_loop printer (res : list string) :
  framed ∅ ∅ (for_each res (λ r,
                 response ← input ("print " +:+ r +:+ "? [Y/n] ");
                 if in_list response ["n"; "N"] then mret tt
                 else lpr r printer false)).
Proof.
  apply framed_for_each. intros r.
  apply framed_bind; [apply framed_input | intros response].
  destruct (in_list _ _); [apply framed_ret | apply framed_lpr].
Qed.

Lemma remove_all_frame (res : list string) w0 : ∀ X O w w',
  for_each res os_remove w = (Ok tt, w') → frame X O w0 w →
  frame (X ∖ list_to_set res) (O ∖ list_to_set res) w0 w'.
Proof.
  induction res as [|p res IH]; intros X O w w' E H.
  - injection E as <-. eapply frame_weaken; [done | |]; set_solver.
  - cbn [for_each] in E. unfold mbind, M_bind in E.
    pose proof (os_remove_frame X O p w0 w H) as H1.
    destruct (os_remove p w) as [[[]|e] w1]; [| done]. simpl in H1.
    apply (IH _ _ _ _ E) in H1.
    eapply frame_weaken; [done | |]; set_solver.
Qed.

Lemma main_print_frame cls file printer path w w' :
  good w → main_print cls file printer path w = (Ok tt, w') → frame ∅ ∅ w w'.
Proof.
  intros Hw. unfold main_print.
  destruct (mktemp "booker-" ".pdf" w) as [[p|e] w1] eqn:Em.
  2: { unfold try_finally, raise. by destruct (print_cleanup _ _ _) as [[[]|?] ?]. }
  pose proof (mktemp_frame _ _ _ _ _ Hw Em) as F1.
  destruct (generate cls file p w1) as [[res|e] w2] eqn:Eg.
  2: { unfold try_finally, raise. by destruct (print_cleanup _ _ _) as [[[]|?] ?]. }
  pose proof (generate_result _ _ _ _ _ _ Eg) as Hres.
  pose proof (framed_generate cls file p w1 (proj1 F1)) as F2.
  rewrite Eg in F2. simpl in F2. rewrite <- Hres in F2.
  pose proof (frame_trans _ _ _ _ _ _ _ F1 F2) as F12.
  unfold try_finally.
  pose proof (framed_print_loop printer res w2 (proj1 F2)) as F3.
  destruct (for_each res _ w2) as [r w3]. simpl in F3.
  pose proof (frame_trans _ _ _ _ _ _ _ F12 F3) as F123.
  unfold print_cleanup, mbind, M_bind.
  case_bool_decide as Hin.
  - pose proof (os_remove_frame _ _ p _ _ F123) as F4.
    destruct (os_remove p w3) as [[[]|e] w4]; [| done]. simpl in F4.
    destruct (for_each res os_remove w4) as [[[]|e] w5] eqn:Er; [| done].
    intros E. injection E as -> <-.
    eapply frame_weaken; [apply (remove_all_frame _ _ _ _ _ _ Er F4) | |]; set_solver.
  - simpl.
    destruct (for_each res os_remove w3) as [[[]|e] w5] eqn:Er; [| done].
    intros E. injection E as -> <-.
    assert (p ∈ (list_to_set res : gset string)) by set_solver.
    eapply frame_weaken; [apply (remove_all_frame _ _ _ _ _ _ Er F123) | |]; set_solver.
Qed.

(** X14. With [-p], a run of [main] that returns leaves nothing behind:
    in a world where the tools agree on page counts, no temporary file
    and no file at all is there afterwards that was not there before. *)
Theorem main_print_leaves_nothing opts printer w w' :
  o_print opts = Some printer → good w → main opts w = (Ok tt, w') →
  good w' ∧ live (trace w') ⊆ live (trace w) ∧ fs w' ⊆ fs w.
Proof.
  intros Hp Hw. unfold main. destruct (_ && _); [done |].
  generalize (if o_double_paged opts then Book else SinglePageBook). intros cls.
  intros E.
  assert (frame ∅ ∅ w w') as (Hg & Hl & Hf); [| split; [done |]; split; set_solver].
  revert w Hw E. generalize (o_files opts). intros files.
  induction files as [|path files IH]; intros w Hw E.
  - injection E as <-. by apply frame_refl.
  - cbn [for_each] in E. unfold mbind, M_bind in E.
    destruct (main_file opts cls path w) as [[[]|e] w1] eqn:E1; [| done].
    assert (frame ∅ ∅ w w1) as F1.
    { unfold main_file, mbind, M_bind, lift in E1. rewrite Hp in E1.
      destruct (get_file _ _ _ _) as [file|e]; [| done].
      by apply (main_print_frame _ _ _ _ _ _ Hw E1). }
    eapply frame_weaken; [apply (frame_trans _ _ _ _ _ _ _ F1 (IH _ (proj1 F1) E)) | |];
      set_solver.
Qed.

(** *** The questions of a printing run *)

Lemma os_remove_keeps p w :
  let w' := (os_remove p w).2 in
  stdin w' = stdin w ∧ replies w' = replies w
  ∧ commands (trace w') = commands (trace w) ∧ asked (trace w') = asked (trace w).
Proof. unfold os_remove. by case_bool_decide. Qed.

Lemma remove_all_keeps (res : list string) : ∀ w,
  let w' := (for_each res os_remove w).2 in
  stdin w' = stdin w ∧ replies w' = replies w
  ∧ commands (trace w') = commands (trace w) ∧ asked (trace w') = asked (trace w).
Proof.
  induction res as [|p res IH]; intros w; [done |].
  cbn [for_each]. cbv zeta. rewrite bind_state.
  pose proof (os_remove_keeps p w) as H.
  destruct (os_remove p w) as [[[]|e] w1]; simpl in H; [| done].
  destruct (IH w1) as (H1 & H2 & H3 & H4). destruct H as (K1 & K2 & K3 & K4).
  by rewrite H1, H2, H3, H4.
Qed.

Lemma print_cleanup_keeps path res w :
  let w' := (print_cleanup path res w).2 in
  stdin w' = stdin w ∧ replies w' = replies w
  ∧ commands (trace w') = commands (trace w) ∧ asked (trace w') = asked (trace w).
Proof.
  unfold print_cleanup. cbv zeta. rewrite bind_state.
  case_bool_decide as Hin.
  - pose proof (os_remove_keeps path w) as K.
    destruct (os_remove path w) as [[[]|e] w1]; simpl in K; [| done].
    destruct (remove_all_keeps res w1) as (H1 & H2 & H3 & H4).
    destruct K as (K1 & K2 & K3 & K4). by rewrite H1, H2, H3, H4.
  - apply remove_all_keeps.
Qed.

Lemma try_finally_state {A} (body : M A) fin w :
  (try_finally body fin w).2 = (fin (body w).2).2.
Proof.
  unfold try_finally. destruct (body w) as [r w1]. simpl.
  by destruct (fin w1) as [[[]|e] w2].
Qed.

Lemma print_loop_run printer (res : list string) : ∀ answers rest sent rs w,
  stdin w = answers ++ rest → length answers = length res →
  replies w = sent ++ rs → length sent = length (to_print res answers) →
  Forall (λ r, returncode r = 0) sent →
  ∃ w', for_each res (λ r,
          response ← input ("print " +:+ r +:+ "? [Y/n] ");
          if in_list response ["n"; "N"] then mret tt
          else lpr r printer false) w = (Ok tt, w')
        ∧ commands (trace w')
          = commands (trace w) ++ map (lpr_line printer) (to_print res answers)
        ∧ asked (trace w')
          = asked (trace w) ++ map (λ r, "print " +:+ r +:+ "? [Y/n] ") res
        ∧ stdin w' = rest ∧ replies w' = rs.
Proof.
  induction res as [|r res IH]; intros answers rest sent rs w Hs Hla Hr Hls Hok.
  - destruct answers; [| done]. destruct sent; [| done].
    exists w. simpl. by rewrite !app_nil_r.
  - destruct answers as [|a answers]; [done |].
    cbn [for_each]. unfold mbind at 1, M_bind at 1, mbind at 1, M_bind at 1.
    unfold input at 1. rewrite Hs. cbn [app].
    set (w1 := record _ _).
    cbn [to_print] in *. simpl in Hla.
    destruct (in_list a ["n"; "N"]) eqn:Ha.
    + destruct (IH answers rest sent rs w1) as (w' & E & Hc & Hq & Hi & Hrs);
        [done | lia | done | done | done |].
      exists w'. split; [done |]. split; [done |]. split; [| done].
      rewrite Hq. simpl. by rewrite <- app_assoc.
    + destruct sent as [|r0 sent]; [done |].
      apply Forall_cons in Hok as [Hr0 Hok].
      unfold lpr, mbind at 1, M_bind at 1, execute.
      replace (replies w1) with (r0 :: sent ++ rs) by done.
      rewrite Hr0. cbn [Z.eqb negb andb]. set (w2 := record _ _).
      destruct (IH answers rest sent rs w2) as (w' & E & Hc & Hq & Hi & Hrs);
        [done | lia | done | simpl in Hls; lia | done |].
      exists w'. split; [done |]. rewrite Hc, Hq. simpl.
      split; [by rewrite <- app_assoc |]. split; [by rewrite <- app_assoc | done].
Qed.

(** X15. When [main] prints, it asks about each generated file in turn,
    and a file is sent to [lpr] unless the answer is exactly n or N:
    with an answer for every file and an [lpr] that succeeds, the
    commands run after [generate] are the [lpr] lines of the files not
    refused, in order, and the answers are used up one per file. *)
Theorem print_answers cls file printer path w tmp w1 res w2 answers rest sent rs :
  mktemp "booker-" ".pdf" w = (Ok tmp, w1) →
  generate cls file tmp w1 = (Ok res, w2) →
  stdin w2 = answers ++ rest → length answers = length res →
  replies w2 = sent ++ rs → length sent = length (to_print res answers) →
  Forall (λ r, returncode r = 0) sent →
  let w' := (main_print cls file printer path w).2 in
  commands (trace w')
  = commands (trace w2) ++ map (lpr_line printer) (to_print res answers)
  ∧ asked (trace w')
    = asked (trace w2) ++ map (λ r, "print " +:+ r +:+ "? [Y/n] ") res
  ∧ stdin w' = rest ∧ replies w' = rs.
Proof.
  intros Em Eg Hs Hla Hr Hls Hok w'. subst w'.
  unfold main_print. rewrite Em, Eg, try_finally_state.
  destruct (print_loop_run printer res answers rest sent rs w2)
    as (w3 & -> & Hc & Hq & Hi & Hrs); [done .. |].
  simpl. destruct (print_cleanup_keeps tmp res w3) as (H1 & H2 & H3 & H4).
  by rewrite H1, H2, H3, H4.
Qed.

(** *** The raw selection *)

Lemma digits_no_comma s : all_chars is_digit s = true → has_char "," s = false.
Proof.
  induction s as [|c s IH]; [done |]. simpl.
  intros [Hc Hs]%andb_true_iff. rewrite (IH Hs), orb_false_r.
  destruct (Ascii.eqb "," c) eqn:E; [| done].
  apply Ascii.eqb_eq in E. by subst c.
Qed.

Lemma str_no_comma (k : Z) : has_char "," (str k) = false.
Proof.
  destruct k as [|p|p].
  - done.
  - apply digits_no_comma, (str_digits_value (N.pos p)).
  - unfold str. change (pretty (Z.neg p)) with ("-" +:+ str (Z.of_N (N.pos p))).
    change (has_char "," ("-" +:+ ?s)) with (has_char "," s).
    apply digits_no_comma, (str_digits_value (N.pos p)).
Qed.

Lemma comma_split x : ∀ x' s s',
  has_char "," x = false → has_char "," x' = false →
  x +:+ "," +:+ s = x' +:+ "," +:+ s' → x = x' ∧ s = s'.
Proof.
  induction x as [|c x IH]; intros [|c' x'] s s' Hx Hx' E; simpl in *.
  - by injection E.
  - injection E as <- _. by rewrite Ascii.eqb_refl in Hx'.
  - injection E as -> _. by rewrite Ascii.eqb_refl in Hx.
  - injection E as <- E. apply orb_false_iff in Hx as [_ Hx].
    apply orb_false_iff in Hx' as [_ Hx'].
    destruct (IH _ _ _ Hx Hx' E) as [-> ->]. done.
Qed.

Lemma comma_absent x y s : has_char "," x = false → x ≠ y +:+ "," +:+ s.
Proof.
  intros Hx ->. revert Hx. induction y as [|c y IH]; simpl.
  - done.
  - intros [_ H]%orb_false_iff. by apply IH.
Qed.

Lemma join_comma_inj (l : list string) : ∀ l',
  Forall (λ x, x ≠ "" ∧ has_char "," x = false) l →
  Forall (λ x, x ≠ "" ∧ has_char "," x = false) l' →
  join "," l = join "," l' → l = l'.
Proof.
  induction l as [|x l IH]; intros l' Hl Hl' E.
  - destruct l' as [|x' l']; [done |].
    apply Forall_cons in Hl' as [[Hx' _] _].
    symmetry in E. by apply join_nonempty in E.
  - destruct l' as [|x' l'].
    { apply Forall_cons in Hl as [[Hx _] _]. by apply join_nonempty in E. }
    apply Forall_cons in Hl as [[Hx Hc] Hl].
    apply Forall_cons in Hl' as [[Hx' Hc'] Hl'].
    destruct l as [|y l], l' as [|y' l'].
    + simpl in E. by subst.
    + exfalso. by apply (comma_absent x x' (join "," (y' :: l'))).
    + exfalso. symmetry in E. by apply (comma_absent x' x (join "," (y :: l))).
    + change (x +:+ "," +:+ join "," (y :: l) = x' +:+ "," +:+ join "," (y' :: l')) in E.
      apply comma_split in E as [-> E]; [| done | done].
      f_equal. by apply IH.
Qed.

(** X16. The raw selection determines the selection: two different lists
    of page numbers never give the same page argument, and a list of
    pages never gives the argument of no selection at all. *)
Theorem gen_raw_selection_injective (selection selection' : option (list Z)) :
  selection ≠ selection' →
  gen_raw_selection selection ≠ gen_raw_selection selection'.
Proof.
  assert (∀ l : list Z, Forall (λ x, x ≠ "" ∧ has_char "," x = false) (map str l)) as H.
  { intros l. apply Forall_forall. intros x (k & -> & _)%list_elem_of_fmap.
    split; [apply str_nonempty | apply str_no_comma]. }
  intros Hne E. apply Hne. revert E.
  destruct selection as [l|], selection' as [l'|]; simpl; try done.
  intros [= E]. f_equal.
  apply join_comma_inj in E; [| done | done].
  revert E. apply (inj (fmap str)).
Qed.

End Booker.

(** * The theorems on example runs

    Each theorem with a premise is applied to a concrete run: a
    four-page and a three-page booklet of [report.pdf], a [pdfseparate]
    that fails after two of four pages, and short outputs of [pdfinfo]. *)

(** A booklet of four pages: pages 1 and 3 go to
    [report-book-odd.pdf], pages 4 and 2 to [report-book-even.pdf]. *)
Lemma even_page_count_split_witness :
  ∃ book_path w3 w',
    SinglePageBook_generate no_dates no_decimals Py36 report_pdf "report-book.pdf" None None
      (world_of (booklet_replies 4))
    = (try_finally
         (pdfselect no_dates no_decimals book_path (odd_name Py36 "report-book.pdf") (odd_pages 4);;
          pdfselect no_dates no_decimals book_path (even_name Py36 "report-book.pdf") (even_pages 4))
         (os_remove book_path);;
       mret [odd_name Py36 "report-book.pdf"; even_name Py36 "report-book.pdf"]) w3
    ∧ SinglePageBook_generate no_dates no_decimals Py36 report_pdf "report-book.pdf" None None
        (world_of (booklet_replies 4))
      = (Ok ["report-book-odd.pdf"; "report-book-even.pdf"], w')
    ∧ ∃ base1 base2 t,
        trace w' = t ++ trace w3
        ∧ commands t =
            [ ["pdfinfo"; book_path];
              ["pdfseparate"; book_path; base1 +:+ "-%d.pdf"];
              ["pdfunite"; base1 +:+ "-1.pdf"; base1 +:+ "-3.pdf";
               "report-book-odd.pdf"];
              ["pdfinfo"; book_path];
              ["pdfseparate"; book_path; base2 +:+ "-%d.pdf"];
              ["pdfunite"; base2 +:+ "-4.pdf"; base2 +:+ "-2.pdf";
               "report-book-even.pdf"] ].
Proof.
  assert (∃ w', SinglePageBook_generate no_dates no_decimals Py36 report_pdf "report-book.pdf"
                  None None (world_of (booklet_replies 4))
                = (Ok ["report-book-odd.pdf"; "report-book-even.pdf"], w'))
    as [w' Hok] by (eexists; vm_compute; reflexivity).
  edestruct (even_page_count_split no_dates no_decimals Py36 report_pdf "report-book.pdf"
               None None (world_of (booklet_replies 4)))
    as (Hrun & _ & _ & _ & _ & _ & _ & Hcmd).
  - vm_compute. reflexivity.
  - vm_compute. reflexivity.
  - vm_compute. reflexivity.
  - vm_compute. reflexivity.
  - reflexivity.
  - eexists _, _, w'. split; [exact Hrun |]. split; [exact Hok |].
    exact (proj2 (Hcmd _ _ eq_refl Hok)).
Defined.

(** A booklet of three pages: the call raises, and the files are those
    there were before. *)
Lemma odd_page_count_fails_witness :
  ∃ w', SinglePageBook_generate no_dates no_decimals Py36 report_pdf "report-book.pdf" None None
          (world_of (booklet_replies 3))
        = (Raise AssertionError, w')
        ∧ fs w' = fs (world_of (booklet_replies 3)).
Proof.
  edestruct (odd_page_count_fails no_dates no_decimals Py36 report_pdf "report-book.pdf" None None
               (world_of (booklet_replies 3))) as (w' & Hrun & _ & _ & _ & Hfs).
  - vm_compute. reflexivity.
  - vm_compute. reflexivity.
  - vm_compute. reflexivity.
  - vm_compute. reflexivity.
  - reflexivity.
  - exists w'. split; assumption.
Defined.

(** Three margins are refused, four are kept. *)
Lemma File_init_margins_witness :
  File_init PDFFile "report.pdf" None None (Some (MSeq [10; 20; 30]))
  = Raise (ValueError ["Wrong length of margins vector: 3"])
  ∧ ∃ self, File_init CPPFile "main.cpp" None None (Some (MSeq [1; 2; 3; 4])) = Ok self
            ∧ File_margins self = Some [1; 2; 3; 4].
Proof.
  split.
  - apply (proj1 (proj2 (File_init_margins PDFFile "report.pdf" None None)) [10; 20; 30]).
    simpl. lia.
  - apply (proj2 (proj2 (File_init_margins CPPFile "main.cpp" None None)) [1; 2; 3; 4]).
    reflexivity.
Defined.

(** [main.cpp] with the selection [1-4]: the constructor, [get_file]
    and [main] raise. *)
Lemma CPPFile_init_rejects_selection_witness :
  (∃ args, CPPFile_init "main.cpp" None (Some "1-4") None = Raise (ValueError args))
  ∧ CPPFile_init "main.cpp" None (Some "1-4") None
    = Raise (ValueError ["Selection is not supported"])
  ∧ (∃ args, get_file "main.cpp" None (Some "1-4") None = Raise (ValueError args))
  ∧ ∃ args, main_file no_dates no_decimals Py36 (options_of ["main.cpp"] false (Some "1-4"))
              SinglePageBook "main.cpp" (world_of [])
            = (Raise (ValueError args), world_of []).
Proof.
  destruct (CPPFile_init_rejects_selection no_dates no_decimals Py36 "main.cpp" None (Some "1-4") None)
    as (Hraise & Hinit & Hget & Hmain).
  - right. exists "1-4". split; [reflexivity | discriminate].
  - split; [exact Hraise |]. split; [| split].
    + eapply Hinit. vm_compute. reflexivity.
    + apply Hget. vm_compute. reflexivity.
    + apply Hmain; reflexivity.
Defined.

(** Two files and a selection: [main] raises in the world it was given. *)
Lemma select_with_many_files_witness :
  main no_dates no_decimals Py36 (options_of ["report.pdf"; "main.cpp"] false (Some "1-4"))
    (world_of (booklet_replies 4))
  = (Raise (ValueError ["--select flag is possible for single file"]),
     world_of (booklet_replies 4)).
Proof. apply select_with_many_files; [discriminate | simpl; lia]. Defined.

(** The parser on lines and on whole outputs: [sample_info] has twelve
    pages and a line [Encrypted no] without colon, which is skipped. *)
Lemma pdfinfo_parse_spec_witness :
  parse_line no_dates no_decimals ("Title" +:+ ":" +:+ "   " +:+ "report")
  = (v ← convert no_dates no_decimals "Title" "report"; Ok (Some ("Title", v)))
  ∧ parse_line no_dates no_decimals ("Title" +:+ ":" +:+ " " +:+ cafe)
    = (v ← convert no_dates no_decimals "Title" cafe; Ok (Some ("Title", v)))
  ∧ parse_line no_dates no_decimals ("Title" +:+ ":" +:+ " " +:+ cafe_latin1)
    = Raise UnicodeDecodeError
  ∧ (∃ d, pdfinfo_parse no_dates no_decimals accented_info = Ok d
          ∧ d !! "Title" = Some (VStr cafe))
  ∧ parse_line no_dates no_decimals ("Pages:" +:+ "    " +:+ str (Z.of_N 12))
    = Ok (Some ("Pages", VInt (Z.of_N 12)))
  ∧ (∃ d, pdfinfo_parse no_dates no_decimals sample_info = Ok d
          ∧ d !! "Pages" = Some (VInt 12) ∧ d !! "Encrypted" = None
          ∧ ∃ line, line ∈ splitlines sample_info
                    ∧ parse_line no_dates no_decimals line = Ok (Some ("Title", VStr "report")))
  ∧ parse_line no_dates no_decimals "Encrypted no" = Ok None
  ∧ convert no_dates no_decimals "Pages" "abc" = Raise AssertionError
  ∧ pdfinfo_parse no_dates no_decimals broken_info = Raise AssertionError
  ∧ convert no_dates no_decimals "Encrypted" "no" = Ok (VBool false)
  ∧ convert no_dates no_decimals "Tagged" "maybe" = Raise AssertionError
  ∧ pdfinfo_parse no_dates no_decimals pageless_info = Raise AssertionError.
Proof.
  destruct (pdfinfo_parse_spec no_dates no_decimals)
    as (Hkv & Hbad & Hpages & Hlast & Hskip & Hkeys & Hdigits & _ & Hstop & Hflag
        & Hnone).
  split; [by apply Hkv |].
  split; [by apply Hkv |].
  split; [by apply Hbad |].
  split.
  { eexists. split; [vm_compute; reflexivity |].
    eapply (Hlast accented_info ["Pages:          4"] ("Title:          " +:+ cafe) []).
    - vm_compute. reflexivity.
    - vm_compute. reflexivity.
    - vm_compute. reflexivity.
    - intros l v' Hl. inversion Hl. }
  split; [by apply Hpages |].
  split.
  { eexists. split; [vm_compute; reflexivity |].
    split; [| split; [vm_compute; reflexivity |]].
    - eapply (Hlast sample_info ["Title:          report"; "Encrypted no"]
                "Pages:          12" []).
      + vm_compute. reflexivity.
      + vm_compute. reflexivity.
      + vm_compute. reflexivity.
      + intros l v' Hl. inversion Hl.
    - eapply (Hkeys sample_info).
      + vm_compute. reflexivity.
      + vm_compute. reflexivity. }
  split; [by apply Hskip |].
  split; [by apply Hdigits |].
  split.
  { apply (Hstop broken_info ["Title:          report"] "Pages: abc" []).
    - vm_compute. reflexivity.
    - intros l Hl. apply list_elem_of_singleton in Hl as ->.
      eexists. vm_compute. reflexivity.
    - vm_compute. reflexivity. }
  split.
  { apply (Hflag "Encrypted" "no"). apply (bool_decide_unpack _). vm_compute. exact I. }
  split.
  { apply (Hflag "Tagged" "maybe"). apply (bool_decide_unpack _). vm_compute. exact I. }
  eapply Hnone; vm_compute; reflexivity.
Defined.


(** The raw selection [2-5] and the pages 3 and 1. *)
Lemma raw_selection_precedence_witness :
  (∃ self, File_init PDFFile "report.pdf" (Some [3; 1]) (Some "2-5") None = Ok self
           ∧ File_raw_selection self = Some "2-5")
  ∧ (∃ self, File_init PDFFile "report.pdf" (Some [3; 1]) None None = Ok self
             ∧ File_raw_selection self = Some (join "," (map str [3; 1])))
  ∧ (∃ self, File_init PDFFile "report.pdf" (Some [3; 1]) (Some "") None = Ok self
             ∧ File_raw_selection self = Some (join "," (map str [3; 1])))
  ∧ (∃ rest,
       trace (pdfjam "report.pdf" "out.pdf" (Some [3; 1]) (Some "2-5") false None
                (Paper_init "a5") (world_of [done_reply])).2
       = EvExec ("pdfjam" :: "report.pdf" :: "2-5" :: rest) done_reply
           :: trace (world_of [done_reply]))
  ∧ (∃ rest,
       trace (pdfjam "report.pdf" "out.pdf" (Some [3; 1]) None false None
                (Paper_init "a5") (world_of [done_reply])).2
       = EvExec ("pdfjam" :: "report.pdf" :: join "," (map str [3; 1]) :: rest) done_reply
           :: trace (world_of [done_reply]))
  ∧ ∃ rest,
      trace (pdfjam "report.pdf" "out.pdf" (Some [3; 1]) (Some "") false None
               (Paper_init "a5") (world_of [done_reply])).2
      = EvExec ("pdfjam" :: "report.pdf" :: join "," (map str [3; 1]) :: rest) done_reply
          :: trace (world_of [done_reply]).
Proof.
  destruct (raw_selection_precedence PDFFile "report.pdf" [3; 1] "2-5" None)
    as (Hraw & Hlist & Hempty & Hjam & Hjam_list & Hjam_empty & _).
  split; [| split; [| split; [| split; [| split]]]].
  - eexists. split; [vm_compute; reflexivity |].
    apply Hraw; [discriminate | vm_compute; reflexivity].
  - eexists. split; [vm_compute; reflexivity |].
    apply Hlist. vm_compute. reflexivity.
  - eexists. split; [vm_compute; reflexivity |].
    apply Hempty. vm_compute. reflexivity.
  - eapply Hjam; [discriminate | reflexivity].
  - eapply Hjam_list. reflexivity.
  - eapply Hjam_empty. reflexivity.
Defined.

(** The paths given for the two outputs make no difference. *)
Lemma SinglePageBook_ignores_given_paths_witness :
  SinglePageBook_generate no_dates no_decimals Py36 report_pdf "report-book.pdf"
    (Some "first.pdf") (Some "second.pdf") (world_of (booklet_replies 4))
  = SinglePageBook_generate no_dates no_decimals Py36 report_pdf "report-book.pdf"
      None None (world_of (booklet_replies 4))
  ∧ (∃ paths w',
       SinglePageBook_generate no_dates no_decimals Py36 report_pdf "report-book.pdf"
         (Some "first.pdf") (Some "second.pdf") (world_of (booklet_replies 4))
       = (Ok paths, w')
       ∧ paths = [odd_name Py36 "report-book.pdf"; even_name Py36 "report-book.pdf"])
  ∧ fs (SinglePageBook_generate no_dates no_decimals Py36 report_pdf "report-book.pdf"
          (Some "first.pdf") (Some "second.pdf") (world_of (booklet_replies 4))).2
    ⊆ fs (world_of (booklet_replies 4))
      ∪ {[odd_name Py36 "report-book.pdf"; even_name Py36 "report-book.pdf"]}
  ∧ odd_name Py36 "report-book.pdf" = insert_before_ext "-odd" "report-book.pdf"
  ∧ even_name Py36 "report-book.pdf" = insert_before_ext "-even" "report-book.pdf".
Proof.
  destruct (SinglePageBook_ignores_given_paths no_dates no_decimals Py36 report_pdf "report-book.pdf"
              (Some "first.pdf") (Some "second.pdf") None None
              (world_of (booklet_replies 4)))
    as (Hsame & Hpaths & Hfs & Hnames).
  split; [exact Hsame |]. split; [| split].
  - assert (∃ paths w',
              SinglePageBook_generate no_dates no_decimals Py36 report_pdf "report-book.pdf"
                (Some "first.pdf") (Some "second.pdf") (world_of (booklet_replies 4))
              = (Ok paths, w')) as (paths & w' & Hok)
      by (eexists _, _; vm_compute; reflexivity).
    exists paths, w'. split; [exact Hok |]. exact (Hpaths _ _ Hok).
  - apply Hfs. split; [vm_compute; reflexivity |].
    apply (bool_decide_unpack _). vm_compute. exact I.
  - apply Hnames; vm_compute; reflexivity.
Defined.

(** [report.pdf] without [-d], and the name of [main.cpp]. *)
Lemma default_output_names_witness :
  (∃ w', main no_dates no_decimals Py36 (options_of ["report.pdf"] false None)
           (world_of (booklet_replies 4)) = (Ok tt, w')
         ∧ printed (trace w')
           = printed (trace (world_of (booklet_replies 4)))
             ++ [odd_name Py36 (book_name Py36 "report.pdf");
                 even_name Py36 (book_name Py36 "report.pdf")])
  ∧ odd_name Py36 (book_name Py36 "report.pdf") = "report-book-odd.pdf"
  ∧ even_name Py36 (book_name Py36 "report.pdf") = "report-book-even.pdf"
  ∧ book_name Py36 "main.cpp" = strip_ext "main.cpp" +:+ "-book.pdf"
  ∧ odd_name Py36 (book_name Py36 "main.cpp") = strip_ext "main.cpp" +:+ "-book-odd.pdf"
  ∧ even_name Py36 (book_name Py36 "main.cpp") = strip_ext "main.cpp" +:+ "-book-even.pdf".
Proof.
  destruct (default_output_names no_dates no_decimals Py36 eq_refl)
    as (Hname & Hprint & Hsplit & _ & Hodd & Heven).
  split; [| split; [exact Hodd | split; [exact Heven | split; [apply Hname |]]]].
  - eexists. split; [vm_compute; reflexivity |].
    apply (Hprint (options_of ["report.pdf"] false None) "report.pdf");
      [reflexivity | reflexivity | vm_compute; reflexivity].
  - apply Hsplit. vm_compute. reflexivity.
Defined.

(** C3 as the specification has it does not hold: for [main.cpp] (with
    [-d]) [main] prints [main-book.pdf], the extension replaced, where
    [-book] inserted before the final extension gives [main-book.cpp]; on
    neither interpreter is the name [main-book.cpp]. *)
Lemma default_output_names_counterexample :
  printed (trace (main no_dates no_decimals Py36 (options_of ["main.cpp"] true None)
                    (world_of [done_reply; done_reply; done_reply])).2)
  = ["main-book.pdf"]
  ∧ insert_before_ext "-book" "main.cpp" = "main-book.cpp"
  ∧ book_name Py36 "main.cpp" ≠ insert_before_ext "-book" "main.cpp"
  ∧ book_name Py37 "main.cpp" ≠ insert_before_ext "-book" "main.cpp".
Proof.
  split; [vm_compute; reflexivity |]. split; [vm_compute; reflexivity |].
  split; vm_compute; discriminate.
Qed.

(** C9 as the specification has it does not hold: given the empty
    string for the raw selection and the pages 1 and 2, [File.__init__]
    and [pdfjam] use [1,2], not the raw string. *)
Lemma raw_selection_precedence_counterexample :
  (∃ self, File_init PDFFile "report.pdf" (Some [1; 2]) (Some "") None = Ok self
           ∧ File_raw_selection self = Some "1,2"
           ∧ File_raw_selection self ≠ Some "")
  ∧ commands (trace (pdfjam "report.pdf" "out.pdf" (Some [1; 2]) (Some "") false None
                       (Paper_init "a5") (world_of [done_reply])).2)
    = [["pdfjam"; "report.pdf"; "1,2"; "--paper"; "a5paper"; "-o"; "out.pdf"]].
Proof.
  split; [| vm_compute; reflexivity].
  eexists. split; [vm_compute; reflexivity |]. split; [vm_compute; reflexivity |].
  vm_compute. discriminate.
Qed.

(** C10 as the specification has it does not hold: for the path [out],
    which has no extension, both outputs are [out] itself, with no marker
    inserted; for a path of two lines the marker is inserted in each
    line. *)
Lemma SinglePageBook_names_counterexample :
  (SinglePageBook_generate no_dates no_decimals Py36 report_pdf "out" None None
     (world_of (booklet_replies 4))).1 = Ok ["out"; "out"]
  ∧ insert_before_ext "-odd" "out" = "out-odd"
  ∧ insert_before_ext "-even" "out" = "out-even"
  ∧ odd_name Py36 "out" ≠ insert_before_ext "-odd" "out"
  ∧ even_name Py36 "out" ≠ insert_before_ext "-even" "out"
  ∧ odd_name Py36 ("a.b" +:+ String newline "c.d") = "a-odd.b" +:+ String newline "c-odd.d"
  ∧ insert_before_ext "-odd" ("a.b" +:+ String newline "c.d")
    = "a.b" +:+ String newline "c-odd.d".
Proof.
  repeat split; try (vm_compute; reflexivity); vm_compute; discriminate.
Qed.

(** Under the [re.sub] of Python 3.7 and later the default name of
    [report.pdf] has the suffix twice. *)
Example book_name_report_py37 :
  book_name Py37 "report.pdf" = "report-book.pdf-book.pdf".
Proof. vm_compute. reflexivity. Qed.

(** ** The printing branch of [main]

    Two runs of [main] with [-p], next to the theorems above: when the
    second half of [SinglePageBook.generate] fails, the odd output it had
    written in the temporary directory stays there; and when no temporary
    name is free, the [finally] of [main] removes the input file, which
    [path] still names. *)

Example main_print_leaves_odd_output :
  ∃ e w', main no_dates no_decimals Py36 (print_options ["report.pdf"] "office")
            (world_of half_replies) = (Raise e, w')
          ∧ fs w' = fs (world_of half_replies) ∪ {["/tmp/booker-a-odd.pdf"]}.
Proof. eexists _, _. split; vm_compute; reflexivity. Qed.

Example main_print_removes_input :
  ∃ w', main no_dates no_decimals Py36 (print_options ["report.pdf"] "office") full_world
        = (Raise FileExistsError, w')
        ∧ fs full_world = {["report.pdf"]} ∧ fs w' = ∅.
Proof. eexists. repeat split; vm_compute; reflexivity. Qed.

(** * Further theorems on example runs *)

(** [Report.PDF] has the extension [pdf]; [notes] has no dot, and
    [notes.txt] an extension the program does not know. *)
Lemma get_file_by_extension_witness :
  has_extension "pdf" "Report.PDF" = true
  ∧ get_file "notes" None None None = Raise (ValueError ["Unknown extension"; "notes"])
  ∧ main_file no_dates no_decimals Py36 (options_of ["notes.txt"] false None) SinglePageBook
      "notes.txt" (world_of [])
    = (Raise (ValueError ["Unknown extension"; "notes.txt"]), world_of []).
Proof.
  split; [| split].
  - destruct (get_file_by_extension no_dates no_decimals Py36 "Report.PDF" None None None)
      as (_ & Hext & _ & _).
    apply (Hext "pdf" "Report" "PDF" ""); reflexivity.
  - destruct (get_file_by_extension no_dates no_decimals Py36 "notes" None None None)
      as (_ & _ & Hnone & _).
    apply Hnone. reflexivity.
  - destruct (get_file_by_extension no_dates no_decimals Py36 "notes.txt" None None None)
      as (_ & _ & _ & Hmain).
    apply Hmain; reflexivity.
Defined.

(** The outputs for [report.pdf] under Python 3.6. *)
Lemma outputs_are_distinct_witness :
  (odd_name Py36 "report.pdf" ≠ even_name Py36 "report.pdf"
   ∧ odd_name Py36 "report.pdf" ≠ "report.pdf"
   ∧ even_name Py36 "report.pdf" ≠ "report.pdf")
  ∧ (odd_name Py36 (book_name Py36 "report.pdf")
       ≠ even_name Py36 (book_name Py36 "report.pdf")
     ∧ odd_name Py36 (book_name Py36 "report.pdf") ≠ "report.pdf"
     ∧ even_name Py36 (book_name Py36 "report.pdf") ≠ "report.pdf").
Proof.
  destruct (outputs_are_distinct Py36) as (_ & Hnames & Hbook).
  split.
  - apply Hnames; reflexivity.
  - apply Hbook; reflexivity.
Defined.

(** [report.pdf] and [main.cpp] with the empty list of pages. *)
Lemma empty_selection_list_witness :
  (∃ self, File_init PDFFile "report.pdf" (Some []) None None = Ok self
           ∧ File_raw_selection self = Some "")
  ∧ CPPFile_init "main.cpp" (Some []) None None
    = Raise (ValueError ["Selection is not supported"])
  ∧ (∃ self self',
       File_init PDFFile "report.pdf" (Some []) None None = Ok self
       ∧ File_init PDFFile "report.pdf" None None None = Ok self'
       ∧ File_generate self "out.pdf" (world_of [done_reply])
         = File_generate self' "out.pdf" (world_of [done_reply]))
  ∧ trace (pdfjam "report.pdf" "out.pdf" (Some []) None false None (Paper_init "a5")
             (world_of [done_reply])).2
    = [EvExec ["pdfjam"; "report.pdf"; ""; "--paper"; "a5paper"; "-o"; "out.pdf"]
         done_reply].
Proof.
  destruct (empty_selection_list "report.pdf" None) as (Hraw & _ & Hgen & Hjam).
  destruct (empty_selection_list "main.cpp" None) as (_ & Hcpp & _ & _).
  split; [| split; [| split]].
  - eexists. split; [reflexivity |]. by eapply (Hraw PDFFile).
  - by eapply Hcpp.
  - eexists _, _. split; [reflexivity |]. split; [reflexivity |]. by apply Hgen.
  - by apply (Hjam "report.pdf" "out.pdf" (world_of [done_reply]) done_reply []).
Defined.


(** Two lines of a report, ended in the three ways. *)
Lemma pdfinfo_line_endings_witness :
  splitlines (unlines CRLF ["Title: report"; "Pages: 4"]) = ["Title: report"; "Pages: 4"]
  ∧ splitlines (unlines LF ["Title: report"; "Pages: 4"] +:+ "Encrypted: no")
    = ["Title: report"; "Pages: 4"] ++ ["Encrypted: no"]
  ∧ pdfinfo_parse no_dates no_decimals (unlines CRLF ["Title: report"; "Pages: 4"])
    = pdfinfo_parse no_dates no_decimals (unlines LF ["Title: report"; "Pages: 4"])
  ∧ pdfinfo_parse no_dates no_decimals (unlines CR ["Title: report"; "Pages: 4"])
    = pdfinfo_parse no_dates no_decimals (unlines LF ["Title: report"; "Pages: 4"]).
Proof.
  destruct (pdfinfo_line_endings no_dates no_decimals ["Title: report"; "Pages: 4"])
    as (_ & Hcrlf & _ & Hlast & Hp1 & Hp2).
  - repeat constructor.
  - split; [exact Hcrlf |]. split; [| split; [exact Hp1 | exact Hp2]].
    apply Hlast; [discriminate | reflexivity].
Defined.

(** [enscript] on [main.cpp]: both processes succeed; the first fails;
    the second fails. *)
Lemma enscript_pipeline_witness :
  ∃ ps,
    (∃ w', enscript "main.cpp" "out.pdf" (Some "cpp") None None None
             (world_of [done_reply; done_reply]) = (Ok tt, w')
           ∧ commands (trace w')
             = [["enscript"; "-E"; "cpp"; "main.cpp"; "-o"; ps]; ["ps2pdf"; ps; "out.pdf"]]
           ∧ replies w' = [])
    ∧ (∃ w', enscript "main.cpp" "out.pdf" (Some "cpp") None None None
               (world_of [failed_reply; done_reply])
             = (Raise (RuntimeError ["enscript"; "-E"; "cpp"; "main.cpp"; "-o"; ps]
                         1 "" "no such file"), w')
             ∧ commands (trace w') = [["enscript"; "-E"; "cpp"; "main.cpp"; "-o"; ps]]
             ∧ replies w' = [done_reply])
    ∧ (∃ w', enscript "main.cpp" "out.pdf" (Some "cpp") None None None
               (world_of [done_reply; failed_reply])
             = (Raise (RuntimeError ["ps2pdf"; ps; "out.pdf"] 1 "" "no such file"), w')
             ∧ replies w' = []).
Proof.
  exists "/tmp/booker-a.ps".
  split; [| split].
  - edestruct (enscript_pipeline no_dates "main.cpp" "out.pdf" (Some "cpp") None None None
                 (world_of [done_reply; done_reply])) as (Hok & _ & _).
    + vm_compute. reflexivity.
    + destruct (Hok done_reply done_reply []) as (w' & Hrun & Ht & Hr);
        [reflexivity | reflexivity | reflexivity |].
      exists w'. split; [exact Hrun |]. split; [| exact Hr]. rewrite Ht. reflexivity.
  - edestruct (enscript_pipeline no_dates "main.cpp" "out.pdf" (Some "cpp") None None None
                 (world_of [failed_reply; done_reply])) as (_ & Hfail & _).
    + vm_compute. reflexivity.
    + destruct (Hfail failed_reply [done_reply]) as (w' & Hrun & Ht & Hr);
        [reflexivity | discriminate |].
      exists w'. split; [exact Hrun |]. split; [| exact Hr]. rewrite Ht. reflexivity.
  - edestruct (enscript_pipeline no_dates "main.cpp" "out.pdf" (Some "cpp") None None None
                 (world_of [done_reply; failed_reply])) as (_ & _ & Hfail).
    + vm_compute. reflexivity.
    + destruct (Hfail done_reply failed_reply []) as (w' & Hrun & Ht & Hr);
        [reflexivity | reflexivity | discriminate |].
      exists w'. split; [exact Hrun | exact Hr].
Defined.

(** [Book.generate] for [report.pdf], with [pdfjam] succeeding and
    failing, and for [main.cpp]. *)
Lemma Book_pipeline_witness :
  (∃ w', Book_generate report_pdf "report-book.pdf"
           (world_of [done_reply; done_reply]) = (Ok ["report-book.pdf"], w')
         ∧ commands (trace w')
           = [ ["pdfjam"; "report.pdf"; "--paper"; "a5paper"; "-o"; "/tmp/booker-a.pdf"];
               ["pdfbook"; "--short-edge"; "--frame"; "true"; "--paper"; "a4paper";
                "/tmp/booker-a.pdf"; "-o"; "report-book.pdf"] ]
         ∧ replies w' = [])
  ∧ (∃ w', Book_generate report_pdf "report-book.pdf"
             (world_of [failed_reply; done_reply])
           = (Raise (RuntimeError
                       ["pdfjam"; "report.pdf"; "--paper"; "a5paper"; "-o";
                        "/tmp/booker-a.pdf"] 1 "" "no such file"), w')
           ∧ commands (trace w')
             = [["pdfjam"; "report.pdf"; "--paper"; "a5paper"; "-o"; "/tmp/booker-a.pdf"]]
           ∧ replies w' = [done_reply])
  ∧ (∃ w', Book_generate
             {| File_class := CPPFile; File_path := "main.cpp"; File_selection := None;
                File_raw_selection := None; File_margins := None |}
             "main-book.pdf" (world_of [done_reply; done_reply; done_reply])
           = (Ok ["main-book.pdf"], w')
           ∧ commands (trace w')
             = [ ["enscript"; "-E"; "cpp"; "-M"; "A5"; "-f"; "Courier8"; "main.cpp";
                  "-o"; "/tmp/booker-b.ps"];
                 ["ps2pdf"; "/tmp/booker-b.ps"; "/tmp/booker-a.pdf"];
                 ["pdfbook"; "--short-edge"; "--frame"; "true"; "--paper"; "a4paper";
                  "/tmp/booker-a.pdf"; "-o"; "main-book.pdf"] ]
           ∧ replies w' = []).
Proof.
  split; [| split].
  - edestruct (Book_pipeline no_dates report_pdf "report-book.pdf"
                 (world_of [done_reply; done_reply])) as ((Hok & _) & _).
    + vm_compute. reflexivity.
    + reflexivity.
    + destruct (Hok done_reply done_reply []) as (w' & Hrun & Ht & Hr);
        [reflexivity | reflexivity | reflexivity |].
      exists w'. split; [exact Hrun |]. split; [| exact Hr]. rewrite Ht. reflexivity.
  - edestruct (Book_pipeline no_dates report_pdf "report-book.pdf"
                 (world_of [failed_reply; done_reply])) as ((_ & Hfail) & _).
    + vm_compute. reflexivity.
    + reflexivity.
    + destruct (Hfail failed_reply [done_reply]) as (w' & Hrun & Ht & Hr);
        [reflexivity | discriminate |].
      exists w'. split; [exact Hrun |]. split; [| exact Hr]. rewrite Ht. reflexivity.
  - edestruct (Book_pipeline no_dates
                 {| File_class := CPPFile; File_path := "main.cpp"; File_selection := None;
                    File_raw_selection := None; File_margins := None |}
                 "main-book.pdf" (world_of [done_reply; done_reply; done_reply]))
      as (_ & Hcpp).
    + vm_compute. reflexivity.
    + edestruct (Hcpp eq_refl) as (w' & Hrun & Hc & Hr).
      * vm_compute. reflexivity.
      * reflexivity.
      * reflexivity.
      * reflexivity.
      * reflexivity.
      * exists w'. split; [exact Hrun |]. split; [exact Hc | exact Hr].
Defined.

(** [pdfselect] of the pages 3, 1, 3 of a document of four pages; a
    [pdfinfo] that fails; the page files of a base. *)
Lemma pdfselect_as_given_witness :
  (∃ w' base t,
     pdfselect no_dates no_decimals "report.pdf" "out.pdf" [3; 1; 3]
       (world_of [info_reply 4; separate_reply 0 4; done_reply]) = (Ok tt, w')
     ∧ trace w' = t ++ []
     ∧ commands t =
         [ ["pdfinfo"; "report.pdf"];
           ["pdfseparate"; "report.pdf"; base +:+ "-%d.pdf"];
           ["pdfunite"] ++ map (percent_d (base +:+ "-%d.pdf")) [3; 1; 3] ++ ["out.pdf"] ])
  ∧ (∃ e w1,
       pdfselect no_dates no_decimals "report.pdf" "out.pdf" [3; 1; 3] (world_of [failed_reply])
       = (Raise e, w1))
  ∧ percent_d ("/tmp/booker-a" +:+ "-%d.pdf") 3 = "/tmp/booker-a" +:+ "-" +:+ str 3 +:+ ".pdf"
  ∧ (percent_d ("/tmp/booker-a" +:+ "-%d.pdf") 3
     = percent_d ("/tmp/booker-a" +:+ "-%d.pdf") (1 + 2) → 3 = 1 + 2).
Proof.
  assert (∃ w', pdfselect no_dates no_decimals "report.pdf" "out.pdf" [3; 1; 3]
                  (world_of [info_reply 4; separate_reply 0 4; done_reply]) = (Ok tt, w'))
    as [w' Hok] by (eexists; vm_compute; reflexivity).
  assert (∃ e w1, pdfinfo no_dates no_decimals "report.pdf" (world_of [failed_reply]) = (Raise e, w1))
    as (e & w1 & Hinfo) by (eexists _, _; vm_compute; reflexivity).
  destruct (pdfselect_as_given no_dates no_decimals "report.pdf" "out.pdf" [3; 1; 3]
              (world_of [info_reply 4; separate_reply 0 4; done_reply]))
    as (Hrun & _ & Hname & Hinj).
  destruct (pdfselect_as_given no_dates no_decimals "report.pdf" "out.pdf" [3; 1; 3]
              (world_of [failed_reply])) as (_ & Hstop & _ & _).
  split; [| split; [| split]].
  - destruct (Hrun w' Hok) as (base & t & Ht & Hc).
    exists w', base, t. split; [exact Hok |]. split; [exact Ht | exact Hc].
  - exists e, w1. exact (Hstop e w1 Hinfo).
  - apply Hname. reflexivity.
  - apply Hinj. reflexivity.
Defined.

(** [main -d report.pdf main.cpp]: both booklets are made and named; and
    the same with a [pdfbook] that fails for [main.cpp]: the run stops at
    a file, with the names of the files before it printed. *)
Lemma main_prints_every_file_witness :
  (∃ w', main no_dates no_decimals Py36 (options_of ["report.pdf"; "main.cpp"] true None)
           (world_of [done_reply; done_reply; done_reply; done_reply; done_reply])
         = (Ok tt, w')
         ∧ printed (trace w') = ["report-book.pdf"; "main-book.pdf"])
  ∧ ∃ e w' pre path post w1,
      main no_dates no_decimals Py36 (options_of ["report.pdf"; "main.cpp"] true None)
        (world_of [done_reply; done_reply; done_reply; done_reply; failed_reply])
      = (Raise e, w')
      ∧ ["report.pdf"; "main.cpp"] = pre ++ path :: post
      ∧ main_file no_dates no_decimals Py36
          (options_of ["report.pdf"; "main.cpp"] true None) Book path w1
        = (Raise e, w')
      ∧ printed (trace w') = concat (map (λ p, [book_name Py36 p]) pre)
      ∧ printed (trace w') = ["report-book.pdf"].
Proof.
  assert (∃ w', main no_dates no_decimals Py36 (options_of ["report.pdf"; "main.cpp"] true None)
                  (world_of [done_reply; done_reply; done_reply; done_reply; done_reply])
                = (Ok tt, w')) as [w' Hok] by (eexists; vm_compute; reflexivity).
  assert (∃ e w', main no_dates no_decimals Py36
                    (options_of ["report.pdf"; "main.cpp"] true None)
                    (world_of [done_reply; done_reply; done_reply; done_reply;
                               failed_reply])
                  = (Raise e, w') ∧ printed (trace w') = ["report-book.pdf"])
    as (e & w2 & Hfail & Hprinted) by (eexists _, _; vm_compute; split; reflexivity).
  split.
  - destruct (main_prints_every_file no_dates no_decimals Py36
                (options_of ["report.pdf"; "main.cpp"] true None)
                (world_of [done_reply; done_reply; done_reply; done_reply; done_reply])
                eq_refl) as (Hall & _).
    exists w'. split; [exact Hok |]. exact (Hall w' Hok).
  - destruct (main_prints_every_file no_dates no_decimals Py36
                (options_of ["report.pdf"; "main.cpp"] true None)
                (world_of [done_reply; done_reply; done_reply; done_reply; failed_reply])
                eq_refl) as (_ & Hraise).
    destruct (Hraise e w2 Hfail)
      as [(_ & _ & Hsel & _) | (pre & path & post & w1 & Hfiles & _ & Hfile & Hpre & Hsame)].
    + exfalso. apply Hsel. reflexivity.
    + exists e, w2, pre, path, post, w1.
      split; [exact Hfail |]. split; [exact Hfiles |]. split; [exact Hfile |].
      split; [| exact Hprinted]. rewrite Hsame. exact Hpre.
Defined.

(** [main report.pdf] for a booklet of four pages runs the tools only. *)
Lemma main_without_printer_witness :
  ∃ t, trace (main no_dates no_decimals Py36 (options_of ["report.pdf"] false None)
                (world_of (booklet_replies 4))).2 = t ++ []
       ∧ forallb batch_event t = true.
Proof.
  apply (main_without_printer no_dates no_decimals Py36 (options_of ["report.pdf"] false None)
           (world_of (booklet_replies 4))).
  reflexivity.
Defined.



(** [main -d report.pdf] with a [pdfbook] that fails. *)
Lemma main_double_paged_keeps_files_witness :
  ({["report.pdf"; "main.cpp"]} : gset string)
  ⊆ fs (main no_dates no_decimals Py36 (options_of ["report.pdf"] true None)
          (world_of [done_reply; failed_reply])).2
  ∧ fs (main no_dates no_decimals Py36 (options_of ["report.pdf"] true None)
          (world_of [done_reply; failed_reply])).2
    ⊆ {["report.pdf"; "main.cpp"]} ∪ list_to_set (map (book_name Py36) ["report.pdf"]).
Proof.
  apply (main_double_paged_keeps_files no_dates no_decimals Py36 (options_of ["report.pdf"] true None)
           (world_of [done_reply; failed_reply])); reflexivity.
Defined.

(** [main -p office report.pdf] with both halves printed: the files
    afterwards are those there were. *)
Lemma main_print_leaves_nothing_witness :
  ∃ w', main no_dates no_decimals Py36 (print_options ["report.pdf"] "office")
          (world_with (booklet_replies 4 ++ [done_reply; done_reply]) [""; "y"])
        = (Ok tt, w')
        ∧ good no_dates no_decimals w' ∧ live (trace w') ⊆ ∅ ∧ fs w' ⊆ {["report.pdf"; "main.cpp"]}.
Proof.
  assert (∃ w', main no_dates no_decimals Py36 (print_options ["report.pdf"] "office")
                  (world_with (booklet_replies 4 ++ [done_reply; done_reply]) [""; "y"])
                = (Ok tt, w')) as [w' Hok] by (eexists; vm_compute; reflexivity).
  exists w'. split; [exact Hok |].
  apply (main_print_leaves_nothing no_dates no_decimals Py36 (print_options ["report.pdf"] "office")
           "office"
           (world_with (booklet_replies 4 ++ [done_reply; done_reply]) [""; "y"]) w');
    [reflexivity | | exact Hok].
  split; [vm_compute; reflexivity |].
  apply (bool_decide_unpack _). vm_compute. exact I.
Defined.

(** The two halves of [report.pdf], the first refused with [n]: only the
    second goes to the printer, and the third answer is left. *)
Lemma print_answers_witness :
  ∃ earlier,
    commands (trace (main_print no_dates no_decimals Py36 SinglePageBook report_pdf "office" "report.pdf"
                       (world_with (booklet_replies 4 ++ [done_reply]) ["n"; "no"; "y"])).2)
    = earlier ++ [lpr_line "office" "/tmp/booker-a-even.pdf"]
    ∧ asked (trace (main_print no_dates no_decimals Py36 SinglePageBook report_pdf "office" "report.pdf"
                      (world_with (booklet_replies 4 ++ [done_reply]) ["n"; "no"; "y"])).2)
      = ["print /tmp/booker-a-odd.pdf? [Y/n] "; "print /tmp/booker-a-even.pdf? [Y/n] "]
    ∧ stdin (main_print no_dates no_decimals Py36 SinglePageBook report_pdf "office" "report.pdf"
               (world_with (booklet_replies 4 ++ [done_reply]) ["n"; "no"; "y"])).2
      = ["y"].
Proof.
  edestruct (print_answers no_dates no_decimals Py36 SinglePageBook report_pdf "office" "report.pdf"
               (world_with (booklet_replies 4 ++ [done_reply]) ["n"; "no"; "y"]))
    with (answers := ["n"; "no"]) (rest := ["y"]) (sent := [done_reply])
         (rs := @nil reply)
    as (Hc & Hq & Hi & _).
  - vm_compute. reflexivity.
  - vm_compute. reflexivity.
  - reflexivity.
  - reflexivity.
  - reflexivity.
  - reflexivity.
  - repeat constructor.
  - eexists. split; [exact Hc |]. split; [exact Hq | exact Hi].
Defined.

(** The pages 1 and 2 and the page 12 have different arguments. *)
Lemma gen_raw_selection_injective_witness :
  gen_raw_selection (Some [1; 2]) ≠ gen_raw_selection (Some [12]).
Proof. apply gen_raw_selection_injective. discriminate. Defined.
